(** * MP-Gadget3: radiative cooling, short-range tree walk, timestep driver

    A shallow embedding of the parts of [cooling.c], [gravtree.c] and
    [run.c] that the specification talks about, followed by the theorems
    that settle the specification's claims against that code.

    Conventions of the embedding.
    - A C [double] is a primitive binary64 float ([PrimFloat.float]): the
      arithmetic, the comparisons and the treatment of NaN and of the
      infinities are those of IEEE 754, as in the compiled C.  An array of
      [float] is a list of doubles, the values its entries have once
      promoted; a store into it rounds to binary32 ([C.float_of_double]).
    - A C [int] is a [Z]; where the source can wrap, the wrap is written out.
    - [endrun(code, ...)] is the outcome [Fatal code]; a [while] loop without
      a bound in the source takes a budget of iterations and gives [Diverge]
      when the budget is spent.
    - Functions of libm, of HDF5, of the interpolation module and of the tree
      module, and the macros of allvars.h, none of which is defined in these
      files, are fields of the classes [Libm], [CoolingFiles],
      [CoolingMacros], [TreeModule] and [Timebins]. *)

From Stdlib Require Import ZArith List Bool Lia String Floats FinFun Sorted.
Import ListNotations.

Set Warnings "-inexact-float".

(** ** Doubles and ints *)

Module C.

Local Open Scope float_scope.

(** [a > b] and [a >= b] of C, which are false as soon as one side is NaN. *)
Definition gtb (a b : float) : bool := b <? a.
Definition geb (a b : float) : bool := b <=? a.
(** [a != b] of C, true as soon as one side is NaN. *)
Definition neqb (a b : float) : bool := negb (a =? b).

Definition INT_MIN : Z := (- 2 ^ 31)%Z.
Definition INT_MAX : Z := (2 ^ 31 - 1)%Z.

(** Two's complement wrap of a mathematical integer to 32 bits. *)
Definition wrap32 (z : Z) : Z := ((z + 2 ^ 31) mod 2 ^ 32 - 2 ^ 31)%Z.

(** [(double) i] for an [int] [i] (exact: 32 bits fit in the mantissa). *)
Definition double_of_int (i : Z) : float :=
  if (i <? 0)%Z then - of_uint63 (Uint63.of_Z (- i)) else of_uint63 (Uint63.of_Z i).

(** [(int) x]: truncation toward zero.  Outside the range of [int], and for
    NaN, C leaves the conversion undefined; the model returns [INT_MIN],
    the value the x86-64 conversion instruction produces. *)
Definition int_of_double (x : float) : Z :=
  match Prim2SF x with
  | S754_zero _ => 0%Z
  | S754_finite s m e =>
      let mag := Z.shiftl (Zpos m) e in
      let v := if s then (- mag)%Z else mag in
      if ((INT_MIN <=? v) && (v <=? INT_MAX))%Z then v else INT_MIN
  | _ => INT_MIN
  end.

(** [a[i]] for an array kept as a list.  An index outside the list reads
    memory next to the array in C; the model reads [0] there, and no
    theorem below depends on that value. *)
Definition rd (a : list float) (i : Z) : float :=
  if (i <? 0)%Z then 0 else nth (Z.to_nat i) a 0.

(** The same for an array of [int]. *)
Definition rdi (a : list Z) (i : Z) : Z :=
  if (i <? 0)%Z then 0%Z else nth (Z.to_nat i) a 0%Z.

(** [a[i] = v] on an array of [int] of fixed size: the list with entry [i]
    replaced.  An index outside the array writes next to it in C; the
    model leaves the array as it is. *)
Fixpoint upd_nat (a : list Z) (i : nat) (v : Z) : list Z :=
  match a, i with
  | [], _ => []
  | _ :: rest, O => v :: rest
  | x :: rest, S i' => x :: upd_nat rest i' v
  end.

Definition upd (a : list Z) (i : Z) (v : Z) : list Z :=
  if (i <? 0)%Z then a else upd_nat a (Z.to_nat i) v.

(** [(float) x]: the rounding of a double to binary32 (24 bits of
    precision, exponents up to 128), to nearest with ties to even, as a
    store into a [float] object makes it; the result is given as the
    double it is promoted to when read.  Zeros, infinities and NaN are
    kept. *)
Definition float_of_double (x : float) : float :=
  match Prim2SF x with
  | S754_finite s m e => SF2Prim (binary_round 24 128 s m e)
  | _ => x
  end.

(** [a[i] = v] on an array of [float] of fixed size, [v] being a value a
    [float] holds.  An index outside the array leaves it as it is. *)
Fixpoint updf_nat (a : list float) (i : nat) (v : float) : list float :=
  match a, i with
  | [], _ => []
  | _ :: rest, O => v :: rest
  | x :: rest, S i' => x :: updf_nat rest i' v
  end.

Definition updf (a : list float) (i : Z) (v : float) : list float :=
  if (i <? 0)%Z then a else updf_nat a (Z.to_nat i) v.

(** A key in [Z * Z * Z], compared lexicographically, that orders the
    doubles other than NaN as [SFcompare] does. *)
Definition SFkey (x : spec_float) : Z * Z * Z :=
  match x with
  | S754_infinity true => (-2, 0, 0)
  | S754_finite true m e => (-1, - e, - Zpos m)
  | S754_zero _ | S754_nan => (0, 0, 0)
  | S754_finite false m e => (1, e, Zpos m)
  | S754_infinity false => (2, 0, 0)
  end%Z.

Definition key_compare (k1 k2 : Z * Z * Z) : comparison :=
  let '(a1, b1, c1) := k1 in
  let '(a2, b2, c2) := k2 in
  match (a1 ?= a2)%Z with
  | Eq => match (b1 ?= b2)%Z with Eq => (c1 ?= c2)%Z | c => c end
  | c => c
  end.

End C.

Notation "a >? b" := (C.gtb a b) (at level 70, no associativity) : float_scope.
Notation "a >=? b" := (C.geb a b) (at level 70, no associativity) : float_scope.
Notation "a <>? b" := (C.neqb a b) (at level 70, no associativity) : float_scope.
Notation "a .[ i ]" := (C.rd a i) (at level 1, left associativity, format "a .[ i ]") : float_scope.

(** ** Outcomes of a call *)

Inductive outcome (A : Type) : Type :=
| Done (a : A)          (* the call returns *)
| Fatal (code : Z)      (* endrun(code, ...) terminates the run *)
| Diverge.              (* the iteration budget of an unbounded loop is spent *)

Arguments Done {A} a.
Arguments Fatal {A} code.
Arguments Diverge {A}.

Definition bind {A B : Type} (m : outcome A) (k : A -> outcome B) : outcome B :=
  match m with
  | Done a => k a
  | Fatal c => Fatal c
  | Diverge => Diverge
  end.

Declare Scope outcome_scope.
Delimit Scope outcome_scope with outcome.
Notation "x <- m ;; k" := (bind m (fun x => k))
  (at level 61, m at next level, right associativity) : outcome_scope.
Notation "' p <- m ;; k" := (bind m (fun p => k))
  (at level 61, p pattern, m at next level, right associativity) : outcome_scope.

(** Functions of libm that the code calls and primitive floats do not
    provide ([sqrt] and [fabs] are [PrimFloat.sqrt] and [PrimFloat.abs]). *)
Class Libm : Type := {
  log10 : float -> float;
  exp : float -> float;
  pow : float -> float -> float
}.

(** ** cooling.c *)

Module Cooling.

Local Open Scope float_scope.

Definition MAXITER : Z := 400.
Definition NCOOLTAB : Z := 2000.
Definition SMALLNUM : float := 1.0e-60.

(** physconst.h *)
Definition HYDROGEN_MASSFRAC : float := 0.76.
Definition BOLTZMANN : float := 1.38066e-16.
Definition PROTONMASS : float := 1.6726e-24.

(** Helium number fraction, as the macro spells it: the [int] operands are
    converted to [double] before each operation. *)
Definition YHELIUM : float := (1 - HYDROGEN_MASSFRAC) / (4 * HYDROGEN_MASSFRAC).

Record abundance : Type := mk_abundance {
  ne : float;
  nH0 : float;
  nHp : float;
  nHe0 : float;
  nHep : float;
  nHepp : float
}.

Record rates : Type := mk_rates {
  aHp : float;
  aHep : float;
  aHepp : float;
  ad : float;
  geH0 : float;
  geHe0 : float;
  geHep : float;
  bH0 : float;
  bHep : float;
  bff : float
}.

(** [struct UVBG] of cooling.h, with the fields cooling.c reads and writes. *)
Record UVBG : Type := mk_UVBG {
  J_UV : float;
  gJH0 : float;
  gJHe0 : float;
  gJHep : float;
  epsH0 : float;
  epsHe0 : float;
  epsHep : float
}.

(** [memset(&uvbg, 0, sizeof(uvbg))]. *)
Definition UVBG_zero : UVBG := mk_UVBG 0 0 0 0 0 0 0.

(** The ten rate tables, each of [NCOOLTAB + 1] entries. *)
Record rate_tables : Type := mk_rate_tables {
  BetaH0 : list float;
  BetaHep : list float;
  Betaff : list float;
  AlphaHp : list float;
  AlphaHep : list float;
  Alphad : list float;
  AlphaHepp : list float;
  GammaeH0 : list float;
  GammaeHe0 : list float;
  GammaeHep : list float
}.

(** The file-scope variables the equilibrium solver reads: the bounds of
    the temperature grid and the rate tables. *)
Record temperature_grid : Type := mk_grid {
  Tmin : float;
  deltaT : float;
  tab : rate_tables
}.

Definition Tmax : float := 9.0.

(** *** find_abundances_and_rates *)

(** The locals of the iteration that live across passes. *)
Record far_locals : Type := mk_far {
  far_y : abundance;
  far_r : rates;
  far_necgs : float;
  far_niter : Z
}.

Section Solver.

Variable g : temperature_grid.
Variable nHcgs : float.
Variable uvbg : UVBG.
(** [j], [flow] and [fhi] are fixed before the loop. *)
Variable j : Z.
Variables flow fhi : float.

(** One pass of the body of the [do ... while]; the boolean tells whether
    the pass left the loop through one of its two [break]s. *)
Definition far_pass (st : far_locals) : far_locals * bool :=
  let T := tab g in
  let niter := (far_niter st + 1)%Z in
  let r_aHp := flow * (AlphaHp T).[j] + fhi * (AlphaHp T).[j + 1] in
  let r_aHep := flow * (AlphaHep T).[j] + fhi * (AlphaHep T).[j + 1] in
  let r_aHepp := flow * (AlphaHepp T).[j] + fhi * (AlphaHepp T).[j + 1] in
  let r_ad := flow * (Alphad T).[j] + fhi * (Alphad T).[j + 1] in
  let r_geH0 := flow * (GammaeH0 T).[j] + fhi * (GammaeH0 T).[j + 1] in
  let r_geHe0 := flow * (GammaeHe0 T).[j] + fhi * (GammaeHe0 T).[j + 1] in
  let r_geHep := flow * (GammaeHep T).[j] + fhi * (GammaeHep T).[j + 1] in
  let r := mk_rates r_aHp r_aHep r_aHepp r_ad r_geH0 r_geHe0 r_geHep
                    (bH0 (far_r st)) (bHep (far_r st)) (bff (far_r st)) in
  let necgs := far_necgs st in
  let '(gJH0ne, gJHe0ne, gJHepne) :=
    if (necgs <=? 1.0e-25) || (J_UV uvbg =? 0)
    then (0, 0, 0)
    else (gJH0 uvbg / necgs, gJHe0 uvbg / necgs, gJHep uvbg / necgs) in
  let y_nH0 := r_aHp / (r_aHp + r_geH0 + gJH0ne) in          (* eqn (33) *)
  let y_nHp := 1.0 - y_nH0 in                                (* eqn (34) *)
  let '(y_nHep, y_nHepp, y_nHe0) :=
    if (gJHe0ne + r_geHe0) <=? SMALLNUM
    then (0.0, 0.0, YHELIUM)
    else
      let nHep := YHELIUM / (1.0 + (r_aHep + r_ad) / (r_geHe0 + gJHe0ne)
                             + (r_geHep + gJHepne) / r_aHepp) in   (* eqn (35) *)
      let nHe0 := nHep * (r_aHep + r_ad) / (r_geHe0 + gJHe0ne) in  (* eqn (36) *)
      let nHepp := nHep * (r_geHep + gJHepne) / r_aHepp in         (* eqn (37) *)
      (nHep, nHepp, nHe0) in
  let neold := ne (far_y st) in
  let y_ne := y_nHp + y_nHep + 2 * y_nHepp in                (* eqn (38) *)
  if J_UV uvbg =? 0
  then (mk_far (mk_abundance y_ne y_nH0 y_nHp y_nHe0 y_nHep y_nHepp) r necgs niter, true)
  else
    let nenew := 0.5 * (y_ne + neold) in
    let y := mk_abundance nenew y_nH0 y_nHp y_nHe0 y_nHep y_nHepp in
    let necgs := nenew * nHcgs in
    if abs (nenew - neold) <? 1.0e-4
    then (mk_far y r necgs niter, true)
    else (mk_far y r necgs niter, false).

(** The [do ... while(niter < MAXITER)] loop.  The recursion is on a
    budget of passes; [far_loop_budget] below shows that [MAXITER]
    passes are never all used up. *)
Fixpoint far_loop (budget : nat) (st : far_locals) : option far_locals :=
  match budget with
  | O => None
  | S budget' =>
      let '(st', brk) := far_pass st in
      if brk then Some st'
      else if (far_niter st' <? MAXITER)%Z then far_loop budget' st'
      else Some st'
  end.

End Solver.

Definition with_ne (y : abundance) (v : float) : abundance :=
  mk_abundance v (nH0 y) (nHp y) (nHe0 y) (nHep y) (nHepp y).

(** The state in which the loop is entered: a guess of zero electrons is
    replaced by [1.0], [niter = 0] and [necgs = y->ne * nHcgs]. *)
Definition far_entry (nHcgs : float) (y : abundance) (r : rates) : far_locals :=
  let y := if ne y =? 0 then with_ne y 1.0 else y in
  mk_far y r (ne y * nHcgs) 0.

(** The place of [logT] in the grid: the index [j] of the interval and
    the weights [flow] and [fhi] of its two ends. *)
Definition locate (g : temperature_grid) (logT : float) : Z * float * float :=
  let t := (logT - Tmin g) / deltaT g in
  let j := C.int_of_double t in
  let fhi := t - C.double_of_int j in
  let flow := 1 - fhi in
  (j, flow, fhi).

(** The statements after the loop: the three cooling coefficients are
    interpolated, and [*y] and [*r] are left as the loop made them. *)
Definition far_finish (g : temperature_grid) (j : Z) (flow fhi : float)
    (st : far_locals) : abundance * rates :=
  let T := tab g in
  let r := far_r st in
  (far_y st,
   mk_rates (aHp r) (aHep r) (aHepp r) (ad r) (geH0 r) (geHe0 r) (geHep r)
            (flow * (BetaH0 T).[j] + fhi * (BetaH0 T).[j + 1])
            (flow * (BetaHep T).[j] + fhi * (BetaHep T).[j + 1])
            (flow * (Betaff T).[j] + fhi * (Betaff T).[j + 1])).

(** The in/out structures [*y] and [*r] are taken as they are on entry and
    returned as they are on exit. *)
Definition find_abundances_and_rates (g : temperature_grid)
    (logT nHcgs : float) (uvbg : UVBG) (y : abundance) (r : rates)
  : outcome (abundance * rates) :=
  if logT <=? Tmin g then          (* everything neutral *)
    Done (mk_abundance 0 1.0 0 YHELIUM 0 0, r)
  else if logT >=? Tmax then       (* everything is ionized *)
    Done (mk_abundance (1.0 + 2.0 * YHELIUM) 0 1.0 0 0 YHELIUM, r)
  else
    let '(j, flow, fhi) := locate g logT in
    (* number densities iteratively (cf KWH eqns 33-38) in units of nH *)
    match far_loop g nHcgs uvbg j flow fhi (Z.to_nat MAXITER) (far_entry nHcgs y r) with
    | None => Diverge
    | Some st =>
        if (far_niter st >=? MAXITER)%Z then Fatal 13
        else Done (far_finish g j flow fhi st)
    end.

(** *** Globals of cooling.c *)

(** [units_to_cgs]. *)
Record units : Type := mk_units {
  density : float;
  uu : float;
  time : float
}.

(** Macros of allvars.h that cooling.c uses and that are not defined in
    these files. *)
Class CoolingMacros : Type := {
  GAMMA_MINUS1 : float;
  DMAX : float -> float -> float
}.

(** The interpolation module (interp.h) and the two ways cooling.c reads
    files: [fscanf] on the TREECOOL text table and [h5readdouble] on the
    HDF5 tables. *)
Class CoolingFiles : Type := {
  (** [None]: [fopen] fails.  [Some calls]: what each of the successive
      calls of [fscanf] with the format of seven [%g] converts, up to
      the call that returns [EOF]: the seven numbers of a record, or
      fewer when the file ends within the record or holds text that is
      not a number (the calls after such text convert nothing).  A
      number of the file is given by the double nearest to it; the
      store into the [float] array rounds it. *)
  treecool_rows : string -> option (list (list float));
  (** [h5readdouble(filename, dataset, &N)]: the buffer, of length [N]. *)
  h5readdouble : string -> string -> list float;
  Interp : Type;
  Interp_unset : Interp;
  interp_init : Z -> list Z -> Interp;
  interp_init_dim : Interp -> Z -> float -> float -> Interp;
  interp_eval : Interp -> list float -> list float -> float;
  interp_eval_periodic : Interp -> list float -> list float -> float
}.

(** An empty file name, the sign that a table is not provided. *)
Definition no_file : string := EmptyString.

Definition TABLESIZE : Z := 500.
Definition JAMPL : float := 1.0.

(** The TREECOOL table: seven arrays of [TABLESIZE] floats and its length. *)
Record ionize_table : Type := mk_ionize {
  inlogz : list float;
  gH0 : list float;
  gHe : list float;
  gHep : list float;
  eH0 : list float;
  eHe : list float;
  eHep : list float;
  nheattab : Z
}.

Section Globals.

Context {M : CoolingMacros} {F : CoolingFiles} {L : Libm}.

(** [MC]: the metal cooling table. *)
Record metal_cooling : Type := mk_MC {
  Redshift_bins : list float;
  HydrogenNumberDensity_bins : list float;
  Temperature_bins : list float;
  Lmet_table : list float;
  MC_interp : Interp
}.

(** [UVF]: the fluctuating UV background. *)
Record uv_fluctuation : Type := mk_UVF {
  UVF_disabled : Z;
  UVF_interp : Interp;
  UVF_Finterp : Interp;
  UVF_Table : list float;
  UVF_Nside : Z;
  UVF_Fraction : list float;
  UVF_Zbins : list float;
  UVF_N_Zbins : Z
}.

Record cooling_globals : Type := mk_globals {
  CoolingNoMetal : Z;
  CoolingNoPrimordial : Z;
  grid : temperature_grid;
  units_to_cgs : units;
  GlobalUVBG : UVBG;
  ionize : ionize_table;
  MC : metal_cooling;
  UVF : uv_fluctuation
}.

(** The globals before [InitCool]: static storage is zero, the table
    pointers point nowhere, [Tmin] is [0.0]. *)
Definition zeros (n : Z) : list float := repeat 0 (Z.to_nat n).

Definition globals_at_start : cooling_globals :=
  mk_globals 0 0
    (mk_grid 0.0 0 (mk_rate_tables [] [] [] [] [] [] [] [] [] []))
    (mk_units 0 0 0)
    UVBG_zero
    (mk_ionize (zeros TABLESIZE) (zeros TABLESIZE) (zeros TABLESIZE) (zeros TABLESIZE)
               (zeros TABLESIZE) (zeros TABLESIZE) (zeros TABLESIZE) 0)
    (mk_MC [] [] [] [] Interp_unset)
    (mk_UVF 0 Interp_unset Interp_unset [] 0 [] [] 0).

(** A [struct] declared without initializer holds indeterminate values;
    the model starts it at zero.  Every field is written before it is
    read on the paths the theorems follow. *)
Definition rates_indeterminate : rates := mk_rates 0 0 0 0 0 0 0 0 0 0.
Definition abundance_with_guess (ne_guess : float) : abundance :=
  mk_abundance ne_guess 0 0 0 0 0.

(** *** solve_equilibrium_temp *)

Record set_locals : Type := mk_set {
  set_y : abundance;
  set_r : rates;
  set_temp : float;
  set_max : float;
  set_iter : Z
}.

Section Equilibrium.

Variable g : temperature_grid.
Variables u nHcgs : float.
Variable uvbg : UVBG.

(** One pass of the [do ... while]; the boolean is the loop condition
    evaluated at the end of the pass. *)
Definition set_pass (st : set_locals) : outcome (set_locals * bool) :=
  let ne_old := ne (set_y st) in
  (' (y, r) <- find_abundances_and_rates g (log10 (set_temp st)) nHcgs uvbg
                 (set_y st) (set_r st) ;;
   let temp_old := set_temp st in
   let mu := (1 + 4 * YHELIUM) / (1 + YHELIUM + ne y) in
   let temp_new := GAMMA_MINUS1 / BOLTZMANN * u * PROTONMASS * mu in
   let max := DMAX (set_max st)
                (temp_new / (1 + YHELIUM + ne y)
                 * abs ((ne y - ne_old) / (temp_new - temp_old + 1.0))) in
   let temp := temp_old + (temp_new - temp_old) / (1 + max) in
   let iter := (set_iter st + 1)%Z in
   Done (mk_set y r temp max iter,
         (abs (temp - temp_old) >? 1.0e-3 * temp) && (iter <? MAXITER)%Z))%outcome.

Fixpoint set_loop (budget : nat) (st : set_locals) : outcome set_locals :=
  match budget with
  | O => Diverge
  | S budget' =>
      (' (st', again) <- set_pass st ;;
       if again then set_loop budget' st' else Done st')%outcome
  end.

(** Returns the temperature and the contents of [*y] on exit. *)
Definition solve_equilibrium_temp (y : abundance) : outcome (float * abundance) :=
  let mu := (1 + 4 * YHELIUM) / (1 + YHELIUM + ne y) in
  let temp := GAMMA_MINUS1 / BOLTZMANN * u * PROTONMASS * mu in
  (st <- set_loop (Z.to_nat MAXITER) (mk_set y rates_indeterminate temp 0 0) ;;
   if (set_iter st >=? MAXITER)%Z then Fatal 12
   else Done (set_temp st, set_y st))%outcome.

End Equilibrium.

(** *** PrimordialCoolingRate: returns [Heat - Lambda] and [*nelec]. *)
Definition PrimordialCoolingRate (g : temperature_grid) (logT nHcgs : float)
    (uvbg : UVBG) (nelec : float) (redshift : float) : outcome (float * float) :=
  let logT := if logT <=? Tmin g then Tmin g + 0.5 * deltaT g else logT in  (* floor at Tmin *)
  let y := abundance_with_guess nelec in
  if logT <? Tmax then
    (' (y, r) <- find_abundances_and_rates g logT nHcgs uvbg y rates_indeterminate ;;
     let nelec := ne y in
     (* cooling and heating rate (cf KWH Table 1) in units of nH**2 *)
     let T := pow 10.0 logT in
     let LambdaExcH0 := bH0 r * ne y * nH0 y in
     let LambdaExcHep := bHep r * ne y * nHep y in
     let LambdaExc := LambdaExcH0 + LambdaExcHep in          (* excitation *)
     let LambdaIonH0 := 2.18e-11 * geH0 r * ne y * nH0 y in
     let LambdaIonHe0 := 3.94e-11 * geHe0 r * ne y * nHe0 y in
     let LambdaIonHep := 8.72e-11 * geHep r * ne y * nHep y in
     let LambdaIon := LambdaIonH0 + LambdaIonHe0 + LambdaIonHep in   (* ionization *)
     let LambdaRecHp := 1.036e-16 * T * ne y * (aHp r * nHp y) in
     let LambdaRecHep := 1.036e-16 * T * ne y * (aHep r * nHep y) in
     let LambdaRecHepp := 1.036e-16 * T * ne y * (aHepp r * nHepp y) in
     let LambdaRecHepd := 6.526e-11 * ad r * ne y * nHep y in
     let LambdaRec := LambdaRecHp + LambdaRecHep + LambdaRecHepp + LambdaRecHepd in
     let LambdaFF := bff r * (nHp y + nHep y + 4 * nHepp y) * ne y in
     let Lambda := LambdaExc + LambdaIon + LambdaRec + LambdaFF in
     let LambdaCmptn := 5.65e-36 * ne y * (T - 2.73 * (1.0 + redshift))
                        * pow (1.0 + redshift) 4.0 / nHcgs in
     let Lambda := Lambda + LambdaCmptn in
     let Heat := 0 in
     let Heat := if J_UV uvbg <>? 0
                 then Heat + (nH0 y * epsH0 uvbg + nHe0 y * epsHe0 uvbg
                              + nHep y * epsHep uvbg) / nHcgs
                 else Heat in
     Done (Heat - Lambda, nelec))%outcome
  else
    (* outside of tabulated rates, T > Tmax K: fully ionized, only
       free-free and Compton cooling are present; no heating *)
    let Heat := 0 in
    let y_nHp := 1.0 in
    let y_nHepp := YHELIUM in
    let y_ne := y_nHp + 2.0 * y_nHepp in
    let nelec := y_ne in
    let T := pow 10.0 logT in
    let LambdaFF :=
      1.42e-27 * sqrt T * (1.1 + 0.34 * exp ((- (5.5 - logT)) * (5.5 - logT) / 3))
      * (y_nHp + 4 * y_nHepp) * y_ne in
    let LambdaCmptn := 5.65e-36 * y_ne * (T - 2.73 * (1.0 + redshift))
                       * pow (1.0 + redshift) 4.0 / nHcgs in
    let Lambda := LambdaFF + LambdaCmptn in
    Done (Heat - Lambda, nelec).

Definition TableMetalCoolingRate (G : cooling_globals) (redshift logT lognH : float) : float :=
  let x := [redshift; lognH; logT] in
  interp_eval (MC_interp (MC G)) x (Lmet_table (MC G)).

(** *** CoolingRateFromU: returns the net rate and [*ne_guess]. *)
Definition CoolingRateFromU (G : cooling_globals) (u nHcgs : float) (uvbg : UVBG)
    (ne_guess : float) (Zmet Time : float) : outcome (float * float) :=
  if (CoolingNoPrimordial G =? 0)%Z then
    (' (temp, y) <- solve_equilibrium_temp (grid G) u nHcgs uvbg
                      (abundance_with_guess ne_guess) ;;
     let ne_guess := ne y in
     let logT := log10 temp in
     let redshift := 1 / Time - 1.0 in
     ' (LambdaNet, ne_guess) <- PrimordialCoolingRate (grid G) logT nHcgs uvbg ne_guess redshift ;;
     let LambdaNet :=
       if (CoolingNoMetal G =? 0)%Z
       then let lognH := log10 nHcgs in
            LambdaNet - Zmet * TableMetalCoolingRate G redshift logT lognH
       else LambdaNet in
     Done (LambdaNet, ne_guess))%outcome
  else Done (0, ne_guess).

(** *** GetCoolingTime: returns the cooling time and [*ne_guess]. *)
Definition GetCoolingTime (G : cooling_globals) (u_old rho : float) (uvbg : UVBG)
    (ne_guess : float) (Zmet Time : float) : outcome (float * float) :=
  if (CoolingNoPrimordial G =? 0)%Z then
    let rho := rho * density (units_to_cgs G) in     (* convert to physical cgs units *)
    let u_old := u_old * uu (units_to_cgs G) in
    let nHcgs := HYDROGEN_MASSFRAC * rho / PROTONMASS in
    let ratefact := nHcgs * nHcgs / rho in
    let u := u_old in
    (' (LambdaNet, ne_guess) <- CoolingRateFromU G u nHcgs uvbg ne_guess Zmet Time ;;
     if LambdaNet >=? 0 then       (* heating due to UV background *)
       Done (0, ne_guess)
     else
       let coolingtime := u_old / ((- ratefact) * LambdaNet) in
       let coolingtime := coolingtime / time (units_to_cgs G) in
       Done (coolingtime, ne_guess))%outcome
  else Done (0, ne_guess).

(** *** AbundanceRatios: returns the temperature, [*ne_guess],
    [*nH0_pointer] and [*nHeII_pointer]; the three are passed in as they are
    before the call. *)
Definition AbundanceRatios (G : cooling_globals) (u rho : float) (uvbg : UVBG)
    (ne_guess nH0_pointer nHeII_pointer : float)
  : outcome (float * float * float * float) :=
  if (CoolingNoPrimordial G =? 0)%Z then
    let rho := rho * density (units_to_cgs G) in     (* convert to physical cgs units *)
    let u := u * uu (units_to_cgs G) in
    let nHcgs := rho / PROTONMASS * HYDROGEN_MASSFRAC in
    (' (temp, y) <- solve_equilibrium_temp (grid G) u nHcgs uvbg
                      (abundance_with_guess ne_guess) ;;
     Done (temp, ne y, nH0 y, nHep y))%outcome
  else Done (0, ne_guess, nH0_pointer, nHeII_pointer).

Definition ConvertInternalEnergy2Temperature (G : cooling_globals) (u ne : float) : float :=
  if (CoolingNoPrimordial G =? 0)%Z then
    let mu := (1 + 4 * YHELIUM) / (1 + YHELIUM + ne) in
    let u := u * uu (units_to_cgs G) in
    GAMMA_MINUS1 / BOLTZMANN * u * PROTONMASS * mu
  else 0.

(** *** DoCooling: returns the new internal energy and [*ne_guess]. *)

Section DoCooling.

Variable G : cooling_globals.
Variables u_old dt ratefact nHcgs : float.   (* already in cgs units *)
Variable uvbg : UVBG.
Variables Zmet Time : float.

(** [u - u_old - ratefact * CoolingRateFromU(u, ...) * dt], with the
    electron guess the call leaves behind. *)
Definition residual (u ne_guess : float) : outcome (float * float) :=
  (' (LambdaNet, ne_guess) <- CoolingRateFromU G u nHcgs uvbg ne_guess Zmet Time ;;
   Done (u - u_old - ratefact * LambdaNet * dt, ne_guess))%outcome.

(** [while(residual(u_upper) < 0) { u_upper *= 1.1; u_lower *= 1.1; }] *)
Fixpoint bracket_heating (budget : nat) (u_lower u_upper ne_guess : float)
  : outcome (float * float * float) :=
  match budget with
  | O => Diverge
  | S budget' =>
      (' (res, ne_guess) <- residual u_upper ne_guess ;;
       if res <? 0
       then bracket_heating budget' (u_lower * 1.1) (u_upper * 1.1) ne_guess
       else Done (u_lower, u_upper, ne_guess))%outcome
  end.

(** [while(residual(u_lower) > 0) { u_upper /= 1.1; u_lower /= 1.1; }] *)
Fixpoint bracket_cooling (budget : nat) (u_lower u_upper ne_guess : float)
  : outcome (float * float * float) :=
  match budget with
  | O => Diverge
  | S budget' =>
      (' (res, ne_guess) <- residual u_lower ne_guess ;;
       if res >? 0
       then bracket_cooling budget' (u_lower / 1.1) (u_upper / 1.1) ne_guess
       else Done (u_lower, u_upper, ne_guess))%outcome
  end.

Record bisect_locals : Type := mk_bisect {
  bis_u : float;
  bis_lower : float;
  bis_upper : float;
  bis_ne : float;
  bis_iter : Z
}.

(** The bisection [do ... while(fabs(du / u) > 1.0e-6 && iter < MAXITER)]. *)
Fixpoint bisect (budget : nat) (st : bisect_locals) : outcome bisect_locals :=
  match budget with
  | O => Diverge
  | S budget' =>
      let u := 0.5 * (bis_lower st + bis_upper st) in
      (' (res, ne_guess) <- residual u (bis_ne st) ;;
       let u_upper := if res >? 0 then u else bis_upper st in
       let u_lower := if res >? 0 then bis_lower st else u in
       let du := u_upper - u_lower in
       let iter := (bis_iter st + 1)%Z in
       let st' := mk_bisect u u_lower u_upper ne_guess iter in
       if (abs (du / u) >? 1.0e-6) && (iter <? MAXITER)%Z
       then bisect budget' st'
       else Done st')%outcome
  end.

End DoCooling.

(** [budget] bounds the passes of each of the two bracketing loops, which
    the source does not bound. *)
Definition DoCooling (budget : nat) (G : cooling_globals) (u_old rho dt : float)
    (uvbg : UVBG) (ne_guess : float) (Zmet Time : float) : outcome (float * float) :=
  if (CoolingNoPrimordial G =? 0)%Z then
    let rho := rho * density (units_to_cgs G) in    (* convert to physical cgs units *)
    let u_old := u_old * uu (units_to_cgs G) in
    let dt := dt * time (units_to_cgs G) in
    let nHcgs := HYDROGEN_MASSFRAC * rho / PROTONMASS in
    let ratefact := nHcgs * nHcgs / rho in
    let u := u_old in
    let u_lower := u in
    let u_upper := u in
    (' (LambdaNet, ne_guess) <- CoolingRateFromU G u nHcgs uvbg ne_guess Zmet Time ;;
     (* bracketing *)
     ' (u_lower, u_upper, ne_guess) <-
         (if u - u_old - ratefact * LambdaNet * dt <? 0       (* heating *)
          then bracket_heating G u_old dt ratefact nHcgs uvbg Zmet Time budget
                 (u_lower / sqrt 1.1) (u_upper * sqrt 1.1) ne_guess
          else Done (u_lower, u_upper, ne_guess)) ;;
     ' (u_lower, u_upper, ne_guess) <-
         (if u - u_old - ratefact * LambdaNet * dt >? 0
          then bracket_cooling G u_old dt ratefact nHcgs uvbg Zmet Time budget
                 (u_lower / sqrt 1.1) (u_upper * sqrt 1.1) ne_guess
          else Done (u_lower, u_upper, ne_guess)) ;;
     st <- bisect G u_old dt ratefact nHcgs uvbg Zmet Time (Z.to_nat MAXITER)
             (mk_bisect u u_lower u_upper ne_guess 0) ;;
     if (bis_iter st >=? MAXITER)%Z then Fatal 10
     else Done (bis_u st / uu (units_to_cgs G), bis_ne st))%outcome
  else Done (0, ne_guess).

(** *** MakeCoolingTable (the rates compiled without [NEW_RATES]) *)

Definition MakeCoolingTable_Tmin (MinGasTemp : float) : float :=
  if MinGasTemp >? 0.0 then log10 (0.1 * MinGasTemp) else 1.0.

(** The indices [0 .. NCOOLTAB] of the filling loop. *)
Definition table_indices : list Z := map Z.of_nat (seq 0 (Z.to_nat (NCOOLTAB + 1))).

Definition MakeCoolingTable (MinGasTemp : float) : temperature_grid :=
  let Tmin := MakeCoolingTable_Tmin MinGasTemp in
  let deltaT := (Tmax - Tmin) / C.double_of_int NCOOLTAB in
  let T_of (i : Z) : float := pow 10.0 (Tmin + deltaT * C.double_of_int i) in
  let Tfact (T : float) : float := 1.0 / (1 + sqrt (T / 1.0e5)) in
  let fill (entry : float -> float) : list float := map (fun i => entry (T_of i)) table_indices in
  let alphaHp (T : float) : float :=
    8.4e-11 * pow (T / 1000) (-0.2) / (1.0 + pow (T / 1.0e6) 0.7) / sqrt T in  (* old Cen92 fit *)
  mk_grid Tmin deltaT
    (mk_rate_tables
       (fill (fun T => if 118348 / T <? 70
                       then 7.5e-19 * exp ((-118348) / T) * Tfact T else 0))
       (fill (fun T => if 473638 / T <? 70
                       then 5.54e-17 * pow T (-0.397) * exp ((-473638) / T) * Tfact T else 0))
       (fill (fun T => 1.43e-27 * sqrt T
                       * (1.1 + 0.34 * exp ((- (5.5 - log10 T)) * (5.5 - log10 T) / 3))))
       (fill alphaHp)
       (fill (fun T => 1.5e-10 * pow T (-0.6353)))
       (fill (fun T => if 470000 / T <? 70
                       then 1.9e-3 * pow T (-1.5) * exp ((-470000) / T)
                            * (1.0 + 0.3 * exp ((-94000) / T)) else 0))
       (fill (fun T => 4.0 * alphaHp T))                                        (* old Cen92 fit *)
       (fill (fun T => if 157809.1 / T <? 70
                       then 5.85e-11 * sqrt T * exp ((-157809.1) / T) * Tfact T else 0))
       (fill (fun T => if 285335.4 / T <? 70
                       then 2.38e-11 * sqrt T * exp ((-285335.4) / T) * Tfact T else 0))
       (fill (fun T => if 631515.0 / T <? 70
                       then 5.68e-12 * sqrt T * exp ((-631515.0) / T) * Tfact T else 0))).

(** *** ReadIonizeParams *)

(** [for(i = 0; i < TABLESIZE; i++) gH0[i] = 0;] *)
Definition clear_entries (a : list float) : list float :=
  fold_left (fun a i => C.updf a (Z.of_nat i) 0) (seq 0 (Z.to_nat TABLESIZE)) a.

(** The store of one conversion of [fscanf]: the [k]-th value of the
    call, when the call converts that many, goes into entry [i] of the
    array, a [float]; otherwise the entry is left as it is. *)
Definition store_value (vals : list float) (k : nat) (a : list float) (i : Z)
  : list float :=
  match nth_error vals k with
  | Some v => C.updf a i (C.float_of_double v)
  | None => a
  end.

(** One call [fscanf(fdcool, ..., &inlogz[i], &gH0[i], &gHe[i], &gHep[i],
    &eH0[i], &eHe[i], &eHep[i])] that converts the values [vals]. *)
Definition store_record (vals : list float) (i : Z) (t : ionize_table) : ionize_table :=
  mk_ionize (store_value vals 0 (inlogz t) i) (store_value vals 1 (gH0 t) i)
            (store_value vals 2 (gHe t) i) (store_value vals 3 (gHep t) i)
            (store_value vals 4 (eH0 t) i) (store_value vals 5 (eHe t) i)
            (store_value vals 6 (eHep t) i) (nheattab t).

(** [for(i = 0; i < TABLESIZE; i++) if(fscanf(...) == EOF) break;] from
    the index [i] on, with [n] passes left: the loop ends when the calls
    are used up, which is the call that returns [EOF]. *)
Fixpoint read_records (calls : list (list float)) (n : nat) (i : Z) (t : ionize_table)
  {struct n} : ionize_table :=
  match n with
  | O => t
  | S n' =>
      match calls with
      | [] => t
      | vals :: rest => read_records rest n' (i + 1)%Z (store_record vals i t)
      end
  end.

(** [for(i = 0, nheattab = 0; i < TABLESIZE; i++) if(gH0[i] != 0.0) nheattab++; else break;] *)
Fixpoint count_entries (gH0 : list float) : Z :=
  match gH0 with
  | [] => 0
  | x :: rest => if x <>? 0.0 then (1 + count_entries rest)%Z else 0
  end.

Definition ReadIonizeParams (fname : string) (t : ionize_table) : outcome ionize_table :=
  match treecool_rows fname with
  | None => Fatal 456
  | Some calls =>
      let t := mk_ionize (inlogz t) (clear_entries (gH0 t)) (gHe t) (gHep t)
                         (eH0 t) (eHe t) (eHep t) (nheattab t) in
      let t := read_records calls (Z.to_nat TABLESIZE) 0 t in
      (*  nheattab is the number of entries in the table *)
      Done (mk_ionize (inlogz t) (gH0 t) (gHe t) (gHep t) (eH0 t) (eHe t) (eHep t)
                      (count_entries (firstn (Z.to_nat TABLESIZE) (gH0 t))))
  end.

(** *** IonizeParamsTable *)

(** [for(i = 0; i < nheattab; i++) if(inlogz[i] < logz) ilow = i; else break;]
    started with [n] passes left at index [i]. *)
Fixpoint find_ilow (inlogz : list float) (logz : float) (n : nat) (i ilow : Z) : Z :=
  match n with
  | O => ilow
  | S n' => if inlogz.[i] <? logz then find_ilow inlogz logz n' (i + 1)%Z i else ilow
  end.

Definition log_interpolate (tab : list float) (ilow : Z) (dzlow dzhi : float) : float :=
  JAMPL * pow 10.0 ((dzhi * log10 tab.[ilow] + dzlow * log10 tab.[ilow + 1]) / (dzlow + dzhi)).

(** Returns the new contents of [GlobalUVBG]. *)
Definition IonizeParamsTable (t : ionize_table) (Time : float) : UVBG :=
  let redshift := 1 / Time - 1 in
  let logz := log10 (redshift + 1.0) in
  let ilow := find_ilow (inlogz t) logz (Z.to_nat (nheattab t)) 0 0 in
  let dzlow := logz - (inlogz t).[ilow] in
  let dzhi := (inlogz t).[ilow + 1] - logz in
  if (logz >? (inlogz t).[nheattab t - 1]) || ((gH0 t).[ilow] =? 0)
     || ((gH0 t).[ilow + 1] =? 0) || (nheattab t =? 0)%Z
  then UVBG_zero
  else
    mk_UVBG 1.0e-21                    (* irrelevant as long as it's not 0 *)
            (log_interpolate (gH0 t) ilow dzlow dzhi)
            (log_interpolate (gHe t) ilow dzlow dzhi)
            (log_interpolate (gHep t) ilow dzlow dzhi)
            (log_interpolate (eH0 t) ilow dzlow dzhi)
            (log_interpolate (eHe t) ilow dzlow dzhi)
            (log_interpolate (eHep t) ilow dzlow dzhi).

Definition set_GlobalUVBG (G : cooling_globals) (uvbg : UVBG) : cooling_globals :=
  mk_globals (CoolingNoMetal G) (CoolingNoPrimordial G) (grid G) (units_to_cgs G)
             uvbg (ionize G) (MC G) (UVF G).

Definition set_UVF (G : cooling_globals) (U : uv_fluctuation) : cooling_globals :=
  mk_globals (CoolingNoMetal G) (CoolingNoPrimordial G) (grid G) (units_to_cgs G)
             (GlobalUVBG G) (ionize G) (MC G) U.

Definition IonizeParams (G : cooling_globals) (Time : float) : cooling_globals :=
  if (CoolingNoPrimordial G =? 0)%Z
  then set_GlobalUVBG G (IonizeParamsTable (ionize G) Time)
  else G.

(** *** InitMetalCooling, InitUVF, InitCool *)

Definition InitMetalCooling (MetalCoolFile : string) : outcome metal_cooling :=
  let tabbedmet := h5readdouble MetalCoolFile "MetallicityInSolar_bins" in
  let size := Z.of_nat (List.length tabbedmet) in
  if negb (size =? 1)%Z || (tabbedmet.[0] <>? 0.0) then Fatal 123
  else
    let Redshift_bins := h5readdouble MetalCoolFile "Redshift_bins" in
    let NRedshift_bins := Z.of_nat (List.length Redshift_bins) in
    let HydrogenNumberDensity_bins := h5readdouble MetalCoolFile "HydrogenNumberDensity_bins" in
    let NHydrogenNumberDensity_bins := Z.of_nat (List.length HydrogenNumberDensity_bins) in
    let Temperature_bins := h5readdouble MetalCoolFile "Temperature_bins" in
    let NTemperature_bins := Z.of_nat (List.length Temperature_bins) in
    let Lmet_table := h5readdouble MetalCoolFile "NetCoolingRate" in
    let dims := [NRedshift_bins; NHydrogenNumberDensity_bins; NTemperature_bins] in
    let interp := interp_init 3 dims in
    let interp := interp_init_dim interp 0 Redshift_bins.[0]
                    Redshift_bins.[NRedshift_bins - 1] in
    let interp := interp_init_dim interp 1 HydrogenNumberDensity_bins.[0]
                    HydrogenNumberDensity_bins.[NHydrogenNumberDensity_bins - 1] in
    let interp := interp_init_dim interp 2 Temperature_bins.[0]
                    Temperature_bins.[NTemperature_bins - 1] in
    Done (mk_MC Redshift_bins HydrogenNumberDensity_bins Temperature_bins Lmet_table interp).

Definition InitUVF (UVFluctuationFile : string) (U : uv_fluctuation) : outcome uv_fluctuation :=
  if (Z.of_nat (String.length UVFluctuationFile) =? 0)%Z then
    Done (mk_UVF 1 (UVF_interp U) (UVF_Finterp U) (UVF_Table U) (UVF_Nside U)
                 (UVF_Fraction U) (UVF_Zbins U) (UVF_N_Zbins U))
  else
    (* read the reionized fraction *)
    let Zbins := h5readdouble UVFluctuationFile "Redshift_Bins" in
    let Fraction := h5readdouble UVFluctuationFile "ReionizedFraction" in
    let N_Zbins := Z.of_nat (List.length Fraction) in
    let Finterp := interp_init 1 [N_Zbins] in
    let Finterp := interp_init_dim Finterp 0 Zbins.[0] Zbins.[N_Zbins - 1] in
    let XYZ_Bins := h5readdouble UVFluctuationFile "XYZ_Bins" in
    let Nside := Z.of_nat (List.length XYZ_Bins) in
    let Table := h5readdouble UVFluctuationFile "Zreion_Table" in
    if (Table.[0] <? 0.01) || (Table.[0] >? 100.0) then Fatal 123
    else
      let interp := interp_init 3 [Nside; Nside; Nside] in
      let interp := interp_init_dim interp 0 XYZ_Bins.[0] XYZ_Bins.[Nside - 1] in
      let interp := interp_init_dim interp 1 XYZ_Bins.[0] XYZ_Bins.[Nside - 1] in
      let interp := interp_init_dim interp 2 XYZ_Bins.[0] XYZ_Bins.[Nside - 1] in
      Done (mk_UVF 0 interp Finterp Table Nside Fraction Zbins N_Zbins).

Definition InitCool (G : cooling_globals) (CoolingOn : Z) (TimeBegin : float)
    (TreeCoolFile MetalCoolFile UVFluctuationFile : string)
    (UnitDensity_in_cgs HubbleParam UnitTime_in_s UnitPressure_in_cgs MinGasTemp : float)
  : outcome cooling_globals :=
  if (CoolingOn =? 0)%Z then
    Done (mk_globals 1 1 (grid G) (units_to_cgs G) (GlobalUVBG G) (ionize G) (MC G) (UVF G))
  else
    (* the factors to go from internal units to cgs *)
    let units := mk_units (UnitDensity_in_cgs * HubbleParam * HubbleParam)
                          (UnitPressure_in_cgs / UnitDensity_in_cgs)
                          (UnitTime_in_s / HubbleParam) in
    let tables := MakeCoolingTable MinGasTemp in
    (' (NoPrimordial, table) <-
         (if (Z.of_nat (String.length TreeCoolFile) =? 0)%Z
          then Done (1%Z, ionize G)
          else (t <- ReadIonizeParams TreeCoolFile (ionize G) ;; Done (0%Z, t))) ;;
     (* the metal cooling table is read unless the file name is empty *)
     ' (NoMetal, metal) <-
         (if (Z.of_nat (String.length MetalCoolFile) =? 0)%Z
          then Done (1%Z, MC G)
          else (m <- InitMetalCooling MetalCoolFile ;; Done (0%Z, m))) ;;
     let G := mk_globals NoMetal NoPrimordial tables units (GlobalUVBG G)
                         table metal (UVF G) in
     let G := IonizeParams G TimeBegin in
     U <- InitUVF UVFluctuationFile (UVF G) ;;
     Done (set_UVF G U))%outcome.

(** *** GetParticleUVBG: the UV background at the position [pos]. *)
Definition GetParticleUVBG (G : cooling_globals) (pos : list float) (Time : float) : UVBG :=
  if (UVF_disabled (UVF G) =? 0)%Z then
    let zreion := interp_eval_periodic (UVF_interp (UVF G)) pos (UVF_Table (UVF G)) in
    let z := 1 / Time - 1 in
    if zreion <? z then UVBG_zero else GlobalUVBG G
  else GlobalUVBG G.     (* directly use the TREECOOL table if UVF is disabled *)

End Globals.

End Cooling.

(** ** gravtree.c (compiled without [ADAPTIVE_GRAVSOFT_FORGAS]) *)

Module GravTree.

Local Open Scope float_scope.

(** Length of the look-up tables of the short-range force kernel. *)
Definition NTAB : Z := 1000.

(** The fields of [struct NODE] (forcetree.h) that the walk reads. *)
Record NODE : Type := mk_NODE {
  len : float;                        (* side length *)
  center : float * float * float;
  s : float * float * float;          (* u.d.s: centre of mass *)
  mass : float;                       (* u.d.mass *)
  bitflags : Z;                       (* u.d.bitflags *)
  sibling : Z;                        (* u.d.sibling *)
  nextnode : Z                        (* u.d.nextnode *)
}.

(** The fields of a particle [P[i]] that the walk reads. *)
Record particle : Type := mk_particle {
  Pos : float * float * float;
  Mass : float;
  Type_ : Z
}.

(** The tree as the walk sees it: [P], [Nodes] and [Nextnode], indexed as
    in the source (particles below [All.MaxPart], internal nodes from
    [All.MaxPart] on, pseudo particles from [All.MaxPart + MaxNodes] on). *)
Record tree : Type := mk_tree {
  P : Z -> particle;
  Nodes : Z -> NODE;
  Nextnode : Z -> Z
}.

(** The members of [All] that the walk reads. *)
Record All_t : Type := mk_All {
  MaxPart : Z;
  ErrTolTheta : float;
  ErrTolForceAcc : float;
  ForceSoftening : list float;
  Rcut0 : float;                      (* All.Rcut[0] *)
  Asmth0 : float;                     (* All.Asmth[0] *)
  Ti_Current : Z
}.

(** What forcetree.h, treewalk.h and allvars.h provide to the walk. *)
Class TreeModule : Type := {
  MaxNodes : Z;
  NODELISTLENGTH : Z;
  BITFLAG_TOPLEVEL : Z;
  BITFLAG_MULTIPLEPARTICLES : Z;
  NEAREST : float -> float;
  extract_max_softening_type : Z -> Z;
  maskout_different_softening_flag : Z -> Z;
  drift_particle : tree -> Z -> Z -> tree;
  force_drift_node : tree -> Z -> Z -> tree;
  (** The export buffers of a [LocalTreeWalk]; the call returns the
      buffers and its [int] result ([-1]: no room left). *)
  export_buffers : Type;
  treewalk_export_particle : export_buffers -> Z -> export_buffers * Z
}.

Record TreeWalkQueryGravity : Type := mk_query {
  query_Pos : float * float * float;  (* base.Pos *)
  NodeList : list Z;                  (* base.NodeList *)
  query_Type : Z;
  OldAcc : float
}.

Record TreeWalkResultGravity : Type := mk_result {
  Acc : float * float * float;
  Potential : float;
  Ninteractions : Z
}.

(** [flags & (1 << bit)], as a truth value. *)
Definition flag_set (flags bit : Z) : bool :=
  negb (Z.land flags (Z.shiftl 1 bit) =? 0)%Z.

(** What one pass of the inner [while(no >= 0)] decides for the node [no]
    before the force kernel; [next] is the value the pass leaves in [no]. *)
Inductive decision : Type :=
| ExportFailed                        (* return -1 *)
| Exported (next : Z)                 (* pseudo particle: exported, or passed over *)
| BranchDone                          (* a top-level node again: no = -1 *)
| OpenCell (next : Z)                 (* no = nop->u.d.nextnode; continue *)
| Discard (next : Z)                  (* outside the cutoff: no = nop->u.d.sibling; continue *)
| Interact (next : Z) (dx dy dz r2 mass h : float).  (* a particle, or a node that can be used *)

Section Walk.

Context {TM : TreeModule}.

Variable All : All_t.
Variables shortrange_table shortrange_table_potential : list float.
Variable input : TreeWalkQueryGravity.
Variable mode : Z.                  (* lv->mode *)

Definition pos_x : float := fst (fst (query_Pos input)).
Definition pos_y : float := snd (fst (query_Pos input)).
Definition pos_z : float := snd (query_Pos input).
Definition ptype : Z := query_Type input.
Definition aold : float := ErrTolForceAcc All * OldAcc input.
Definition rcut : float := Rcut0 All.
Definition asmth : float := Asmth0 All.
Definition rcut2 : float := rcut * rcut.
Definition asmthfac : float := 0.5 / asmth * (C.double_of_int NTAB / 3.0).

(** The vector from the target to the point [p], brought into the nearest
    periodic image, and its squared length: [dx], [dy], [dz] and [r2], as
    computed for a particle (lines 323-331) and for a node (lines 393-400). *)
Definition separation (p : float * float * float) : float * float * float * float :=
  let dx := fst (fst p) - pos_x in
  let dy := snd (fst p) - pos_y in
  let dz := snd p - pos_z in
  let dx := NEAREST dx in
  let dy := NEAREST dy in
  let dz := NEAREST dz in
  let r2 := dx * dx + dy * dy + dz * dz in
  (dx, dy, dz, r2).

(** The branch [no < All.MaxPart]: the node is a particle. *)
Definition visit_particle (t : tree) (no : Z) : tree * decision :=
  let t := drift_particle t no (Ti_Current All) in
  let p := P t no in
  let '(dx, dy, dz, r2) := separation (Pos p) in
  let mass := Mass p in
  let h := (ForceSoftening All).[ptype] in
  let h := if h <? (ForceSoftening All).[Type_ p] then (ForceSoftening All).[Type_ p] else h in
  (t, Interact (Nextnode t no) dx dy dz r2 mass h).

(** The test [if(r2 > rcut2)]: can the walk stop along this branch? *)
Definition outside_cutoff (nop : NODE) (r2 : float) : bool :=
  if r2 >? rcut2 then
    let eff_dist := rcut + 0.5 * len nop in
    let dist_x := NEAREST (fst (fst (center nop)) - pos_x) in
    let dist_y := NEAREST (snd (fst (center nop)) - pos_y) in
    let dist_z := NEAREST (snd (center nop) - pos_z) in
    if (dist_x <? - eff_dist) || (dist_x >? eff_dist) then true
    else if (dist_y <? - eff_dist) || (dist_y >? eff_dist) then true
    else if (dist_z <? - eff_dist) || (dist_z >? eff_dist) then true
    else false
  else false.

(** The opening test: Barnes-Hut when [All.ErrTolTheta] is not zero,
    the relative criterion with its inside-the-cell check otherwise. *)
Definition opening_criterion (nop : NODE) (r2 mass : float) : bool :=
  if ErrTolTheta All <>? 0 then     (* check Barnes-Hut opening criterion *)
    len nop * len nop >? r2 * ErrTolTheta All * ErrTolTheta All
  else                              (* check relative opening criterion *)
    if mass * len nop * len nop >? r2 * r2 * aold then true
    else
      (* check in addition whether we lie inside the cell *)
      (abs (fst (fst (center nop)) - pos_x) <? 0.60 * len nop)
      && (abs (snd (fst (center nop)) - pos_y) <? 0.60 * len nop)
      && (abs (snd (center nop) - pos_z) <? 0.60 * len nop).

(** The softening of the node: [Some h] when the node can be used with
    softening [h], [None] when particles of different softening lie
    within reach and the cell has to be opened. *)
Definition node_softening (nop : NODE) (r2 : float) : option float :=
  let h := (ForceSoftening All).[ptype] in
  let hmax := (ForceSoftening All).[extract_max_softening_type (bitflags nop)] in
  if h <? hmax then
    let h := hmax in
    if (r2 <? h * h) && negb (maskout_different_softening_flag (bitflags nop) =? 0)%Z
    then None
    else Some h
  else Some h.

(** The branch of an internal node, [All.MaxPart <= no < All.MaxPart + MaxNodes]. *)
Definition visit_node (t : tree) (no : Z) : tree * decision :=
  let nop := Nodes t no in
  if (mode =? 1)%Z && flag_set (bitflags nop) BITFLAG_TOPLEVEL then
    (t, BranchDone)
  else if negb (flag_set (bitflags nop) BITFLAG_MULTIPLEPARTICLES) then
    (t, OpenCell (nextnode nop))
  else
    let t := force_drift_node t no (Ti_Current All) in
    let nop := Nodes t no in
    let mass := mass nop in
    let dx := fst (fst (s nop)) - pos_x in
    let dy := snd (fst (s nop)) - pos_y in
    let dz := snd (s nop) - pos_z in
    let dx := NEAREST dx in
    let dy := NEAREST dy in
    let dz := NEAREST dz in
    let r2 := dx * dx + dy * dy + dz * dz in
    if outside_cutoff nop r2 then (t, Discard (sibling nop))
    else if opening_criterion nop r2 mass then (t, OpenCell (nextnode nop))
    else
      match node_softening nop r2 with
      | None => (t, OpenCell (nextnode nop))
      | Some h => (t, Interact (sibling nop) dx dy dz r2 mass h)   (* ok, node can be used *)
      end.

(** One node of the inner loop, up to the force kernel. *)
Definition visit (t : tree) (lv : export_buffers) (no : Z)
  : tree * export_buffers * decision :=
  if (no <? MaxPart All)%Z then
    let '(t, d) := visit_particle t no in (t, lv, d)
  else if (no >=? MaxPart All + MaxNodes)%Z then    (* pseudo particle *)
    if (mode =? 0)%Z then
      let '(lv, res) := treewalk_export_particle lv no in
      if (res =? -1)%Z then (t, lv, ExportFailed)
      else (t, lv, Exported (Nextnode t (no - MaxNodes)))
    else (t, lv, Exported (Nextnode t (no - MaxNodes)))
  else
    let '(t, d) := visit_node t no in (t, lv, d).

(** The accumulators of the walk. *)
Record walk_state : Type := mk_walk {
  w_no : Z;
  w_acc : float * float * float;
  w_pot : float;
  w_ninteractions : Z;
  w_nnodesinlist : Z;
  w_listindex : Z;
  w_tree : tree;
  w_lv : export_buffers
}.

(** The force kernel, from [r = sqrt(r2)] to the end of the inner loop body. *)
Definition interact (w : walk_state) (next : Z) (dx dy dz r2 mass h : float) (t : tree)
  : walk_state :=
  let r := sqrt r2 in
  let '(fac, facpot) :=
    if r >=? h then (mass / (r2 * r), (- mass) / r)
    else
      let h_inv := 1.0 / h in
      let h3_inv := h_inv * h_inv * h_inv in
      let u := r * h_inv in
      let fac :=
        if u <? 0.5
        then mass * h3_inv * (10.666666666667 + u * u * (32.0 * u - 38.4))
        else mass * h3_inv * (21.333333333333 - 48.0 * u + 38.4 * u * u
                              - 10.666666666667 * u * u * u
                              - 0.066666666667 / (u * u * u)) in
      let wp :=
        if u <? 0.5
        then (-2.8) + u * u * (5.333333333333 + u * u * (6.4 * u - 9.6))
        else (-3.2) + 0.066666666667 / u
             + u * u * (10.666666666667 + u * ((-16.0) + u * (9.6 - 2.133333333333 * u))) in
      (fac, mass * h_inv * wp) in
  let tabindex := C.int_of_double (asmthfac * r) in
  if (tabindex <? NTAB)%Z then
    let fac := fac * shortrange_table.[tabindex] in
    let '(acc_x, acc_y, acc_z) := w_acc w in
    mk_walk next (acc_x + dx * fac, acc_y + dy * fac, acc_z + dz * fac)
            (w_pot w + facpot * shortrange_table_potential.[tabindex])
            (C.wrap32 (w_ninteractions w + 1))
            (w_nnodesinlist w) (w_listindex w) t (w_lv w)
  else
    mk_walk next (w_acc w) (w_pot w) (w_ninteractions w)
            (w_nnodesinlist w) (w_listindex w) t (w_lv w).

Definition goto (w : walk_state) (next : Z) (t : tree) (lv : export_buffers) : walk_state :=
  mk_walk next (w_acc w) (w_pot w) (w_ninteractions w)
          (w_nnodesinlist w) (w_listindex w) t lv.

(** The step after the inner loop: the next entry of the node list, if
    there is one, is opened. *)
Definition next_in_nodelist (w : walk_state) : walk_state :=
  if (w_listindex w <? NODELISTLENGTH)%Z then
    let no := C.rdi (NodeList input) (w_listindex w) in
    if (no >=? 0)%Z then
      mk_walk (nextnode (Nodes (w_tree w) no))       (* open it *)
              (w_acc w) (w_pot w) (w_ninteractions w)
              (C.wrap32 (w_nnodesinlist w + 1)) (C.wrap32 (w_listindex w + 1))
              (w_tree w) (w_lv w)
    else goto w no (w_tree w) (w_lv w)
  else w.

(** The body of the outer [while(no >= 0)], entered at the test of the
    inner [while(no >= 0)].  The boolean is [false] when the walk stops
    with [return -1]. *)
Fixpoint walk (budget : nat) (w : walk_state) : outcome (bool * walk_state) :=
  match budget with
  | O => Diverge
  | S budget' =>
      if (w_no w >=? 0)%Z then
        let '(t, lv, d) := visit (w_tree w) (w_lv w) (w_no w) in
        match d with
        | ExportFailed => Done (false, goto w (w_no w) t lv)
        | Exported next => walk budget' (goto w next t lv)
        | BranchDone => walk budget' (goto w (-1) t lv)
        | OpenCell next => walk budget' (goto w next t lv)
        | Discard next => walk budget' (goto w next t lv)
        | Interact next dx dy dz r2 mass h =>
            walk budget' (interact w next dx dy dz r2 mass h t)
        end
      else
        let w := next_in_nodelist w in
        if (w_no w >=? 0)%Z then walk budget' w else Done (true, w)
  end.

(** Returns the tree and the export buffers as the walk leaves them,
    [*output] when it is written, and the [int] result. *)
Definition force_treeev_shortrange (budget : nat) (t : tree) (lv : export_buffers)
  : outcome (tree * export_buffers * option TreeWalkResultGravity * Z) :=
  let no := C.rdi (NodeList input) 0 in
  let listindex := 1%Z in
  let no := nextnode (Nodes t no) in       (* open it *)
  let w := mk_walk no (0, 0, 0) 0 0 0 listindex t lv in
  (' (finished, w) <- (if (no >=? 0)%Z then walk budget w else Done (true, w)) ;;
   if finished
   then Done (w_tree w, w_lv w,
              Some (mk_result (w_acc w) (w_pot w) (w_ninteractions w)),
              w_ninteractions w)
   else Done (w_tree w, w_lv w, None, (-1)%Z))%outcome.

End Walk.

End GravTree.

(** ** run.c: the synchronization point *)

Module Run.

Local Open Scope Z_scope.

(** [TIMEBINS] and [TIMEBASE] of allvars.h. *)
Class Timebins : Type := {
  TIMEBINS : Z;
  TIMEBASE : Z
}.

(** What a rank holds of the timebin structure: the number of its
    particles in each bin and the activity flag of each bin. *)
Record rank : Type := mk_rank {
  TimeBinCount : list Z;
  TimeBinActive : list Z
}.

Section SyncPoint.

Context {TB : Timebins}.

(** The values [lo, lo + 1, ..., TIMEBINS - 1] that [n] takes in a loop
    [for(n = lo; n < TIMEBINS; n++)]. *)
Definition bins_from (lo : Z) : list Z :=
  map (fun k => lo + Z.of_nat k) (seq 0 (Z.to_nat (TIMEBINS - lo))).

(** [dt_bin = (1 << n)]. *)
Definition dt_bin (n : Z) : Z := C.wrap32 (Z.shiftl 1 n).

(** One pass of the loop that finds the next kick time (lines 169-186):
    the new value of [ti_next_kick]. *)
Definition next_kick_pass (TimeBinCount : list Z) (Ti_Current : Z)
    (ti_next_kick n : Z) : Z :=
  if C.rdi TimeBinCount n =? 0 then ti_next_kick
  else
    let ti_next_for_bin :=
      if n >? 0
      then C.wrap32 (C.wrap32 (Z.quot Ti_Current (dt_bin n) * dt_bin n) + dt_bin n)
      else Ti_Current in
    if ti_next_for_bin <? ti_next_kick then ti_next_for_bin else ti_next_kick.

Definition find_next_kick (Ti_Current : Z) (r : rank) : Z :=
  fold_left (next_kick_pass (TimeBinCount r) Ti_Current) (bins_from 0) TIMEBASE.

(** [MPI_Allreduce(..., MPI_MIN, MPI_COMM_WORLD)] over the values of this
    rank and of the other ranks. *)
Definition MPI_Allreduce_MIN (mine : Z) (others : list Z) : Z :=
  fold_left Z.min others mine.

(** [sumup_large_ints(1, &x, &sum)]: the 64-bit sum over all ranks. *)
Definition sumup_large_ints (xs : list Z) : Z := fold_right Z.add 0 xs.

(** The locals of the marking loop (lines 221-232). *)
Record marking : Type := mk_marking {
  Active : list Z;                  (* TimeBinActive *)
  NumForceUpdate : Z
}.

Definition mark_pass (TimeBinCount : list Z) (ti_next_kick_global : Z)
    (m : marking) (n : Z) : marking :=
  if Z.rem ti_next_kick_global (dt_bin n) =? 0
  then mk_marking (C.upd (Active m) n 1)
                  (C.wrap32 (NumForceUpdate m + C.rdi TimeBinCount n))
  else mk_marking (C.upd (Active m) n 0) (NumForceUpdate m).

(** [for(n = 1, TimeBinActive[0] = 1, NumForceUpdate = TimeBinCount[0]; n < TIMEBINS; n++)] *)
Definition mark_active_bins (ti_next_kick_global : Z) (r : rank) : marking :=
  fold_left (mark_pass (TimeBinCount r) ti_next_kick_global) (bins_from 1)
            (mk_marking (C.upd (TimeBinActive r) 0 1) (C.rdi (TimeBinCount r) 0)).

(** What [find_next_sync_point_and_drift] computes on the ranks of the
    run: the global kick time, the marking of each rank,
    [GlobNumForceUpdate] and [Flag_FullStep].  The snapshot loop between
    the reduction and the marking, and the list of active particles
    built after it, change none of these. *)
Record sync : Type := mk_sync {
  ti_next_kick_global : Z;
  markings : list marking;
  GlobNumForceUpdate : Z;
  Flag_FullStep : Z
}.

Definition find_next_sync_point (Ti_Current TotNumPart : Z)
    (this : rank) (others : list rank) : sync :=
  let ti := MPI_Allreduce_MIN (find_next_kick Ti_Current this)
                              (map (find_next_kick Ti_Current) others) in
  let ms := map (mark_active_bins ti) (this :: others) in
  let glob := sumup_large_ints (map NumForceUpdate ms) in
  mk_sync ti ms glob (if glob >=? TotNumPart then 1 else 0).

End SyncPoint.

(** *** ShouldWeDoDynamicUpdate *)

(** Two's complement wrap to the 64 bits of an [int64_t], and
    [(double) x] for an [int64_t] [x], rounded to the nearest double. *)
Definition wrap64 (z : Z) : Z := (z + 2 ^ 63) mod 2 ^ 64 - 2 ^ 63.

Definition double_of_int64 (x : Z) : float :=
  if x =? - 2 ^ 63 then (-9223372036854775808.0)%float
  else if x <? 0 then (- of_uint63 (Uint63.of_Z (- x)))%float
  else of_uint63 (Uint63.of_Z x).

Section DynamicUpdate.

Context {TB : Timebins}.

(** One pass of the loop that counts the particles that will be active
    (lines 315-321). *)
Definition count_pass (TimeBinCount : list Z) (ti_next_kick_global : Z) (num n : Z) : Z :=
  if Z.rem ti_next_kick_global (dt_bin n) =? 0
  then C.wrap32 (num + C.rdi TimeBinCount n)
  else num.

(** [for(n = 1, num = TimeBinCount[0]; n < TIMEBINS; n++)] *)
Definition count_active_bins (ti_next_kick_global : Z) (r : rank) : Z :=
  fold_left (count_pass (TimeBinCount r) ti_next_kick_global) (bins_from 1)
            (C.rdi (TimeBinCount r) 0).

(** Returns [numforces], the guess that is logged, and the [int] result.
    [All.NumForcesSinceLastDomainDecomp] and [All.TotNumPart] are
    [int64_t], [All.TreeDomainUpdateFrequency] is a [double]: the
    comparison is made on doubles. *)
Definition ShouldWeDoDynamicUpdate (Ti_Current : Z)
    (NumForcesSinceLastDomainDecomp TotNumPart : Z) (TreeDomainUpdateFrequency : float)
    (this : rank) (others : list rank) : Z * Z :=
  let ti := MPI_Allreduce_MIN (find_next_kick Ti_Current this)
                              (map (find_next_kick Ti_Current) others) in
  let numforces := sumup_large_ints (map (count_active_bins ti) (this :: others)) in
  (numforces,
   if (double_of_int64 (wrap64 (NumForcesSinceLastDomainDecomp + numforces))
       >=? TreeDomainUpdateFrequency * double_of_int64 TotNumPart)%float
   then 0 else 1).

End DynamicUpdate.

(** *** find_next_outputtime and the snapshots of find_next_sync_point_and_drift *)

(** [log] of libm, which run.c calls. *)
Class LibmLog : Type := {
  log : float -> float
}.

(** The members of [All] that fix the output times; [OutputListTimes]
    holds the [All.OutputListLength] entries of the array that are in use. *)
Record output_times : Type := mk_output_times {
  OutputListTimes : list float;
  TimeBegin : float;
  TimeMax : float;
  Timebase_interval : float
}.

(** What the snapshot loop changes: [All.Ti_nextoutput],
    [All.SnapshotFileCount], and the calls of [savepositions] it makes,
    the latest first, each with the value of [All.Ti_Current] at the call,
    the file number and [stopflag]. *)
Record snapshots : Type := mk_snapshots {
  Ti_nextoutput : Z;
  SnapshotFileCount : Z;
  saved : list (Z * Z * Z)
}.

Section OutputTimes.

Context {TB : Timebins} {LL : LibmLog}.

Variable OT : output_times.

(** The index on the time line of the output time [t]. *)
Definition output_ti (t : float) : Z :=
  C.int_of_double (log (t / TimeBegin OT) / Timebase_interval OT)%float.

(** The loop over the output list (lines 342-356), from the entry at the
    head of [times] on: the value it leaves in [ti_next]. *)
Fixpoint scan_output_list (times : list float) (ti_curr : Z) : Z :=
  match times with
  | [] => -1
  | t :: rest =>
      if ((t >=? TimeBegin OT) && (t <=? TimeMax OT))%float then
        let ti := output_ti t in
        if ti >=? ti_curr then ti else scan_output_list rest ti_curr
      else scan_output_list rest ti_curr
  end.

Definition find_next_outputtime (ti_curr : Z) : Z :=
  let ti_next := scan_output_list (OutputListTimes OT) ti_curr in
  if ti_next =? -1
  then C.wrap32 (2 * TIMEBASE)       (* this will prevent any further output *)
  else ti_next.

(** [while(ti_next_kick_global >= All.Ti_nextoutput && All.Ti_nextoutput >= 0)]
    (lines 190-205).  [set_global_time] and [move_particles] move the
    particles to the output time and leave the three members of the
    state as they are. *)
Fixpoint write_pending_snapshots (budget : nat) (stopflag ti_next_kick_global : Z)
    (st : snapshots) : outcome snapshots :=
  match budget with
  | O => Diverge
  | S budget' =>
      if (ti_next_kick_global >=? Ti_nextoutput st) && (Ti_nextoutput st >=? 0) then
        let Ti_Current := Ti_nextoutput st in
        let saved' := (Ti_Current, SnapshotFileCount st, stopflag) :: saved st in
        write_pending_snapshots budget' stopflag ti_next_kick_global
          (mk_snapshots (find_next_outputtime (C.wrap32 (Ti_nextoutput st + 1)))
                        (C.wrap32 (SnapshotFileCount st + 1))
                        saved')
      else Done st
  end.

End OutputTimes.

(** *** human_interaction *)

(** The files of the output directory that [human_interaction] looks
    for.  A line of the ioctl file is given by what the two [sscanf]
    calls read from it: a value for [All.NumPartPerFile], a value for
    [All.NumWriters], or nothing. *)
Record output_dir : Type := mk_dir {
  ioctl_file : option (list (option Z * option Z));
  stop_file : bool;
  restart_file : bool
}.

(** The members of [All] that [human_interaction] reads and writes. *)
Record run_control : Type := mk_control {
  NumPartPerFile : Z;
  NumWriters : Z;
  ElapsedTime : float;                (* All.CT.ElapsedTime *)
  TimeLimitCPU : float;
  TimeLastRestartFile : float;
  CpuTimeBetRestartFile : float
}.

(** The [while(-1 != getline(...))] loop over the lines of the ioctl file. *)
Definition parse_ioctl (lines : list (option Z * option Z)) (c : run_control) : Z * Z :=
  fold_left (fun (acc : Z * Z) (line : option Z * option Z) =>
               (match fst line with Some v => v | None => fst acc end,
                match snd line with Some v => v | None => snd acc end))
            lines (NumPartPerFile c, NumWriters c).

(** What the root rank does; [MPI_Bcast] then hands the [stopflag] of
    the root to every rank, which returns it. *)
Definition human_interaction (c : run_control) (d : output_dir)
  : Z * run_control * output_dir :=
  let stopflag := 0 in
  let '(nppf, nw) :=
    match ioctl_file d with
    | Some lines => parse_ioctl lines c
    | None => (NumPartPerFile c, NumWriters c)
    end in
  (* Is the stop-file present? If yes, interrupt the run. *)
  let stopflag := if stop_file d then 1 else stopflag in
  (* are we running out of CPU-time ? If yes, interrupt run. *)
  let stopflag := if (ElapsedTime c >? 0.85 * TimeLimitCPU c)%float then 2 else stopflag in
  let stopflag := if restart_file d then 3 else stopflag in
  let restart_due :=
    ((ElapsedTime c - TimeLastRestartFile c) >=? CpuTimeBetRestartFile c)%float in
  let stopflag := if restart_due then 3 else stopflag in
  (stopflag,
   mk_control nppf nw (ElapsedTime c) (TimeLimitCPU c)
              (if restart_due then ElapsedTime c else TimeLastRestartFile c)
              (CpuTimeBetRestartFile c),
   mk_dir (ioctl_file d) false false).     (* unlink(stopfname), unlink(restartfname) *)

(** *** run: from human_interaction to the next synchronization point *)

Section MainLoop.

Context {TB : Timebins} {LL : LibmLog}.

Variable OT : output_times.

(** The end of a pass of the main loop of [run] and what follows it
    (lines 67-76, then 35-43): [human_interaction], the request for a
    snapshot at [All.Ti_Current] when [stopflag] is set, and the test of
    the loop.  When the loop goes on, the kick time and the snapshot loop
    of [find_next_sync_point_and_drift] follow, and [run] returns there
    when [stopflag] is 1 or 2.  When the loop is left, [run] writes the
    last snapshot, with the flag 0, and returns.  [Time] is [All.Time],
    as the last [set_global_time] has left it; the boolean tells whether
    [run] returns. *)
Definition run_interaction_and_sync (budget : nat) (Ti_Current : Z) (Time : float)
    (TotNumPart : Z) (this : rank) (others : list rank) (c : run_control) (d : output_dir)
    (st : snapshots)
  : outcome (Z * run_control * output_dir * snapshots * bool) :=
  let '(stopflag, c', d') := human_interaction c d in
  let st := if stopflag =? 0 then st
            else mk_snapshots Ti_Current (SnapshotFileCount st) (saved st) in
  if (Ti_Current <? TIMEBASE) && (Time <=? TimeMax OT)%float then
    let S := find_next_sync_point Ti_Current TotNumPart this others in
    (st' <- write_pending_snapshots OT budget stopflag (ti_next_kick_global S) st ;;
     Done (stopflag, c', d', st', (stopflag =? 1) || (stopflag =? 2)))%outcome
  else
    (* savepositions(All.SnapshotFileCount++, 0) *)
    Done (stopflag, c', d',
          mk_snapshots (Ti_nextoutput st) (C.wrap32 (SnapshotFileCount st + 1))
                       ((Ti_Current, SnapshotFileCount st, 0) :: saved st),
          true).

End MainLoop.

(** *** The list of active particles of find_next_sync_point_and_drift *)

(** The linked lists of the timebins and of the active particles. *)
Record bin_lists : Type := mk_lists {
  FirstInTimeBin : list Z;
  NextInTimeBin : list Z;
  FirstActiveParticle : Z;
  NextActiveParticle : list Z
}.

Section ActiveList.

Context {TB : Timebins}.

(** The locals of the loops that link the active particles (lines 244-261). *)
Record linking : Type := mk_linking {
  link_first : Z;                   (* FirstActiveParticle *)
  link_next : list Z;               (* NextActiveParticle *)
  link_prev : Z
}.

(** The body of the inner loop for the particle [i] (lines 252-258). *)
Definition link_pass (k : linking) (i : Z) : linking :=
  mk_linking (if link_prev k =? -1 then i else link_first k)
             (if link_prev k >=? 0 then C.upd (link_next k) (link_prev k) i
              else link_next k)
             i.

(** [for(i = FirstInTimeBin[n]; i >= 0; i = NextInTimeBin[i])], entered at
    the test with the value [i]. *)
Fixpoint link_bin (budget : nat) (NextInTimeBin : list Z) (i : Z) (k : linking)
  : outcome linking :=
  match budget with
  | O => Diverge
  | S budget' =>
      if i >=? 0
      then link_bin budget' NextInTimeBin (C.rdi NextInTimeBin i) (link_pass k i)
      else Done k
  end.

(** [for(n = 0, prev = -1; n < TIMEBINS; n++) if(TimeBinActive[n]) ...] over
    the bins of the list [bins]. *)
Fixpoint link_bins (budget : nat) (TimeBinActive : list Z) (L : bin_lists)
    (bins : list Z) (k : linking) : outcome linking :=
  match bins with
  | [] => Done k
  | n :: rest =>
      (k' <- (if C.rdi TimeBinActive n =? 0 then Done k
              else link_bin budget (NextInTimeBin L) (C.rdi (FirstInTimeBin L) n) k) ;;
       link_bins budget TimeBinActive L rest k')%outcome
  end.

(** Lines 244-265: the new [FirstActiveParticle] and [NextActiveParticle]. *)
Definition link_active_particles (budget : nat) (TimeBinActive : list Z) (L : bin_lists)
  : outcome bin_lists :=
  (k <- link_bins budget TimeBinActive L (bins_from 0)
          (mk_linking (-1) (NextActiveParticle L) (-1)) ;;
   let next := if link_prev k >=? 0 then C.upd (link_next k) (link_prev k) (-1)
               else link_next k in
   Done (mk_lists (FirstInTimeBin L) (NextInTimeBin L) (link_first k) next))%outcome.

(** [for(i = FirstActiveParticle; i >= 0; i = NextActiveParticle[i])]
    (lines 269-275): the particles drifted, the latest first, and
    [NumForceUpdate]. *)
Fixpoint drift_active (budget : nat) (NextActiveParticle : list Z) (i : Z)
    (drifted : list Z) (NumForceUpdate : Z) : outcome (list Z * Z) :=
  match budget with
  | O => Diverge
  | S budget' =>
      if i >=? 0 then
        drift_active budget' NextActiveParticle (C.rdi NextActiveParticle i)
                     (i :: drifted) (C.wrap32 (NumForceUpdate + 1))
      else Done (drifted, NumForceUpdate)
  end.

(** The end of [find_next_sync_point_and_drift] on one rank, from the
    marking of the bins on: the lists, the particles drifted and the
    count that is summed into [numforces2]. *)
Definition link_and_drift (budget : nat) (TimeBinActive : list Z) (L : bin_lists)
  : outcome (bin_lists * list Z * Z) :=
  (L' <- link_active_particles budget TimeBinActive L ;;
   ' (drifted, num) <- drift_active budget (NextActiveParticle L') (FirstActiveParticle L') [] 0 ;;
   Done (L', drifted, num))%outcome.

(** [if(GlobNumForceUpdate != numforces2) endrun(2, ...)], with the counts
    of the ranks. *)
Definition check_numforces (GlobNumForceUpdate : Z) (counts : list Z) : outcome unit :=
  if GlobNumForceUpdate =? sumup_large_ints counts then Done tt else Fatal 2.

End ActiveList.

End Run.



(** ** Vocabulary of the specification *)

Module Spec.

Import Cooling.
Local Open Scope float_scope.

(** "Exactly neutral": all hydrogen and helium neutral, no electrons. *)
Definition neutral (y : abundance) : Prop :=
  nH0 y = 1 /\ nHe0 y = YHELIUM /\ nHp y = 0 /\ nHep y = 0 /\ nHepp y = 0 /\ ne y = 0.

(** "Exactly fully ionized". *)
Definition fully_ionized (y : abundance) : Prop :=
  nHp y = 1 /\ nHepp y = YHELIUM /\ nH0 y = 0 /\ nHe0 y = 0 /\ nHep y = 0
  /\ ne y = nHp y + 2 * nHepp y.




(** "All zeros": every rate of the UV background and [J_UV]. *)
Definition all_zero (u : UVBG) : Prop :=
  J_UV u = 0 /\ gJH0 u = 0 /\ gJHe0 u = 0 /\ gJHep u = 0
  /\ epsH0 u = 0 /\ epsHe0 u = 0 /\ epsHep u = 0.

(** Interpolation in the logarithm: the value at [x] on the line that, in
    [log10 y], joins the points [(x0, y0)] and [(x1, y1)], the two
    logarithms being weighted by the distances of [x] to the other end. *)
Definition log_linear {L : Libm} (x0 x1 y0 y1 x : float) : float :=
  pow 10.0 (((x1 - x) * log10 y0 + (x - x0) * log10 y1) / ((x - x0) + (x1 - x))).

(** Each of the six rates of [u] is the interpolation at [logz] through
    the rows [i] and [i + 1] of the table, times the amplitude [JAMPL]. *)
Definition log_log_interpolated {L : Libm} (t : ionize_table) (i : Z) (logz : float)
    (u : UVBG) : Prop :=
  let through (rate : list float) :=
    JAMPL * log_linear (inlogz t).[i] (inlogz t).[i + 1] rate.[i] rate.[i + 1] logz in
  gJH0 u = through (gH0 t) /\ gJHe0 u = through (gHe t) /\ gJHep u = through (gHep t)
  /\ epsH0 u = through (eH0 t) /\ epsHe0 u = through (eHe t) /\ epsHep u = through (eHep t).

(** The rows [i] and [i + 1] of the table bracket [logz]: row [i] lies
    below it and row [i + 1] does not. *)
Definition brackets (t : ionize_table) (i : Z) (logz : float) : Prop :=
  (0 <= i)%Z /\ (i + 1 < nheattab t)%Z
  /\ ((inlogz t).[i] <? logz) = true /\ ((inlogz t).[i + 1] <? logz) = false.

(** [logT] lies strictly inside the tabulated range of the grid. *)
Definition inside_table (g : temperature_grid) (logT : float) : Prop :=
  (Tmin g <? logT) = true /\ (logT <? Tmax) = true.

(** The cooling of fully ionized gas of primordial composition at the
    temperature [10^logT], in units of [nH^2] (cf KWH Table 1): free-free
    emission of the hydrogen and helium ions, and inverse Compton
    scattering off the microwave background at the given redshift. *)
Definition ionized_ne : float := 1.0 + 2.0 * YHELIUM.

Definition free_free_cooling_ionized {L : Libm} (logT : float) : float :=
  1.42e-27 * sqrt (pow 10.0 logT)
  * (1.1 + 0.34 * exp ((- (5.5 - logT)) * (5.5 - logT) / 3))
  * (1.0 + 4 * YHELIUM) * ionized_ne.

Definition Compton_cooling_ionized {L : Libm} (logT nHcgs redshift : float) : float :=
  5.65e-36 * ionized_ne * (pow 10.0 logT - 2.73 * (1.0 + redshift))
  * pow (1.0 + redshift) 4.0 / nHcgs.

(** The sum of [f n] over the bins [n] of a list. *)
Definition total (f : Z -> Z) (l : list Z) : Z := Run.sumup_large_ints (map f l).

(** The number of particles a rank has in the bins marked active. *)
Definition particles_in_active_bins {TB : Run.Timebins} (counts active : list Z) : Z :=
  total (fun n => if (C.rdi active n =? 0)%Z then 0%Z else C.rdi counts n) (Run.bins_from 0).

(** The timebin arrays of a rank: [TimeBinActive] has [TIMEBINS] entries,
    and [TimeBinCount] counts the particles of the rank, whose number is an
    [int]. *)
Definition rank_ok {TB : Run.Timebins} (r : Run.rank) : Prop :=
  Z.of_nat (List.length (Run.TimeBinActive r)) = Run.TIMEBINS
  /\ (forall n : Z, (0 <= n < Run.TIMEBINS)%Z -> (0 <= C.rdi (Run.TimeBinCount r) n)%Z)
  /\ (total (C.rdi (Run.TimeBinCount r)) (Run.bins_from 0) <= C.INT_MAX)%Z.

(** The time at which the particles of bin [n] are next due: at once for
    bin 0, at the next multiple of [2^n] for the others. *)
Definition next_kick_of_bin (Ti_Current n : Z) : Z :=
  if (n >? 0)%Z then ((Ti_Current / 2 ^ n + 1) * 2 ^ n)%Z else Ti_Current.

(** Bin [n] of the rank holds particles. *)
Definition populated (r : Run.rank) (n : Z) : Prop := C.rdi (Run.TimeBinCount r) n <> 0%Z.

(** The seven rates that a pass of the solver interpolates are the same
    in [r1] and [r2]. *)
Definition pass_rates_agree (r1 r2 : rates) : Prop :=
  aHp r1 = aHp r2 /\ aHep r1 = aHep r2 /\ aHepp r1 = aHepp r2 /\ ad r1 = ad r2
  /\ geH0 r1 = geH0 r2 /\ geHe0 r1 = geHe0 r2 /\ geHep r1 = geHep r2.

(** The counters of a walk are in range: [listindex] within the node
    list, [nnodesinlist] the number of nodes opened after the first, and
    [ninteractions] between 0 and [bound]. *)
Definition counters_ok {TM : GravTree.TreeModule} (bound : Z) (w : GravTree.walk_state)
  : Prop :=
  (1 <= GravTree.w_listindex w <= GravTree.NODELISTLENGTH)%Z
  /\ GravTree.w_nnodesinlist w = (GravTree.w_listindex w - 1)%Z
  /\ (0 <= GravTree.w_ninteractions w <= bound)%Z.

(** An output time of the list that lies in the run. *)
Definition in_run (OT : Run.output_times) (t : float) : Prop :=
  (t >=? Run.TimeBegin OT) && (t <=? Run.TimeMax OT) = true.

(** The time of a call of [savepositions] that the snapshot loop records. *)
Definition saved_at (e : Z * Z * Z) : Z := fst (fst e).

(** The seven arrays of the table, in the order of the [fscanf] format. *)
Definition column (k : nat) (t : ionize_table) : list float :=
  match k with
  | 0 => inlogz t
  | 1 => gH0 t
  | 2 => gHe t
  | 3 => gHep t
  | 4 => eH0 t
  | 5 => eHe t
  | _ => eHep t
  end%nat.

(** The seven arrays have their [TABLESIZE] entries. *)
Definition table_ok (t : ionize_table) : Prop :=
  forall k : nat, List.length (column k t) = Z.to_nat TABLESIZE.

(** A call of [fscanf] that converts a value for [gH0] which, stored in
    the [float] array, is not zero. *)
Definition counted (vals : list float) : bool :=
  match nth_error vals 1 with
  | Some v => C.float_of_double v <>? 0
  | None => false
  end.

(** The bins that are marked active, in the order of the loop, and the
    particles of these bins when [members n] lists the particles of bin [n]. *)
Definition active_bins {TB : Run.Timebins} (TimeBinActive : list Z) : list Z :=
  filter (fun n => negb (C.rdi TimeBinActive n =? 0)%Z) (Run.bins_from 0).

Definition active_particles {TB : Run.Timebins} (TimeBinActive : list Z)
    (members : Z -> list Z) : list Z :=
  List.concat (map members (active_bins TimeBinActive)).

(** Each particle of [a] but the last is linked to the one behind it. *)
Definition links (next a : list Z) : Prop :=
  forall j : nat, (S j < List.length a)%nat -> C.rdi next (nth j a 0%Z) = nth (S j) a 0%Z.

(** The particles of a linked list: [chain next i l] when following
    [next] from [i] visits the particles [l], each an index of the array,
    and then reaches a negative index. *)
Inductive chain (next : list Z) : Z -> list Z -> Prop :=
| chain_end (i : Z) : (i < 0)%Z -> chain next i []
| chain_step (i : Z) (l : list Z) :
    (0 <= i < Z.of_nat (List.length next))%Z ->
    chain next (C.rdi next i) l -> chain next i (i :: l).

End Spec.

(** ** Inputs on which the model is run *)

Module Samples.

Import Cooling.
Local Open Scope float_scope.

(** A coarse libm for running the model: [log10] counts the divisions (or
    multiplications) by ten that bring its argument between one and ten,
    so it is exact on the powers of ten; [pow] and [exp] use the integer
    part of the exponent. *)
Fixpoint count_decades (budget : nat) (x : float) : float :=
  match budget with
  | O => 0
  | S budget' =>
      if x >=? 10 then 1 + count_decades budget' (x / 10)
      else if (x <? 1) && (x >? 0) then count_decades budget' (x * 10) - 1
      else 0
  end.

Fixpoint times (n : nat) (x : float) : float :=
  match n with
  | O => 1
  | S n' => x * times n' x
  end.

Definition int_pow (x y : float) : float :=
  let n := C.int_of_double y in
  if (n <? 0)%Z then 1 / times (Z.to_nat (- n)) x else times (Z.to_nat n) x.

Definition coarse_libm : Libm := {|
  log10 := count_decades 400;
  exp := int_pow 2.718281828459045;
  pow := int_pow
|}.

Definition macros : CoolingMacros := {|
  GAMMA_MINUS1 := 5.0 / 3 - 1;
  DMAX := fun a b => if a >? b then a else b
|}.

(** No file can be opened, every dataset is empty. *)
Definition no_files : CoolingFiles := {|
  treecool_rows := fun _ => None;
  h5readdouble := fun _ _ => [];
  Interp := unit;
  Interp_unset := tt;
  interp_init := fun _ _ => tt;
  interp_init_dim := fun _ _ _ _ => tt;
  interp_eval := fun _ _ _ => 0;
  interp_eval_periodic := fun _ _ _ => 0
|}.

(** A grid from 10 K to 10^9 K whose rate coefficients do not depend on
    the temperature. *)
Definition flat (v : float) : list float := repeat v (Z.to_nat (NCOOLTAB + 1)).

Definition flat_grid : temperature_grid :=
  mk_grid 1.0 ((9.0 - 1.0) / 2000)
    (mk_rate_tables (flat 1.0e-20) (flat 1.0e-20) (flat 1.0e-23)
                    (flat 4.0e-13) (flat 4.0e-13) (flat 1.0e-13) (flat 1.6e-12)
                    (flat 1.0e-12) (flat 1.0e-13) (flat 1.0e-14)).

Definition uv_on : UVBG := mk_UVBG 1.0e-21 1.0e-12 1.0e-12 1.0e-14 1.0e-24 1.0e-24 1.0e-25.

(** A UV background whose photoheating outweighs the cooling. *)
Definition uv_hot : UVBG := mk_UVBG 1.0e-21 1.0e-12 1.0e-12 1.0e-14 1.0e-10 1.0e-10 1.0e-10.


Definition no_guess : abundance := mk_abundance 0 0 0 0 0 0.

(** Globals with primordial cooling on the flat grid, without metal
    cooling, in units that are already cgs. *)
Definition flat_globals : @cooling_globals no_files :=
  @mk_globals no_files 1 0 flat_grid (mk_units 1 1 1) uv_on
    (mk_ionize [] [] [] [] [] [] [] 0)
    (@mk_MC no_files [] [] [] [] tt)
    (@mk_UVF no_files 1 tt tt [] 0 [] [] 0).

(** A TREECOOL file of three rows, at redshifts 0, 10^0.5 - 1 and 99. *)
Definition treecool_file : CoolingFiles := {|
  treecool_rows := fun fname =>
    if String.eqb fname "TREECOOL"
    then Some [[0; 1.0e-13; 1.0e-13; 1.0e-15; 1.0e-25; 1.0e-25; 1.0e-26];
               [0.5; 2.0e-13; 2.0e-13; 2.0e-15; 2.0e-25; 2.0e-25; 2.0e-26];
               [2; 4.0e-13; 4.0e-13; 4.0e-15; 4.0e-25; 4.0e-25; 4.0e-26]]
    else None;
  h5readdouble := fun _ _ => [];
  Interp := unit;
  Interp_unset := tt;
  interp_init := fun _ _ => tt;
  interp_init_dim := fun _ _ _ _ => tt;
  interp_eval := fun _ _ _ => 0;
  interp_eval_periodic := fun _ _ _ => 0
|}.

(** A TREECOOL file of two rows, at the redshifts 9 and 99. *)
Definition treecool_late : CoolingFiles := {|
  treecool_rows := fun fname =>
    if String.eqb fname "TREECOOL"
    then Some [[1; 1.0e-13; 1.0e-13; 1.0e-15; 1.0e-25; 1.0e-25; 1.0e-26];
               [2; 1.0e-15; 1.0e-15; 1.0e-17; 1.0e-27; 1.0e-27; 1.0e-28]]
    else None;
  h5readdouble := fun _ _ => [];
  Interp := unit;
  Interp_unset := tt;
  interp_init := fun _ _ => tt;
  interp_init_dim := fun _ _ _ _ => tt;
  interp_eval := fun _ _ _ => 0;
  interp_eval_periodic := fun _ _ _ => 0
|}.

(** The table [ReadIonizeParams] makes of that file. *)
Definition late_table : ionize_table :=
  Eval vm_compute in
    match @ReadIonizeParams treecool_late "TREECOOL"
            (mk_ionize (zeros TABLESIZE) (zeros TABLESIZE) (zeros TABLESIZE) (zeros TABLESIZE)
                       (zeros TABLESIZE) (zeros TABLESIZE) (zeros TABLESIZE) 0) with
    | Done t => t
    | _ => mk_ionize [] [] [] [] [] [] [] 0
    end.

(** The table [ReadIonizeParams] makes of the file of three rows. *)
Definition uv_table : ionize_table :=
  Eval vm_compute in
    match @ReadIonizeParams treecool_file "TREECOOL"
            (mk_ionize (zeros TABLESIZE) (zeros TABLESIZE) (zeros TABLESIZE) (zeros TABLESIZE)
                       (zeros TABLESIZE) (zeros TABLESIZE) (zeros TABLESIZE) 0) with
    | Done t => t
    | _ => mk_ionize [] [] [] [] [] [] [] 0
    end.

(** A tree module without periodic wrapping, drift or export, with the
    bit layout of forcetree.h: bits 2 to 4 hold the softening type, bit 5
    the mixed-softening flag, bit 7 the multiple-particles flag. *)
Definition plain_tree_module : GravTree.TreeModule := {|
  GravTree.MaxNodes := 100;
  GravTree.NODELISTLENGTH := 8;
  GravTree.BITFLAG_TOPLEVEL := 0;
  GravTree.BITFLAG_MULTIPLEPARTICLES := 7;
  GravTree.NEAREST := fun x => x;
  GravTree.extract_max_softening_type := fun flags => Z.land (Z.shiftr flags 2) 7;
  GravTree.maskout_different_softening_flag := fun flags => Z.land flags (Z.shiftl 1 5);
  GravTree.drift_particle := fun t _ _ => t;
  GravTree.force_drift_node := fun t _ _ => t;
  GravTree.export_buffers := unit;
  GravTree.treewalk_export_particle := fun lv _ => (lv, 0%Z)
|}.

(** Barnes-Hut opening with angle 0.5 and one softening for all types. *)
Definition bh_All : GravTree.All_t :=
  GravTree.mk_All 100 0.5 0.005 [0.01; 0.01; 0.01; 0.01; 0.01; 0.01] 100 1.25 0.

(** A tree whose internal nodes all are the cell of side 2 and mass 8
    centred at (4, 0, 0), with several particles and no sibling. *)
Definition far_cell : GravTree.NODE :=
  GravTree.mk_NODE 2 (4, 0, 0) (4, 0, 0) 8 128 (-1) 0.

Definition one_cell_tree : GravTree.tree :=
  GravTree.mk_tree (fun _ => GravTree.mk_particle (4, 0, 0) 1 1) (fun _ => far_cell) (fun _ => (-1)%Z).

(** A dark-matter target at the origin. *)
Definition origin_query : GravTree.TreeWalkQueryGravity :=
  GravTree.mk_query (0, 0, 0) [100%Z] 1 0.

(** The timebins of allvars.h, and two ranks: one with particles in the
    bins 0, 2 and 3, one with particles in the bins 1 and 4. *)
Definition timebins29 : Run.Timebins := {| Run.TIMEBINS := 29; Run.TIMEBASE := Z.shiftl 1 29 |}.

Definition rank_a : Run.rank :=
  Run.mk_rank ([5; 0; 7; 11] ++ repeat 0 25)%Z (repeat 0%Z 29).

Definition rank_b : Run.rank :=
  Run.mk_rank ([0; 3; 0; 0; 2] ++ repeat 0 24)%Z (repeat 1%Z 29).

(** A TREECOOL file of five rows followed by a row of zero rates. *)
Definition five_rows : list (list float) :=
  [[0; 1.0e-13; 1.0e-13; 1.0e-15; 1.0e-25; 1.0e-25; 1.0e-26];
   [0.25; 1.5e-13; 1.5e-13; 1.5e-15; 1.5e-25; 1.5e-25; 1.5e-26];
   [0.5; 2.0e-13; 2.0e-13; 2.0e-15; 2.0e-25; 2.0e-25; 2.0e-26];
   [1; 3.0e-13; 3.0e-13; 3.0e-15; 3.0e-25; 3.0e-25; 3.0e-26];
   [2; 4.0e-13; 4.0e-13; 4.0e-15; 4.0e-25; 4.0e-25; 4.0e-26]].

Definition treecool_trailing_zero : CoolingFiles := {|
  treecool_rows := fun fname =>
    if String.eqb fname "TREECOOL"
    then Some (five_rows ++ [[3; 0; 0; 0; 0; 0; 0]])%list
    else None;
  h5readdouble := fun _ _ => [];
  Interp := unit;
  Interp_unset := tt;
  interp_init := fun _ _ => tt;
  interp_init_dim := fun _ _ _ _ => tt;
  interp_eval := fun _ _ _ => 0;
  interp_eval_periodic := fun _ _ _ => 0
|}.

(** A TREECOOL file whose second and last line ends after three numbers. *)
Definition treecool_short_record : CoolingFiles := {|
  treecool_rows := fun fname =>
    if String.eqb fname "TREECOOL"
    then Some [[0; 1.0e-13; 1.0e-13; 1.0e-15; 1.0e-25; 1.0e-25; 1.0e-26];
               [1; 0.5; 1]]
    else None;
  h5readdouble := fun _ _ => [];
  Interp := unit;
  Interp_unset := tt;
  interp_init := fun _ _ => tt;
  interp_init_dim := fun _ _ _ _ => tt;
  interp_eval := fun _ _ _ => 0;
  interp_eval_periodic := fun _ _ _ => 0
|}.

(** The arrays before a table is read, and arrays that hold the rows of
    a former table. *)
Definition empty_table : ionize_table :=
  mk_ionize (zeros TABLESIZE) (zeros TABLESIZE) (zeros TABLESIZE) (zeros TABLESIZE)
            (zeros TABLESIZE) (zeros TABLESIZE) (zeros TABLESIZE) 0.

Definition former_table : ionize_table :=
  let junk := repeat 100.0 (Z.to_nat TABLESIZE) in
  mk_ionize junk junk junk junk junk junk junk TABLESIZE.

(** A coarse natural logarithm: [ln 10] times the decades of its argument. *)
Definition coarse_log : Run.LibmLog := {|
  Run.log := fun x => 2.302585092994046 * count_decades 400 x
|}.

(** Output times between a = 0.01 and a = 1 on a time line of unit
    step; the last one lies behind the end of the run. *)
Definition output_list : Run.output_times :=
  Run.mk_output_times [0.1; 0.5; 1.0; 2.0] 0.01 1.0 1.0.

(** A snapshot is pending at the time 2, the file 7 is the next one. *)
Definition pending : Run.snapshots := Run.mk_snapshots 2 7 [].



(** A rank with the particles 2 and 3 in bin 0 and the particles 0 and 1
    in bin 2, and its linked lists. *)
Definition rank_c : Run.rank :=
  Run.mk_rank ([2; 0; 2] ++ repeat 0 26)%Z (repeat 0%Z 29).

Definition lists_c : Run.bin_lists :=
  Run.mk_lists ([2; -1; 0] ++ repeat (-1) 26)%Z [1; -1; 3; -1]%Z (-1)%Z [9; 9; 9; 9]%Z.

(** The particles met when the list is followed from [i], and whether
    its end is reached within the budget without leaving the array. *)
Fixpoint follow (budget : nat) (next : list Z) (i : Z) : list Z :=
  match budget with
  | O => []
  | S budget' => if (i <? 0)%Z then [] else i :: follow budget' next (C.rdi next i)
  end.

Fixpoint follow_ends (budget : nat) (next : list Z) (i : Z) : bool :=
  match budget with
  | O => false
  | S budget' =>
      (i <? 0)%Z
      || ((i <? Z.of_nat (List.length next))%Z && follow_ends budget' next (C.rdi next i))
  end.

Definition members_c (n : Z) : list Z :=
  follow 8 (Run.NextInTimeBin lists_c) (C.rdi (Run.FirstInTimeBin lists_c) n).

(** A tree module whose export buffers list the nodes exported, with
    room for two of them. *)
Definition exporting_tree_module : GravTree.TreeModule := {|
  GravTree.MaxNodes := 100;
  GravTree.NODELISTLENGTH := 8;
  GravTree.BITFLAG_TOPLEVEL := 0;
  GravTree.BITFLAG_MULTIPLEPARTICLES := 7;
  GravTree.NEAREST := fun x => x;
  GravTree.extract_max_softening_type := fun flags => Z.land (Z.shiftr flags 2) 7;
  GravTree.maskout_different_softening_flag := fun flags => Z.land flags (Z.shiftl 1 5);
  GravTree.drift_particle := fun t _ _ => t;
  GravTree.force_drift_node := fun t _ _ => t;
  GravTree.export_buffers := list Z;
  GravTree.treewalk_export_particle :=
    fun lv no => if (Z.of_nat (List.length lv) <? 2)%Z then (no :: lv, 0%Z) else (lv, (-1)%Z)
|}.

(** A tree of one cell: the node 100 holds the particle 0 at (4, 0, 0),
    behind which lies the pseudo particle 200. *)
Definition small_tree : GravTree.tree :=
  GravTree.mk_tree (fun _ => GravTree.mk_particle (4, 0, 0) 1 1)
                   (fun _ => far_cell)
                   (fun i => if (i =? 0)%Z then 200%Z else (-1)%Z).

(** A target at the origin with a node list of one node. *)
Definition listed_query : GravTree.TreeWalkQueryGravity :=
  GravTree.mk_query (0, 0, 0) ([100] ++ repeat (-1) 7)%Z 1 0.

(** A short-range table without suppression. *)
Definition no_suppression : list float := repeat 1.0 (Z.to_nat GravTree.NTAB).

(** The relative opening criterion, and a cell of side 2 around the origin. *)
Definition rel_All : GravTree.All_t :=
  GravTree.mk_All 100 0 0.005 [0.01; 0.01; 0.01; 0.01; 0.01; 0.01] 100 1.25 0.

Definition near_cell : GravTree.NODE :=
  GravTree.mk_NODE 2 (0, 0, 0) (0.5, 0, 0) 8 128 (-1) 0.

Definition near_cell_tree : GravTree.tree :=
  GravTree.mk_tree (fun _ => GravTree.mk_particle (0.5, 0, 0) 1 1)
                   (fun _ => near_cell) (fun _ => (-1)%Z).

(** A target at the origin whose acceleration in the last step was large. *)
Definition accelerated_query : GravTree.TreeWalkQueryGravity :=
  GravTree.mk_query (0, 0, 0) [100%Z] 1 1.0e6.

End Samples.

(** * Theorems *)

Import Cooling.
Local Open Scope float_scope.

(** ** The order of the doubles *)

Section FloatOrder.

Lemma SFcompare_antisym (x y : spec_float) :
  SFcompare y x = option_map CompOpp (SFcompare x y).
Proof.
  destruct x as [sx|sx| |sx mx ex], y as [sy|sy| |sy my ey]; simpl;
    try (destruct sx); try (destruct sy); try reflexivity;
    rewrite (Z.compare_antisym ex ey); destruct (ex ?= ey)%Z; simpl; try reflexivity;
    rewrite !Pos.compare_cont_spec; simpl;
    rewrite (Pos.compare_antisym mx my); destruct (mx ?= my)%positive; reflexivity.
Qed.

Lemma ltb_leb_false (a b : float) : (a <? b) = true -> (b <=? a) = false.
Proof.
  rewrite ltb_spec, leb_spec. unfold SFltb, SFleb.
  rewrite (SFcompare_antisym (Prim2SF a) (Prim2SF b)).
  destruct (SFcompare (Prim2SF a) (Prim2SF b)) as [[ | | ]|]; simpl; congruence.
Qed.

Lemma SFcompare_key (x y : spec_float) (c : comparison) :
  SFcompare x y = Some c -> C.key_compare (C.SFkey x) (C.SFkey y) = c.
Proof.
  destruct x as [sx|sx| |sx mx ex], y as [sy|sy| |sy my ey]; simpl;
    try (destruct sx); try (destruct sy); simpl; try congruence;
    intros H; injection H as <-.
  - rewrite Z.compare_opp, (Z.compare_antisym ex ey).
    destruct (ex ?= ey)%Z; reflexivity.
  - destruct (ex ?= ey)%Z; reflexivity.
Qed.

Lemma key_compare_trans_false (k1 k2 k3 : Z * Z * Z) :
  C.key_compare k1 k2 <> Gt -> C.key_compare k2 k3 = Lt -> C.key_compare k3 k1 = Gt.
Proof.
  destruct k1 as [[a1 b1] c1], k2 as [[a2 b2] c2], k3 as [[a3 b3] c3]. unfold C.key_compare.
  destruct (Z.compare_spec a1 a2), (Z.compare_spec b1 b2), (Z.compare_spec c1 c2);
    try congruence; intros _;
    destruct (Z.compare_spec a2 a3), (Z.compare_spec b2 b3), (Z.compare_spec c2 c3);
    try congruence; intros _;
    destruct (Z.compare_spec a3 a1), (Z.compare_spec b3 b1), (Z.compare_spec c3 c1);
    try reflexivity; lia.
Qed.

(** [a <= b < c] excludes [c <= a]. *)
Lemma leb_ltb_leb_false (a b c : float) :
  (a <=? b) = true -> (b <? c) = true -> (c <=? a) = false.
Proof.
  rewrite !leb_spec, ltb_spec. unfold SFleb, SFltb.
  destruct (SFcompare (Prim2SF a) (Prim2SF b)) as [c1|] eqn:E1; [|congruence].
  destruct (SFcompare (Prim2SF b) (Prim2SF c)) as [c2|] eqn:E2; [|destruct c1; congruence].
  destruct (SFcompare (Prim2SF c) (Prim2SF a)) as [c3|] eqn:E3; [|destruct c1; congruence].
  intros H1 H2.
  apply SFcompare_key in E1. apply SFcompare_key in E2. apply SFcompare_key in E3.
  assert (K : C.key_compare (C.SFkey (Prim2SF c)) (C.SFkey (Prim2SF a)) = Gt).
  { apply (key_compare_trans_false _ (C.SFkey (Prim2SF b))).
    - rewrite E1. destruct c1; congruence.
    - rewrite E2. destruct c2; congruence. }
  rewrite E3 in K. rewrite K. reflexivity.
Qed.

End FloatOrder.

(** ** The ionization equilibrium solver *)

Section SolverFacts.

Variable g : temperature_grid.
Variables logT nHcgs : float.
Variable uvbg : UVBG.

(** Strictly inside the table neither of the two closed forms is taken. *)
Lemma inside_table_tests :
  Spec.inside_table g logT -> (logT <=? Tmin g) = false /\ (logT >=? Tmax) = false.
Proof.
  intros [Hlo Hhi]. split.
  - apply ltb_leb_false, Hlo.
  - apply ltb_leb_false, Hhi.
Qed.

(** A pass counts itself in [niter]. *)
Lemma far_pass_niter (j : Z) (flow fhi : float) (st : far_locals) :
  far_niter (fst (far_pass g nHcgs uvbg j flow fhi st)) = (far_niter st + 1)%Z.
Proof.
  unfold far_pass.
  repeat match goal with
         | |- context [if ?b then _ else _] => destruct b
         end; reflexivity.
Qed.

(** The loop returns as soon as the budget covers the passes that are left
    before [niter] reaches [MAXITER]. *)
Lemma far_loop_budget (j : Z) (flow fhi : float) (budget : nat) :
  forall st : far_locals,
    (MAXITER - far_niter st <= Z.of_nat budget)%Z -> (0 < Z.of_nat budget)%Z ->
    far_loop g nHcgs uvbg j flow fhi budget st <> None.
Proof.
  induction budget as [|budget IH]; intros st Hle Hpos; [lia|].
  cbn [far_loop].
  pose proof (far_pass_niter j flow fhi st) as Hn.
  destruct (far_pass g nHcgs uvbg j flow fhi st) as [st' brk]. cbn [fst] in Hn.
  destruct brk; [discriminate|].
  destruct (Z.ltb_spec (far_niter st') MAXITER); [|discriminate].
  apply IH; lia.
Qed.

(** The solver never runs out of passes: it returns or stops the run. *)
Lemma find_abundances_and_rates_terminates (y : abundance) (r : rates) :
  find_abundances_and_rates g logT nHcgs uvbg y r <> Diverge.
Proof.
  unfold find_abundances_and_rates.
  destruct (logT <=? Tmin g); [discriminate|].
  destruct (logT >=? Tmax); [discriminate|].
  destruct (locate g logT) as [[j flow] fhi].
  pose proof (far_loop_budget j flow fhi (Z.to_nat MAXITER) (far_entry nHcgs y r)) as H.
  destruct (far_loop g nHcgs uvbg j flow fhi (Z.to_nat MAXITER) (far_entry nHcgs y r)).
  - destruct (far_niter f >=? MAXITER)%Z; discriminate.
  - exfalso. apply H; [|reflexivity| reflexivity].
    change (far_niter (far_entry nHcgs y r)) with 0%Z.
    rewrite Z2Nat.id; unfold MAXITER; lia.
Qed.

End SolverFacts.

(** C1: for every temperature at or below the tabulated minimum
    ([logT <= Tmin]) [find_abundances_and_rates] returns the exactly neutral
    state, and for every temperature at or above the tabulated maximum
    ([logT >= Tmax], the minimum lying below the maximum) the exactly fully
    ionized state with [ne = nHp + 2 nHepp]; both in closed form: the result
    is the same for every density, UV background and incoming [*y], and the
    rates [*r] are not touched. *)
Theorem find_abundances_outside_table (g : temperature_grid) (logT nHcgs : float)
    (uvbg : UVBG) (y : abundance) (r : rates) :
  ((logT <=? Tmin g) = true ->
   exists y', find_abundances_and_rates g logT nHcgs uvbg y r = Done (y', r)
              /\ Spec.neutral y')
  /\ ((Tmin g <? Tmax) = true -> (logT >=? Tmax) = true ->
      exists y', find_abundances_and_rates g logT nHcgs uvbg y r = Done (y', r)
                 /\ Spec.fully_ionized y').
Proof.
  unfold find_abundances_and_rates. split.
  - intros H. rewrite H. eexists. split; [reflexivity|].
    repeat split.
  - intros Hgrid H.
    assert (Hlo : (logT <=? Tmin g) = false).
    { destruct (logT <=? Tmin g) eqn:E; [|reflexivity].
      pose proof (leb_ltb_leb_false _ _ _ E Hgrid) as K.
      unfold C.geb in H. congruence. }
    rewrite Hlo, H. eexists. split; [reflexivity|].
    repeat split.
Qed.

(** The two closed forms on the flat grid, at 10^0.5 K and at 10^9.5 K. *)
Lemma find_abundances_outside_table_witness :
  (exists y', find_abundances_and_rates Samples.flat_grid 0.5 1.0e-3 Samples.uv_on
                Samples.no_guess rates_indeterminate = Done (y', rates_indeterminate)
              /\ Spec.neutral y')
  /\ (exists y', find_abundances_and_rates Samples.flat_grid 9.5 1.0e-3 Samples.uv_on
                   Samples.no_guess rates_indeterminate = Done (y', rates_indeterminate)
                 /\ Spec.fully_ionized y').
Proof.
  split.
  - apply (find_abundances_outside_table Samples.flat_grid 0.5). reflexivity.
  - apply (find_abundances_outside_table Samples.flat_grid 9.5); reflexivity.
Defined.

(** ** The conservation of hydrogen and helium *)

Section Conservation.

Variable g : temperature_grid.
Variable nHcgs : float.
Variable uvbg : UVBG.
Variable j : Z.
Variables flow fhi : float.



End Conservation.




(** C7: when the UV background is absent ([uvbg->J_UV == 0]) and the
    temperature lies strictly inside the tabulated range, the loop of
    [find_abundances_and_rates] is left by the [break] of its first pass:
    [niter] is 1 on exit, the electron fraction is the sum (38) of that pass
    (it is not averaged with the guess and no convergence test is made), and
    the call returns what that single pass computed. *)
Theorem no_uv_background_single_pass (g : temperature_grid) (logT nHcgs : float)
    (uvbg : UVBG) (y : abundance) (r : rates) (j : Z) (flow fhi : float) :
  Spec.inside_table g logT ->
  (J_UV uvbg =? 0) = true ->
  locate g logT = (j, flow, fhi) ->
  exists st : far_locals,
    far_pass g nHcgs uvbg j flow fhi (far_entry nHcgs y r) = (st, true)
    /\ far_loop g nHcgs uvbg j flow fhi (Z.to_nat MAXITER) (far_entry nHcgs y r) = Some st
    /\ far_niter st = 1%Z
    /\ ne (far_y st) = nHp (far_y st) + nHep (far_y st) + 2 * nHepp (far_y st)
    /\ find_abundances_and_rates g logT nHcgs uvbg y r = Done (far_finish g j flow fhi st).
Proof.
  intros Hin HJ Hloc.
  destruct (inside_table_tests g logT Hin) as [Hlo Hhi].
  assert (Hpass : exists st, far_pass g nHcgs uvbg j flow fhi (far_entry nHcgs y r) = (st, true)
                             /\ far_niter st = 1%Z
                             /\ ne (far_y st)
                                = nHp (far_y st) + nHep (far_y st) + 2 * nHepp (far_y st)).
  { unfold far_pass. rewrite HJ, orb_true_r. cbv zeta.
    match goal with
    | |- context [if ?b then (0.0, 0.0, YHELIUM) else _] => destruct b
    end; eexists; (split; [reflexivity|]); split; reflexivity. }
  destruct Hpass as (st & Hpass & Hniter & Hne).
  exists st. split; [exact Hpass|].
  assert (Hloop : far_loop g nHcgs uvbg j flow fhi (Z.to_nat MAXITER) (far_entry nHcgs y r)
                  = Some st).
  { change (Z.to_nat MAXITER) with (S 399). cbn [far_loop]. rewrite Hpass. reflexivity. }
  repeat split; try assumption.
  unfold find_abundances_and_rates. rewrite Hlo, Hhi, Hloc, Hloop, Hniter. reflexivity.
Qed.

(** The flat grid at 10^5 K, the node 1000 of the grid, without UV
    background. *)
Lemma no_uv_background_single_pass_witness :
  exists st : far_locals,
    far_pass Samples.flat_grid 1.0e-3 UVBG_zero 1000 1 0
             (far_entry 1.0e-3 Samples.no_guess rates_indeterminate) = (st, true)
    /\ far_loop Samples.flat_grid 1.0e-3 UVBG_zero 1000 1 0 (Z.to_nat MAXITER)
                (far_entry 1.0e-3 Samples.no_guess rates_indeterminate) = Some st
    /\ far_niter st = 1%Z
    /\ ne (far_y st) = nHp (far_y st) + nHep (far_y st) + 2 * nHepp (far_y st)
    /\ find_abundances_and_rates Samples.flat_grid 5.0 1.0e-3 UVBG_zero
         Samples.no_guess rates_indeterminate
       = Done (far_finish Samples.flat_grid 1000 1 0 st).
Proof.
  apply (no_uv_background_single_pass Samples.flat_grid 5.0 1.0e-3 UVBG_zero).
  - split; reflexivity.
  - reflexivity.
  - vm_compute. reflexivity.
Defined.

(** C10: strictly inside the tabulated range, an electron-fraction guess of
    zero gives the same abundances and rates as a guess of one: it is
    replaced by [1.0] before the iteration starts, so the loop is entered in
    the same state. *)
Theorem zero_guess_is_one (g : temperature_grid) (logT nHcgs : float)
    (uvbg : UVBG) (y : abundance) (r : rates) :
  Spec.inside_table g logT ->
  (ne y =? 0) = true ->
  far_entry nHcgs y r = far_entry nHcgs (with_ne y 1) r
  /\ ne (far_y (far_entry nHcgs y r)) = 1
  /\ find_abundances_and_rates g logT nHcgs uvbg y r
     = find_abundances_and_rates g logT nHcgs uvbg (with_ne y 1) r.
Proof.
  intros _ H0.
  assert (Hentry : far_entry nHcgs y r = far_entry nHcgs (with_ne y 1) r).
  { unfold far_entry. rewrite H0. reflexivity. }
  split; [exact Hentry|]. split.
  - rewrite Hentry. reflexivity.
  - unfold find_abundances_and_rates. rewrite Hentry. reflexivity.
Qed.

(** The flat grid at 10^5 K under the sample UV background. *)
Lemma zero_guess_is_one_witness :
  far_entry 1.0e-3 Samples.no_guess rates_indeterminate
  = far_entry 1.0e-3 (with_ne Samples.no_guess 1) rates_indeterminate
  /\ ne (far_y (far_entry 1.0e-3 Samples.no_guess rates_indeterminate)) = 1
  /\ find_abundances_and_rates Samples.flat_grid 5.0 1.0e-3 Samples.uv_on
       Samples.no_guess rates_indeterminate
     = find_abundances_and_rates Samples.flat_grid 5.0 1.0e-3 Samples.uv_on
         (with_ne Samples.no_guess 1) rates_indeterminate.
Proof.
  apply (zero_guess_is_one Samples.flat_grid 5.0 1.0e-3 Samples.uv_on).
  - split; reflexivity.
  - reflexivity.
Defined.

(** ** The loops of the equilibrium temperature and of the cooling rate *)

Section EquilibriumFacts.

Context {M : CoolingMacros} {F : CoolingFiles} {L : Libm}.

Variable g : temperature_grid.
Variables u nHcgs : float.
Variable uvbg : UVBG.

(** A pass of [solve_equilibrium_temp] counts itself in [iter], asks for
    another pass only below [MAXITER], and never runs out of budget. *)
Lemma set_pass_iter (st st' : set_locals) (again : bool) :
  set_pass g u nHcgs uvbg st = Done (st', again) ->
  set_iter st' = (set_iter st + 1)%Z /\ (again = true -> (set_iter st' < MAXITER)%Z).
Proof.
  unfold set_pass.
  destruct (find_abundances_and_rates g (log10 (set_temp st)) nHcgs uvbg (set_y st) (set_r st))
    as [[y r]| |]; cbn [bind]; try discriminate.
  intros H. inversion H; subst. cbn [set_iter]. split; [reflexivity|].
  intros Hagain. apply andb_prop in Hagain. destruct Hagain as [_ Hlt].
  apply Z.ltb_lt in Hlt. exact Hlt.
Qed.

Lemma set_pass_terminates (st : set_locals) : set_pass g u nHcgs uvbg st <> Diverge.
Proof.
  unfold set_pass.
  pose proof (find_abundances_and_rates_terminates g (log10 (set_temp st)) nHcgs uvbg
                (set_y st) (set_r st)) as H.
  destruct (find_abundances_and_rates g (log10 (set_temp st)) nHcgs uvbg (set_y st) (set_r st))
    as [[y r]| |]; cbn [bind]; congruence.
Qed.

Lemma set_loop_budget (budget : nat) :
  forall st : set_locals,
    (MAXITER - set_iter st <= Z.of_nat budget)%Z -> (0 < Z.of_nat budget)%Z ->
    set_loop g u nHcgs uvbg budget st <> Diverge.
Proof.
  induction budget as [|budget IH]; intros st Hle Hpos; [lia|].
  cbn [set_loop].
  pose proof (set_pass_terminates st) as Hterm.
  pose proof (set_pass_iter st) as Hiter.
  destruct (set_pass g u nHcgs uvbg st) as [[st' again]| |];
    cbn [bind]; try congruence.
  destruct (Hiter st' again eq_refl) as [Hnext Hbelow].
  destruct again; [|discriminate].
  specialize (Hbelow eq_refl). apply IH; lia.
Qed.

Lemma solve_equilibrium_temp_terminates (y : abundance) :
  solve_equilibrium_temp g u nHcgs uvbg y <> Diverge.
Proof.
  unfold solve_equilibrium_temp.
  match goal with
  | |- context [set_loop g u nHcgs uvbg ?b ?st] =>
      pose proof (set_loop_budget b st) as H; destruct (set_loop g u nHcgs uvbg b st) as [s| |]
  end; cbn [bind].
  - destruct (set_iter s >=? MAXITER)%Z; discriminate.
  - discriminate.
  - exfalso. apply H; [|reflexivity|reflexivity]. cbn [set_iter].
    rewrite Z2Nat.id; unfold MAXITER; lia.
Qed.

Lemma PrimordialCoolingRate_terminates (logT nelec redshift : float) :
  PrimordialCoolingRate g logT nHcgs uvbg nelec redshift <> Diverge.
Proof.
  unfold PrimordialCoolingRate.
  match goal with |- context [if ?b then _ else _] => destruct b end; [|discriminate].
  match goal with
  | |- context [find_abundances_and_rates g ?t nHcgs uvbg ?y ?r] =>
      pose proof (find_abundances_and_rates_terminates g t nHcgs uvbg y r) as H;
      destruct (find_abundances_and_rates g t nHcgs uvbg y r) as [[y' r']| |]
  end; cbn [bind]; congruence.
Qed.

End EquilibriumFacts.

Section RateFacts.

Context {M : CoolingMacros} {F : CoolingFiles} {L : Libm}.

(** [CoolingRateFromU] and [GetCoolingTime] return or stop the run: their
    loops are bounded by [MAXITER]. *)
Lemma CoolingRateFromU_terminates (G : cooling_globals) (u nHcgs : float) (uvbg : UVBG)
    (ne_guess Zmet Time : float) :
  CoolingRateFromU G u nHcgs uvbg ne_guess Zmet Time <> Diverge.
Proof.
  unfold CoolingRateFromU. destruct (CoolingNoPrimordial G =? 0)%Z; [|discriminate].
  pose proof (solve_equilibrium_temp_terminates (grid G) u nHcgs uvbg
                (abundance_with_guess ne_guess)) as Hsolve.
  destruct (solve_equilibrium_temp (grid G) u nHcgs uvbg (abundance_with_guess ne_guess))
    as [[temp y]| |]; cbn [bind]; try congruence.
  match goal with
  | |- context [PrimordialCoolingRate ?g ?t ?n ?uv ?e ?z] =>
      pose proof (PrimordialCoolingRate_terminates g n uv t e z) as Hrate;
      destruct (PrimordialCoolingRate g t n uv e z) as [[Lambda e']| |]
  end; cbn [bind]; congruence.
Qed.

Lemma GetCoolingTime_terminates (G : cooling_globals) (u_old rho : float) (uvbg : UVBG)
    (ne_guess Zmet Time : float) :
  GetCoolingTime G u_old rho uvbg ne_guess Zmet Time <> Diverge.
Proof.
  unfold GetCoolingTime. destruct (CoolingNoPrimordial G =? 0)%Z; [|discriminate].
  match goal with
  | |- context [CoolingRateFromU G ?u ?n uvbg ne_guess Zmet Time] =>
      pose proof (CoolingRateFromU_terminates G u n uvbg ne_guess Zmet Time) as Hrate;
      destruct (CoolingRateFromU G u n uvbg ne_guess Zmet Time) as [[Lambda e']| |]
  end; cbn [bind]; try congruence.
  destruct (Lambda >=? 0); discriminate.
Qed.

End RateFacts.

(** ** NaN *)

Section NaN.

(** A double that is neither [>= 0] nor [< 0] is NaN. *)
Lemma not_le_not_lt_nan (x : float) :
  (0 <=? x) = false -> (x <? 0) = false -> x = nan.
Proof.
  rewrite leb_spec, ltb_spec. intros H1 H2.
  apply Prim2SF_inj. change (Prim2SF 0) with (S754_zero false) in *.
  change (Prim2SF nan) with S754_nan.
  destruct (Prim2SF x) as [s|s| |s m e]; try reflexivity; try destruct s; discriminate.
Qed.

Lemma mul_nan_r (x : float) : x * nan = nan.
Proof.
  apply Prim2SF_inj. rewrite mul_spec. change (Prim2SF nan) with S754_nan.
  destruct (Prim2SF x) as [s|s| |s m e]; reflexivity.
Qed.

Lemma div_nan_r (x : float) : x / nan = nan.
Proof.
  apply Prim2SF_inj. rewrite div_spec. change (Prim2SF nan) with S754_nan.
  destruct (Prim2SF x) as [s|s| |s m e]; reflexivity.
Qed.

Lemma div_nan_l (x : float) : nan / x = nan.
Proof.
  apply Prim2SF_inj. rewrite div_spec. change (Prim2SF nan) with S754_nan.
  destruct (Prim2SF x) as [s|s| |s m e]; reflexivity.
Qed.

End NaN.

(** ** The cooling time *)

Section CoolingTime.

Context {M : CoolingMacros} {F : CoolingFiles} {L : Libm}.

(** C4: whenever the net rate [CoolingRateFromU] finds at [u_old] is
    non-negative (net heating, or exactly zero), [GetCoolingTime] returns
    exactly 0; and a cooling time it returns is positive only when that
    net rate is strictly negative. *)
Theorem GetCoolingTime_zero_unless_cooling (G : cooling_globals) (u_old rho : float)
    (uvbg : UVBG) (ne_guess Zmet Time : float) (LambdaNet ne' : float) :
  let rho_cgs := rho * density (units_to_cgs G) in
  let u := u_old * uu (units_to_cgs G) in
  let nHcgs := HYDROGEN_MASSFRAC * rho_cgs / PROTONMASS in
  CoolingRateFromU G u nHcgs uvbg ne_guess Zmet Time = Done (LambdaNet, ne') ->
  ((LambdaNet >=? 0) = true ->
   GetCoolingTime G u_old rho uvbg ne_guess Zmet Time = Done (0, ne'))
  /\ (forall t ne'' : float,
        GetCoolingTime G u_old rho uvbg ne_guess Zmet Time = Done (t, ne'') ->
        (t >? 0) = true -> (LambdaNet <? 0) = true).
Proof.
  intros rho_cgs u nHcgs Hrate. unfold GetCoolingTime.
  fold rho_cgs. fold u. fold nHcgs.
  destruct (CoolingNoPrimordial G =? 0)%Z eqn:Hoff.
  - rewrite Hrate. cbn [bind]. split.
    + intros Hge. rewrite Hge. reflexivity.
    + intros t ne'' Hret Hpos.
      destruct (LambdaNet >=? 0) eqn:Hge.
      * injection Hret as <- _. discriminate Hpos.
      * destruct (LambdaNet <? 0) eqn:Hlt; [reflexivity|].
        rewrite (not_le_not_lt_nan LambdaNet Hge Hlt) in Hret.
        rewrite mul_nan_r, div_nan_r, div_nan_l in Hret.
        injection Hret as <- _. discriminate Hpos.
  - unfold CoolingRateFromU in Hrate. rewrite Hoff in Hrate.
    injection Hrate as <- <-. split.
    + reflexivity.
    + intros t ne'' Hret Hpos. injection Hret as <- _. discriminate Hpos.
Qed.

End CoolingTime.

(** Gas of the flat grid under a UV background that heats more than the
    gas cools: the net rate is positive and the cooling time is 0. *)
Lemma GetCoolingTime_zero_unless_cooling_witness :
  exists LambdaNet ne' : float,
    @CoolingRateFromU Samples.macros Samples.no_files Samples.coarse_libm
       Samples.flat_globals (1.0e12 * 1) (HYDROGEN_MASSFRAC * (1.0e-27 * 1) / PROTONMASS)
       Samples.uv_hot 1 0 1 = Done (LambdaNet, ne')
    /\ (LambdaNet >=? 0) = true
    /\ @GetCoolingTime Samples.macros Samples.no_files Samples.coarse_libm
         Samples.flat_globals 1.0e12 1.0e-27 Samples.uv_hot 1 0 1 = Done (0, ne').
Proof.
  eexists. eexists. split; [vm_compute; reflexivity|]. split; [reflexivity|].
  refine (proj1 (GetCoolingTime_zero_unless_cooling
                   (M := Samples.macros) (F := Samples.no_files) (L := Samples.coarse_libm)
                   Samples.flat_globals 1.0e12 1.0e-27 Samples.uv_hot 1 0 1 _ _ _) _);
    [vm_compute; reflexivity | reflexivity].
Defined.

(** ** The table of the UV background *)

Section UVTable.

Context {L : Libm}.

(** What the scan for [ilow] leaves: either no entry was accepted, or the
    last accepted row lies below [logz] and the row after it, if the scan
    reached it, does not. *)
Lemma find_ilow_scan (inlogz : list float) (logz : float) (n : nat) :
  forall i ilow : Z,
    let res := find_ilow inlogz logz n i ilow in
    (res = ilow /\ (n = O \/ (inlogz.[i] <? logz) = false))
    \/ ((i <= res < i + Z.of_nat n)%Z
        /\ (inlogz.[res] <? logz) = true
        /\ ((res + 1 < i + Z.of_nat n)%Z -> (inlogz.[res + 1] <? logz) = false)).
Proof.
  induction n as [|n IH]; intros i ilow; cbn [find_ilow].
  - left. split; [reflexivity | left; reflexivity].
  - destruct (inlogz.[i] <? logz) eqn:Hi.
    + right. destruct (IH (i + 1)%Z i) as [[Hres Hstop] | (Hrange & Hbelow & Hnext)].
      * rewrite Hres. split; [lia|]. split; [exact Hi|].
        intros Hlt. destruct Hstop as [-> | Hstop]; [lia | exact Hstop].
      * split; [lia|]. split; [exact Hbelow|].
        intros Hlt. apply Hnext. lia.
    + left. split; [reflexivity | right; reflexivity].
Qed.


(** C6, as the code has it: [IonizeParamsTable] sets the global UV
    background to all zeros when [logz] lies above the highest tabulated
    [inlogz], when one of the two rows it would use has a zero [gH0], or
    when the table is empty; otherwise it sets [J_UV] to a nonzero value
    and computes each of the six rates by the interpolation in the
    logarithm through the rows [ilow] and [ilow + 1] at which the scan of
    the table stops.  These rows bracket [logz] (row [ilow] lies below
    it, row [ilow + 1] does not) when the first row lies below [logz];
    when it does not, [ilow] is 0 and the formula is taken through the
    rows 0 and 1. *)
Theorem IonizeParamsTable_cases (t : ionize_table) (Time : float) :
  let logz := log10 (1 / Time - 1 + 1.0) in
  let ilow := find_ilow (inlogz t) logz (Z.to_nat (nheattab t)) 0 0 in
  let u := IonizeParamsTable t Time in
  ((logz >? (inlogz t).[nheattab t - 1]) = true
   \/ ((gH0 t).[ilow] =? 0) = true
   \/ ((gH0 t).[ilow + 1] =? 0) = true
   \/ nheattab t = 0%Z ->
   u = UVBG_zero /\ Spec.all_zero u)
  /\ ((logz >? (inlogz t).[nheattab t - 1]) = false ->
      ((gH0 t).[ilow] =? 0) = false ->
      ((gH0 t).[ilow + 1] =? 0) = false ->
      nheattab t <> 0%Z ->
      (J_UV u <>? 0) = true
      /\ Spec.log_log_interpolated t ilow logz u
      /\ ((0 <= nheattab t)%Z -> ((inlogz t).[0] <? logz) = true ->
          Spec.brackets t ilow logz)
      /\ (((inlogz t).[0] <? logz) = false -> ilow = 0%Z)).
Proof.
  intros logz ilow u. subst u. unfold IonizeParamsTable.
  fold logz. fold ilow. split.
  - intros Hzero.
    assert (Hcond : (logz >? (inlogz t).[nheattab t - 1]) || ((gH0 t).[ilow] =? 0)
                    || ((gH0 t).[ilow + 1] =? 0) || (nheattab t =? 0)%Z = true).
    { destruct Hzero as [H | [H | [H | H]]].
      - rewrite H. reflexivity.
      - rewrite H, orb_true_r. reflexivity.
      - rewrite H, orb_true_r. reflexivity.
      - rewrite H. cbn [Z.eqb]. apply orb_true_r. }
    rewrite Hcond. split; [reflexivity | repeat split].
  - intros Habove Hlow Hnext Hlen.
    apply Z.eqb_neq in Hlen. rewrite Habove, Hlow, Hnext, Hlen. cbn [orb].
    split; [reflexivity|].
    split; [unfold Spec.log_log_interpolated, Spec.log_linear, log_interpolate;
            cbv zeta; cbn [gJH0 gJHe0 gJHep epsH0 epsHe0 epsHep];
            split; [reflexivity|]; split; [reflexivity|]; split; [reflexivity|];
            split; [reflexivity|]; split; reflexivity|].
    split.
    + intros Hcount Hfirst. apply Z.eqb_neq in Hlen.
      pose proof (find_ilow_scan (inlogz t) logz (Z.to_nat (nheattab t)) 0 0) as Hscan.
      cbv zeta in Hscan. fold ilow in Hscan.
      destruct Hscan as [[Hres Hstop] | (Hrange & Hbelow & Hafter)].
      * exfalso. destruct Hstop as [Hstop | Hstop].
        -- lia.
        -- congruence.
      * assert (Hn : (0 < nheattab t)%Z) by lia.
        rewrite Z2Nat.id in Hrange, Hafter by lia.
        assert (Hlast : ilow <> (nheattab t - 1)%Z).
        { intros E. rewrite E in Hbelow. unfold C.gtb in Habove. congruence. }
        split; [lia|]. split; [lia|]. split; [exact Hbelow | apply Hafter; lia].
    + intros Hfirst. subst ilow.
      destruct (Z.to_nat (nheattab t)) as [|n]; cbn [find_ilow]; [reflexivity|].
      rewrite Hfirst. reflexivity.
Qed.

End UVTable.

(** The table of three rows: at a = 0.001 the redshift lies before the
    table and the background is zero; at a = 0.1, where [logz = 1], the
    rates are interpolated between the rows 1 and 2, which bracket
    [logz]. *)
Lemma IonizeParamsTable_cases_witness :
  (@IonizeParamsTable Samples.coarse_libm Samples.uv_table 0.001 = UVBG_zero)
  /\ ((J_UV (@IonizeParamsTable Samples.coarse_libm Samples.uv_table 0.1) <>? 0) = true
      /\ @Spec.log_log_interpolated Samples.coarse_libm Samples.uv_table 1 1
           (@IonizeParamsTable Samples.coarse_libm Samples.uv_table 0.1)
      /\ Spec.brackets Samples.uv_table 1 1).
Proof.
  split.
  - apply (@IonizeParamsTable_cases Samples.coarse_libm Samples.uv_table 0.001).
    left. vm_compute. reflexivity.
  - destruct (@IonizeParamsTable_cases Samples.coarse_libm Samples.uv_table 0.1) as [_ H].
    destruct H as (HJ & Hrates & Hbracket & _);
      [vm_compute; reflexivity | vm_compute; reflexivity | vm_compute; reflexivity
       | vm_compute; discriminate |].
    split; [exact HJ|]. split; [exact Hrates|].
    apply Hbracket; [vm_compute; discriminate | vm_compute; reflexivity].
Defined.

(** The claim C6 is false as stated: for a table that starts at redshift
    9 ([logz = 1]) and a time after it (a = 1, [logz = 0]), none of the
    three cases of a zero background holds and [J_UV] is set, but no row
    of the table lies at or below [logz], so that no two rows bracket it:
    the rates are taken through the rows 0 and 1, outside of them, and
    [gJH0] is larger than in every row of the table. *)
Lemma IonizeParamsTable_extrapolates_below_table :
  let t := Samples.late_table in
  let logz := @log10 Samples.coarse_libm (1 / 1 - 1 + 1.0) in
  let u := @IonizeParamsTable Samples.coarse_libm t 1 in
  nheattab t = 2%Z
  /\ (logz >? (inlogz t).[nheattab t - 1]) = false
  /\ ((gH0 t).[0] =? 0) = false /\ ((gH0 t).[1] =? 0) = false
  /\ (J_UV u <>? 0) = true
  /\ (forall i : Z, (0 <= i < nheattab t)%Z -> ((inlogz t).[i] <=? logz) = false)
  /\ (forall i : Z, ~ Spec.brackets t i logz)
  /\ @Spec.log_log_interpolated Samples.coarse_libm t 0 logz u
  /\ (forall i : Z, (0 <= i < nheattab t)%Z -> ((gH0 t).[i] <? gJH0 u) = true).
Proof.
  cbv zeta.
  assert (Hrows : forall i : Z, (0 <= i < 2)%Z -> i = 0%Z \/ i = 1%Z) by (intros i Hi; lia).
  split; [reflexivity|]. split; [reflexivity|]. split; [reflexivity|].
  split; [reflexivity|]. split; [reflexivity|].
  split; [intros i Hi; destruct (Hrows i Hi) as [-> | ->]; reflexivity|].
  split.
  { intros i (H0 & H1 & Hbelow & _).
    assert (Hi : i = 0%Z) by (change (nheattab Samples.late_table) with 2%Z in H1; lia).
    subst i. vm_compute in Hbelow. discriminate Hbelow. }
  split; [vm_compute; repeat split|].
  intros i Hi. destruct (Hrows i Hi) as [-> | ->]; reflexivity.
Qed.

(** ** The lower bound of the temperature grid *)

Section TableFloor.

Context {L : Libm}.

(** C8: [MakeCoolingTable] sets [Tmin = log10(0.1 * MinGasTemp)] whenever
    [MinGasTemp > 0], and [Tmin = 1.0] when [MinGasTemp] is zero or
    negative; [MinGasTemp = 0] gives [Tmin = 1.0], and so does
    [MinGasTemp = 100], because [0.1 * 100] is exactly [10.0] in binary64,
    with a libm whose logarithm is exact at ten. *)
Theorem MakeCoolingTable_Tmin_floor :
  (forall MinGasTemp : float,
      (MinGasTemp >? 0) = true ->
      Tmin (MakeCoolingTable MinGasTemp) = log10 (0.1 * MinGasTemp))
  /\ (forall MinGasTemp : float,
        (MinGasTemp <=? 0) = true -> Tmin (MakeCoolingTable MinGasTemp) = 1)
  /\ Tmin (MakeCoolingTable 0) = 1
  /\ (log10 10 = 1 -> Tmin (MakeCoolingTable 100) = 1).
Proof.
  split; [|split; [|split]].
  - intros MinGasTemp Hpos. change (Tmin (MakeCoolingTable MinGasTemp))
      with (MakeCoolingTable_Tmin MinGasTemp).
    unfold MakeCoolingTable_Tmin. rewrite Hpos. reflexivity.
  - intros MinGasTemp Hneg. change (Tmin (MakeCoolingTable MinGasTemp))
      with (MakeCoolingTable_Tmin MinGasTemp).
    unfold MakeCoolingTable_Tmin.
    destruct (MinGasTemp >? 0) eqn:Hpos; [|reflexivity].
    apply ltb_leb_false in Hpos. congruence.
  - change (Tmin (MakeCoolingTable 0)) with (MakeCoolingTable_Tmin 0). reflexivity.
  - intros Hten. change (Tmin (MakeCoolingTable 100)) with (MakeCoolingTable_Tmin 100).
    unfold MakeCoolingTable_Tmin.
    change (100 >? 0) with true. change (0.1 * 100) with 10. exact Hten.
Qed.

End TableFloor.

(** The coarse libm, whose logarithm is exact at ten, with floors of 50 K,
    -3 K, 0 K and 100 K. *)
Lemma MakeCoolingTable_Tmin_floor_witness :
  Tmin (@MakeCoolingTable Samples.coarse_libm 50) = @log10 Samples.coarse_libm (0.1 * 50)
  /\ Tmin (@MakeCoolingTable Samples.coarse_libm (-3)) = 1
  /\ Tmin (@MakeCoolingTable Samples.coarse_libm 0) = 1
  /\ Tmin (@MakeCoolingTable Samples.coarse_libm 100) = 1.
Proof.
  destruct (@MakeCoolingTable_Tmin_floor Samples.coarse_libm) as (H1 & H2 & H3 & H4).
  split; [apply H1; reflexivity|].
  split; [apply H2; reflexivity|].
  split; [exact H3 | apply H4; reflexivity].
Defined.

(** ** Cooling without a TREECOOL file *)

Section DisabledCooling.

Context {M : CoolingMacros} {F : CoolingFiles} {L : Libm}.

(** Every entry point of cooling.c starts with the same guard
    [if(CoolingNoPrimordial) return 0;]. *)
Lemma disabled_entry_points_return_zero (G : cooling_globals) (u rho : float)
    (uvbg : UVBG) (ne_guess a b Zmet Time : float) :
  CoolingNoPrimordial G = 1%Z ->
  CoolingRateFromU G u rho uvbg ne_guess Zmet Time = Done (0, ne_guess)
  /\ GetCoolingTime G u rho uvbg ne_guess Zmet Time = Done (0, ne_guess)
  /\ AbundanceRatios G u rho uvbg ne_guess a b = Done (0, ne_guess, a, b)
  /\ ConvertInternalEnergy2Temperature G u ne_guess = 0.
Proof.
  intros Hoff.
  unfold CoolingRateFromU, GetCoolingTime, AbundanceRatios, ConvertInternalEnergy2Temperature.
  rewrite Hoff. cbn [Z.eqb]. auto.
Qed.

(** With [CoolingNoPrimordial] set, [DoCooling] returns 0 at once. *)
Lemma DoCooling_disabled (budget : nat) (G : cooling_globals)
    (u_old rho dt : float) (uvbg : UVBG) (ne_guess Zmet Time : float) :
  CoolingNoPrimordial G = 1%Z ->
  DoCooling budget G u_old rho dt uvbg ne_guess Zmet Time = Done (0, ne_guess).
Proof.
  intros Hoff. unfold DoCooling. rewrite Hoff. reflexivity.
Qed.

(** An empty TREECOOL name is not an error of [InitCool]: the table is not
    read, so the run is not stopped for a table that cannot be opened, and
    with the two other file names empty as well [InitCool] returns. *)
Lemma InitCool_empty_names (G0 : cooling_globals) (CoolingOn : Z)
    (TimeBegin UnitDensity_in_cgs HubbleParam UnitTime_in_s UnitPressure_in_cgs
       MinGasTemp : float) :
  exists G : cooling_globals,
    InitCool G0 CoolingOn TimeBegin no_file no_file no_file UnitDensity_in_cgs HubbleParam
             UnitTime_in_s UnitPressure_in_cgs MinGasTemp = Done G.
Proof.
  unfold InitCool. destruct (CoolingOn =? 0)%Z; eexists; reflexivity.
Qed.

(** Whatever the other arguments, an empty TREECOOL name leaves
    [CoolingNoPrimordial] set when [InitCool] returns. *)
Lemma InitCool_empty_TreeCool (G0 G : cooling_globals) (CoolingOn : Z)
    (TimeBegin : float) (MetalCoolFile UVFluctuationFile : string)
    (UnitDensity_in_cgs HubbleParam UnitTime_in_s UnitPressure_in_cgs MinGasTemp : float) :
  InitCool G0 CoolingOn TimeBegin no_file MetalCoolFile UVFluctuationFile
           UnitDensity_in_cgs HubbleParam UnitTime_in_s UnitPressure_in_cgs MinGasTemp
  = Done G ->
  CoolingNoPrimordial G = 1%Z.
Proof.
  intros Hinit. unfold InitCool in Hinit.
  destruct (CoolingOn =? 0)%Z.
  - injection Hinit as <-. reflexivity.
  - cbn [String.length Z.of_nat Z.eqb bind] in Hinit.
    destruct (Z.of_nat (String.length MetalCoolFile) =? 0)%Z.
    + cbn [bind] in Hinit. unfold IonizeParams in Hinit. cbn in Hinit.
      destruct (InitUVF UVFluctuationFile (UVF G0)); try discriminate.
      cbn [bind] in Hinit. injection Hinit as <-. reflexivity.
    + destruct (InitMetalCooling MetalCoolFile); try discriminate.
      cbn [bind] in Hinit. unfold IonizeParams in Hinit. cbn in Hinit.
      destruct (InitUVF UVFluctuationFile (UVF G0)); try discriminate.
      cbn [bind] in Hinit. injection Hinit as <-. reflexivity.
Qed.

(** The only fatal error of [InitMetalCooling] and [InitUVF] is 123. *)
Lemma InitMetalCooling_fatal (MetalCoolFile : string) (code : Z) :
  InitMetalCooling MetalCoolFile = Fatal code -> code = 123%Z.
Proof.
  unfold InitMetalCooling.
  match goal with |- context [if ?b then _ else _] => destruct b end;
    intros H; [injection H as <-; reflexivity | discriminate H].
Qed.

Lemma InitUVF_fatal (UVFluctuationFile : string) (U : uv_fluctuation) (code : Z) :
  InitUVF UVFluctuationFile U = Fatal code -> code = 123%Z.
Proof.
  unfold InitUVF.
  destruct (Z.of_nat (String.length UVFluctuationFile) =? 0)%Z; [discriminate|].
  match goal with |- context [if ?b then _ else _] => destruct b end;
    intros H; [injection H as <-; reflexivity | discriminate H].
Qed.

(** With an empty TREECOOL name [InitCool] does not stop the run for a
    table that cannot be read (error 456 of [ReadIonizeParams]). *)
Lemma InitCool_empty_TreeCool_no_error (G0 : cooling_globals) (CoolingOn : Z)
    (TimeBegin : float) (MetalCoolFile UVFluctuationFile : string)
    (UnitDensity_in_cgs HubbleParam UnitTime_in_s UnitPressure_in_cgs MinGasTemp : float) :
  InitCool G0 CoolingOn TimeBegin no_file MetalCoolFile UVFluctuationFile
           UnitDensity_in_cgs HubbleParam UnitTime_in_s UnitPressure_in_cgs MinGasTemp
  <> Fatal 456.
Proof.
  unfold InitCool. destruct (CoolingOn =? 0)%Z; [discriminate|].
  cbn [String.length Z.of_nat Z.eqb bind].
  destruct (Z.of_nat (String.length MetalCoolFile) =? 0)%Z.
  - cbn [bind]. unfold IonizeParams. cbn.
    destruct (InitUVF UVFluctuationFile (UVF G0)) eqn:E; cbn [bind]; try discriminate.
    apply InitUVF_fatal in E. subst. discriminate.
  - destruct (InitMetalCooling MetalCoolFile) eqn:Em; cbn [bind]; try discriminate.
    + unfold IonizeParams. cbn.
      destruct (InitUVF UVFluctuationFile (UVF G0)) eqn:E; cbn [bind]; try discriminate.
      apply InitUVF_fatal in E. subst. discriminate.
    + apply InitMetalCooling_fatal in Em. subst. discriminate.
Qed.

(** C3, as the code has it: when [InitCool] is given an empty TREECOOL file
    name, the missing table is not an error (the run is not stopped with
    error 456) and, when [InitCool] returns, primordial cooling is switched
    off ([CoolingNoPrimordial = 1]); from then on [DoCooling] returns 0 for
    every input, not [u_old]: it returns at once, without calling the
    solver, without a fatal error and without touching the electron guess. *)
Theorem empty_TreeCool_DoCooling_returns_zero (G0 : cooling_globals) (CoolingOn : Z)
    (TimeBegin : float) (MetalCoolFile UVFluctuationFile : string)
    (UnitDensity_in_cgs HubbleParam UnitTime_in_s UnitPressure_in_cgs MinGasTemp : float) :
  InitCool G0 CoolingOn TimeBegin no_file MetalCoolFile UVFluctuationFile
           UnitDensity_in_cgs HubbleParam UnitTime_in_s UnitPressure_in_cgs MinGasTemp
  <> Fatal 456
  /\ forall G : cooling_globals,
      InitCool G0 CoolingOn TimeBegin no_file MetalCoolFile UVFluctuationFile
               UnitDensity_in_cgs HubbleParam UnitTime_in_s UnitPressure_in_cgs MinGasTemp
      = Done G ->
      CoolingNoPrimordial G = 1%Z
      /\ forall (budget : nat) (u_old rho dt : float) (uvbg : UVBG)
                (ne_guess Zmet Time : float),
          DoCooling budget G u_old rho dt uvbg ne_guess Zmet Time = Done (0, ne_guess).
Proof.
  split; [apply InitCool_empty_TreeCool_no_error|].
  intros G Hinit.
  pose proof (InitCool_empty_TreeCool _ _ _ _ _ _ _ _ _ _ _ Hinit) as Hoff.
  split; [exact Hoff|].
  intros. apply DoCooling_disabled, Hoff.
Qed.

End DisabledCooling.

(** [InitCool] with cooling on and the three file names empty, then
    [DoCooling] on gas of specific energy 10^12. *)
Lemma empty_TreeCool_DoCooling_returns_zero_witness :
  exists G : @cooling_globals Samples.no_files,
    @InitCool Samples.no_files Samples.coarse_libm globals_at_start 1 1 no_file no_file no_file 1 1 1 1 0
    = Done G
    /\ CoolingNoPrimordial G = 1%Z
    /\ @DoCooling Samples.macros Samples.no_files Samples.coarse_libm 10 G
         1.0e12 1.0e-27 1.0e10 Samples.uv_on 1 0 1 = Done (0, 1).
Proof.
  destruct (@InitCool_empty_names Samples.no_files Samples.coarse_libm
              globals_at_start 1 1 1 1 1 1 0) as [G HG].
  exists G. split; [exact HG|].
  destruct (@empty_TreeCool_DoCooling_returns_zero
              Samples.macros Samples.no_files Samples.coarse_libm
              globals_at_start 1 1 no_file no_file 1 1 1 1 0) as [_ Hdone].
  destruct (Hdone G HG) as [Hoff Hzero].
  split; [exact Hoff | apply Hzero].
Defined.

(** The claim C3 is false as stated: after [InitCool] with an empty TREECOOL
    name, [DoCooling] on gas of specific energy 10^12 does not return that
    energy. *)
Lemma empty_TreeCool_DoCooling_changes_energy :
  exists G : @cooling_globals Samples.no_files,
    @InitCool Samples.no_files Samples.coarse_libm globals_at_start 1 1 no_file no_file no_file 1 1 1 1 0
    = Done G
    /\ @DoCooling Samples.macros Samples.no_files Samples.coarse_libm 10 G
         1.0e12 1.0e-27 1.0e10 Samples.uv_on 1 0 1 <> Done (1.0e12, 1).
Proof.
  destruct (@InitCool_empty_names Samples.no_files Samples.coarse_libm
              globals_at_start 1 1 1 1 1 1 0) as [G HG].
  exists G. split; [exact HG|].
  rewrite (DoCooling_disabled (M := Samples.macros) 10 G);
    [| exact (InitCool_empty_TreeCool _ _ _ _ _ _ _ _ _ _ _ HG)].
  intros E.
  apply (f_equal (fun o => match o with Done (u, _) => u =? 1.0e12 | _ => false end)) in E.
  vm_compute in E. discriminate E.
Qed.

(** ** The opening of a cell *)

Section Opening.

Import GravTree.

Context {TM : TreeModule}.

Variable All : All_t.
Variable input : TreeWalkQueryGravity.
Variable mode : Z.

(** Two doubles that compare equal are not in the strict order. *)
Lemma eqb_gtb_false (a b : float) : (a =? b) = true -> (a >? b) = false.
Proof.
  unfold C.gtb. rewrite eqb_spec, ltb_spec. unfold SFeqb, SFltb.
  rewrite (SFcompare_antisym (Prim2SF a) (Prim2SF b)).
  destruct (SFcompare (Prim2SF a) (Prim2SF b)) as [[ | | ]|]; simpl; congruence.
Qed.

(** C5, as the code has it: with the Barnes-Hut criterion active
    ([All.ErrTolTheta] not zero) the cell is opened by the criterion exactly
    when [len * len > r2 * theta * theta]; a node exactly at the threshold
    does not satisfy it.  The walk then does not descend on account of the
    criterion: it takes the node as a point mass and goes on to its sibling,
    unless the check for mixed softenings opens the cell. *)
Theorem threshold_node_is_not_opened (t : tree) (no : Z) :
  let t' := force_drift_node t no (Ti_Current All) in
  let nop := Nodes t' no in
  let '(dx, dy, dz, r2) := separation input (s nop) in
  (ErrTolTheta All <>? 0) = true ->
  (opening_criterion All input nop r2 (mass nop)
   = (len nop * len nop >? r2 * ErrTolTheta All * ErrTolTheta All))
  /\ ((len nop * len nop =? r2 * ErrTolTheta All * ErrTolTheta All) = true ->
      opening_criterion All input nop r2 (mass nop) = false
      /\ (((mode =? 1)%Z && flag_set (bitflags (Nodes t no)) BITFLAG_TOPLEVEL) = false ->
          flag_set (bitflags (Nodes t no)) BITFLAG_MULTIPLEPARTICLES = true ->
          outside_cutoff All input nop r2 = false ->
          visit_node All input mode t no
          = (t', match node_softening All input nop r2 with
                 | None => OpenCell (nextnode nop)
                 | Some h => Interact (sibling nop) dx dy dz r2 (mass nop) h
                 end))).
Proof.
  intros t' nop.
  destruct (separation input (s nop)) as [[[dx dy] dz] r2] eqn:Hsep.
  intros Htheta.
  assert (Hcrit : opening_criterion All input nop r2 (mass nop)
                  = (len nop * len nop >? r2 * ErrTolTheta All * ErrTolTheta All)).
  { unfold opening_criterion. rewrite Htheta. reflexivity. }
  split; [exact Hcrit|].
  intros Heq. apply eqb_gtb_false in Heq.
  assert (Hclosed : opening_criterion All input nop r2 (mass nop) = false)
    by (rewrite Hcrit; exact Heq).
  split; [exact Hclosed|].
  intros Htop Hmulti Hcut. unfold visit_node.
  rewrite Htop, Hmulti. fold t'. fold nop.
  change (negb true) with false. cbv iota.
  unfold separation in Hsep. cbv zeta in Hsep.
  injection Hsep as Hdx Hdy Hdz Hr2. rewrite Hr2, Hdx, Hdy, Hdz.
  rewrite Hcut, Hclosed.
  destruct (node_softening All input nop r2); reflexivity.
Qed.

End Opening.

(** The cell of side 2 at distance 4 seen under the opening angle 0.5:
    [len * len] and [r2 * theta * theta] both are 4. *)
Lemma threshold_node_is_not_opened_witness :
  GravTree.opening_criterion Samples.bh_All Samples.origin_query Samples.far_cell 16 8 = false
  /\ @GravTree.visit_node Samples.plain_tree_module Samples.bh_All Samples.origin_query 0
       Samples.one_cell_tree 100
     = (Samples.one_cell_tree, GravTree.Interact (-1) 4 0 0 16 8 0.01).
Proof.
  pose proof (@threshold_node_is_not_opened Samples.plain_tree_module
                Samples.bh_All Samples.origin_query 0 Samples.one_cell_tree 100) as H.
  cbv zeta in H. change (@GravTree.separation Samples.plain_tree_module Samples.origin_query
                           (GravTree.s Samples.far_cell)) with (4, 0, 0, 16) in H.
  cbv iota beta in H.
  destruct (H eq_refl) as [_ Hthr]. destruct (Hthr eq_refl) as [Hclosed Hvisit].
  split; [exact Hclosed|]. apply Hvisit; reflexivity.
Defined.

(** The claim C5 is false as stated: the walk does not open a cell that lies
    exactly at the Barnes-Hut threshold; it uses the cell as a point mass
    and leaves for its sibling. *)
Lemma threshold_node_is_used_not_opened :
  let nop := Samples.far_cell in
  (GravTree.len nop * GravTree.len nop
   =? 16 * GravTree.ErrTolTheta Samples.bh_All * GravTree.ErrTolTheta Samples.bh_All) = true
  /\ @GravTree.visit Samples.plain_tree_module Samples.bh_All Samples.origin_query 0
       Samples.one_cell_tree tt 100
     = (Samples.one_cell_tree, tt, GravTree.Interact (GravTree.sibling nop) 4 0 0 16 8 0.01)
  /\ @GravTree.visit Samples.plain_tree_module Samples.bh_All Samples.origin_query 0
       Samples.one_cell_tree tt 100
     <> (Samples.one_cell_tree, tt, GravTree.OpenCell (GravTree.nextnode nop)).
Proof.
  cbv zeta. split; [reflexivity|].
  assert (Hvisit : @GravTree.visit Samples.plain_tree_module Samples.bh_All
                     Samples.origin_query 0 Samples.one_cell_tree tt 100
                   = (Samples.one_cell_tree, tt,
                      GravTree.Interact (GravTree.sibling Samples.far_cell) 4 0 0 16 8 0.01))
    by reflexivity.
  split; [exact Hvisit|].
  rewrite Hvisit. intros E. inversion E.
Qed.

(** ** Arrays of ints *)

Section IntArrays.

Local Open Scope Z_scope.

Lemma wrap32_small (z : Z) : C.INT_MIN <= z <= C.INT_MAX -> C.wrap32 z = z.
Proof.
  unfold C.INT_MIN, C.INT_MAX, C.wrap32. intros H.
  rewrite Z.mod_small; lia.
Qed.

Lemma upd_nat_length (a : list Z) (v : Z) :
  forall i : nat, List.length (C.upd_nat a i v) = List.length a.
Proof.
  induction a as [|x a IH]; intros [|i]; cbn; try reflexivity.
  rewrite IH. reflexivity.
Qed.

Lemma upd_nat_same (a : list Z) (v : Z) :
  forall i : nat, (i < List.length a)%nat -> nth i (C.upd_nat a i v) 0 = v.
Proof.
  induction a as [|x a IH]; intros [|i] H; cbn in *; try lia.
  apply IH. lia.
Qed.

Lemma upd_nat_other (a : list Z) (v : Z) :
  forall i j : nat, i <> j -> nth j (C.upd_nat a i v) 0 = nth j a 0.
Proof.
  induction a as [|x a IH]; intros [|i] [|j] H; cbn; try reflexivity; try lia.
  apply IH. lia.
Qed.

Lemma upd_length (a : list Z) (i v : Z) : List.length (C.upd a i v) = List.length a.
Proof.
  unfold C.upd. destruct (i <? 0); [reflexivity | apply upd_nat_length].
Qed.

Lemma rdi_upd_same (a : list Z) (i v : Z) :
  0 <= i < Z.of_nat (List.length a) -> C.rdi (C.upd a i v) i = v.
Proof.
  intros H. unfold C.rdi, C.upd.
  destruct (Z.ltb_spec i 0); [lia|]. apply upd_nat_same. lia.
Qed.

Lemma rdi_upd_other (a : list Z) (i j v : Z) :
  i <> j -> C.rdi (C.upd a i v) j = C.rdi a j.
Proof.
  intros H. unfold C.rdi, C.upd.
  destruct (Z.ltb_spec j 0); [reflexivity|].
  destruct (Z.ltb_spec i 0); [reflexivity|].
  apply upd_nat_other. lia.
Qed.

End IntArrays.

(** ** The bins that are marked active *)

Section ActiveBins.

Import Run.
Local Open Scope Z_scope.

Context {TB : Timebins}.

(** [1 << n] does not leave the range of [int]. *)
Hypothesis TIMEBINS_range : 1 <= TIMEBINS <= 31.

Lemma dt_bin_pow2 (n : Z) : 0 <= n < TIMEBINS -> dt_bin n = 2 ^ n.
Proof.
  intros H. unfold dt_bin. rewrite Z.shiftl_1_l.
  apply wrap32_small. unfold C.INT_MIN, C.INT_MAX.
  assert (2 ^ n <= 2 ^ 30) by (apply Z.pow_le_mono_r; lia).
  assert (0 < 2 ^ n) by (apply Z.pow_pos_nonneg; lia). lia.
Qed.

Lemma in_bins_from (lo n : Z) : In n (bins_from lo) <-> lo <= n < TIMEBINS.
Proof.
  unfold bins_from. rewrite in_map_iff. split.
  - intros (k & <- & Hk). apply in_seq in Hk. lia.
  - intros H. exists (Z.to_nat (n - lo)). split; [lia|]. apply in_seq. lia.
Qed.

Lemma bins_from_NoDup (lo : Z) : NoDup (bins_from lo).
Proof.
  unfold bins_from. apply Injective_map_NoDup; [|apply seq_NoDup].
  intros a b H. lia.
Qed.

Lemma total_cons (f : Z -> Z) (k : Z) (l : list Z) : Spec.total f (k :: l) = f k + Spec.total f l.
Proof. reflexivity. Qed.

Lemma total_nonneg (f : Z -> Z) (l : list Z) :
  (forall n, In n l -> 0 <= f n) -> 0 <= Spec.total f l.
Proof.
  induction l as [|k l IH]; intros H.
  - cbn. lia.
  - rewrite total_cons.
    assert (0 <= f k) by (apply H; left; reflexivity).
    assert (0 <= Spec.total f l) by (apply IH; intros n Hn; apply H; right; exact Hn).
    lia.
Qed.

Lemma mark_fold (counts : list Z) (ti : Z) (l : list Z) :
  NoDup l -> (forall n, In n l -> 1 <= n < TIMEBINS) ->
  (forall n, In n l -> 0 <= C.rdi counts n) ->
  forall m : marking,
    TIMEBINS <= Z.of_nat (List.length (Active m)) ->
    0 <= NumForceUpdate m ->
    NumForceUpdate m + Spec.total (C.rdi counts) l <= C.INT_MAX ->
    let m' := fold_left (mark_pass counts ti) l m in
    List.length (Active m') = List.length (Active m)
    /\ (forall n, In n l ->
                  C.rdi (Active m') n = if Z.rem ti (2 ^ n) =? 0 then 1 else 0)
    /\ (forall n, ~ In n l -> C.rdi (Active m') n = C.rdi (Active m) n)
    /\ NumForceUpdate m'
       = NumForceUpdate m
         + Spec.total (fun n => if Z.rem ti (2 ^ n) =? 0 then C.rdi counts n else 0) l.
Proof.
  induction l as [|k l IH]; intros Hnodup Hbins Hcounts m Hlen Hpos Hmax; cbn [fold_left].
  - cbn. repeat split; try tauto; lia.
  - inversion Hnodup as [|? ? Hk Hnodup']; subst.
    assert (Hkbin : 1 <= k < TIMEBINS) by (apply Hbins; left; reflexivity).
    assert (Hkcount : 0 <= C.rdi counts k) by (apply Hcounts; left; reflexivity).
    assert (Hrest : 0 <= Spec.total (C.rdi counts) l).
    { apply total_nonneg. intros n Hn. apply Hcounts. right. exact Hn. }
    rewrite total_cons in Hmax.
    set (m1 := mark_pass counts ti m k).
    assert (Hm1 : List.length (Active m1) = List.length (Active m)
                  /\ C.rdi (Active m1) k = (if Z.rem ti (2 ^ k) =? 0 then 1 else 0)
                  /\ (forall n, n <> k -> C.rdi (Active m1) n = C.rdi (Active m) n)
                  /\ NumForceUpdate m1
                     = NumForceUpdate m
                       + (if Z.rem ti (2 ^ k) =? 0 then C.rdi counts k else 0)).
    { subst m1. unfold mark_pass. rewrite dt_bin_pow2 by lia.
      destruct (Z.rem ti (2 ^ k) =? 0); cbn [Active NumForceUpdate];
        rewrite upd_length, rdi_upd_same by lia;
        (split; [reflexivity|]); (split; [reflexivity|]);
        (split; [intros n Hn; apply rdi_upd_other; congruence|]).
      - apply wrap32_small. unfold C.INT_MIN, C.INT_MAX in *. lia.
      - lia. }
    destruct Hm1 as (Hlen1 & Hk1 & Hother1 & Hnum1).
    destruct (IH Hnodup' (fun n Hn => Hbins n (or_intror Hn))
                 (fun n Hn => Hcounts n (or_intror Hn)) m1) as (Hl & Hin & Hout & Hsum).
    + lia.
    + rewrite Hnum1. destruct (Z.rem ti (2 ^ k) =? 0); lia.
    + rewrite Hnum1. destruct (Z.rem ti (2 ^ k) =? 0); lia.
    + cbv zeta. split; [congruence|]. split; [|split].
      * intros n [<-|Hn]; [|apply Hin, Hn].
        rewrite Hout by exact Hk. exact Hk1.
      * intros n Hn. rewrite Hout by (intros H; apply Hn; right; exact H).
        apply Hother1. intros ->. apply Hn. left. reflexivity.
      * rewrite Hsum, Hnum1, total_cons. lia.
Qed.



Lemma bins_from_0 : bins_from 0 = 0 :: bins_from 1.
Proof.
  unfold bins_from.
  replace (Z.to_nat (TIMEBINS - 0)) with (S (Z.to_nat (TIMEBINS - 1))) by lia.
  cbn [seq map]. f_equal. rewrite <- seq_shift, map_map.
  apply map_ext. intros k. lia.
Qed.

(** The marking loop on one rank. *)
Lemma mark_active_bins_spec (ti : Z) (r : rank) :
  Spec.rank_ok r ->
  let m := mark_active_bins ti r in
  C.rdi (Active m) 0 = 1
  /\ (forall n, 1 <= n < TIMEBINS ->
                C.rdi (Active m) n = if Z.rem ti (2 ^ n) =? 0 then 1 else 0)
  /\ NumForceUpdate m = Spec.particles_in_active_bins (TimeBinCount r) (Active m).
Proof.
  intros (Hlen & Hcounts & Hmax) m.
  rewrite bins_from_0, total_cons in Hmax.
  assert (H0 : 0 <= C.rdi (TimeBinCount r) 0) by (apply Hcounts; lia).
  destruct (mark_fold (TimeBinCount r) ti (bins_from 1) (bins_from_NoDup 1)
              (fun n Hn => proj1 (in_bins_from 1 n) Hn)
              (fun n Hn => Hcounts n ltac:(apply in_bins_from in Hn; lia))
              (mk_marking (C.upd (TimeBinActive r) 0 1) (C.rdi (TimeBinCount r) 0)))
    as (Hl & Hin & Hout & Hsum).
  - cbn [Active]. rewrite upd_length. lia.
  - exact H0.
  - exact Hmax.
  - fold (mark_active_bins ti r) in Hl, Hin, Hout, Hsum. fold m in Hl, Hin, Hout, Hsum.
    cbn [Active NumForceUpdate] in *.
    assert (Hzero : C.rdi (Active m) 0 = 1).
    { rewrite Hout by (rewrite in_bins_from; lia). apply rdi_upd_same. lia. }
    split; [exact Hzero|]. split.
    + intros n Hn. apply Hin. apply in_bins_from. lia.
    + unfold Spec.particles_in_active_bins. rewrite bins_from_0, total_cons, Hzero, Hsum.
      cbn [Z.eqb]. f_equal. unfold Spec.total. f_equal.
      apply map_ext_in. intros n Hn. rewrite (Hin n Hn).
      destruct (Z.rem ti (2 ^ n) =? 0); reflexivity.
Qed.

(** C9: after [find_next_sync_point_and_drift] has chosen
    [ti_next_kick_global], on every rank timebin 0 is marked active, and a
    bin [n] with [1 <= n < TIMEBINS] is marked active (flag 1, else 0) if and
    only if [2^n] divides [ti_next_kick_global]; the active-particle count of
    the rank is the sum of the counts of exactly its active bins, and
    [GlobNumForceUpdate] is the sum of these counts over the ranks. *)
Theorem active_bins_after_sync (Ti_Current TotNumPart : Z) (this : rank) (others : list rank) :
  Forall Spec.rank_ok (this :: others) ->
  let S := find_next_sync_point Ti_Current TotNumPart this others in
  Forall2 (fun (r : rank) (m : marking) =>
             C.rdi (Active m) 0 = 1
             /\ (forall n, 1 <= n < TIMEBINS ->
                           (C.rdi (Active m) n = 1 <-> (2 ^ n | ti_next_kick_global S))
                           /\ (C.rdi (Active m) n = 0 \/ C.rdi (Active m) n = 1))
             /\ NumForceUpdate m = Spec.particles_in_active_bins (TimeBinCount r) (Active m))
          (this :: others) (markings S)
  /\ GlobNumForceUpdate S
     = sumup_large_ints
         (map (fun rm => Spec.particles_in_active_bins (TimeBinCount (fst rm)) (Active (snd rm)))
              (combine (this :: others) (markings S))).
Proof.
  intros Hok S.
  set (ti := ti_next_kick_global S).
  assert (Hms : markings S = map (mark_active_bins ti) (this :: others)) by reflexivity.
  assert (Hglob : GlobNumForceUpdate S = sumup_large_ints (map NumForceUpdate (markings S)))
    by reflexivity.
  rewrite Hglob, Hms. clear Hglob Hms.
  induction (this :: others) as [|r rs IH].
  - split; [constructor | reflexivity].
  - inversion Hok as [|? ? Hr Hrs]; subst.
    destruct (IH Hrs) as [IHmark IHsum].
    destruct (mark_active_bins_spec ti r Hr) as (Hzero & Hbins & Hnum).
    split.
    + constructor; [|exact IHmark].
      split; [exact Hzero|]. split; [|exact Hnum].
      intros n Hn. rewrite (Hbins n Hn).
      assert (Hpow : 2 ^ n <> 0) by (apply Z.pow_nonzero; lia).
      destruct (Z.eqb_spec (Z.rem ti (2 ^ n)) 0) as [Hrem|Hrem].
      * split; [|right; reflexivity].
        split; [intros _; apply Z.rem_divide; assumption | reflexivity].
      * split; [|left; reflexivity].
        split; [discriminate|].
        intros Hdiv. exfalso. apply Hrem. apply Z.rem_divide; assumption.
    + cbn [map combine fst snd sumup_large_ints fold_right].
      unfold sumup_large_ints in IHsum. rewrite IHsum, Hnum. reflexivity.
Qed.

End ActiveBins.

(** Reading an array of non-negative ints gives a non-negative int. *)
Lemma rdi_nonneg (a : list Z) (n : Z) : Forall (fun x => 0 <= x)%Z a -> (0 <= C.rdi a n)%Z.
Proof.
  intros H. unfold C.rdi. destruct (n <? 0)%Z; [lia|].
  generalize (Z.to_nat n). induction H as [|x a Hx _ IH]; intros [|k]; cbn; auto; lia.
Qed.

(** Two ranks at [Ti_Current = 8] with 29 timebins: the global kick time is
    8, so the bins 0 to 3 are active; the first rank has 5 + 7 + 11
    particles in them and the second 3. *)
Lemma active_bins_after_sync_witness :
  let S := @Run.find_next_sync_point Samples.timebins29 8 28 Samples.rank_a [Samples.rank_b] in
  Forall2 (fun (r : Run.rank) (m : Run.marking) =>
             C.rdi (Run.Active m) 0 = 1%Z
             /\ (forall n : Z, (1 <= n < 29)%Z ->
                   (C.rdi (Run.Active m) n = 1%Z <-> (2 ^ n | Run.ti_next_kick_global S)%Z)
                   /\ (C.rdi (Run.Active m) n = 0%Z \/ C.rdi (Run.Active m) n = 1%Z))
             /\ Run.NumForceUpdate m
                = @Spec.particles_in_active_bins Samples.timebins29
                    (Run.TimeBinCount r) (Run.Active m))
          [Samples.rank_a; Samples.rank_b] (Run.markings S)
  /\ Run.GlobNumForceUpdate S
     = Run.sumup_large_ints
         (map (fun rm => @Spec.particles_in_active_bins Samples.timebins29
                           (Run.TimeBinCount (fst rm)) (Run.Active (snd rm)))
              (combine [Samples.rank_a; Samples.rank_b] (Run.markings S))).
Proof.
  apply (@active_bins_after_sync Samples.timebins29).
  - cbn. lia.
  - repeat constructor; try (intros n _; apply rdi_nonneg; repeat constructor; lia);
      apply Z.leb_le; reflexivity.
Defined.


(** * Further properties of the code *)

(** ** Arrays of doubles *)

Section FloatArrays.

Lemma rd_nth (a : list float) (i : nat) : a.[Z.of_nat i] = nth i a 0.
Proof.
  unfold C.rd. destruct (Z.ltb_spec (Z.of_nat i) 0); [lia|].
  rewrite Nat2Z.id. reflexivity.
Qed.

Lemma rd_outside (a : list float) (i : Z) :
  (Z.of_nat (List.length a) <= i)%Z -> a.[i] = 0.
Proof.
  intros H. unfold C.rd. destruct (Z.ltb_spec i 0); [reflexivity|].
  apply nth_overflow. lia.
Qed.

Lemma rd_firstn (a : list float) (n : nat) (i : Z) :
  (i < Z.of_nat n)%Z -> (firstn n a).[i] = a.[i].
Proof.
  intros H. unfold C.rd. destruct (Z.ltb_spec i 0); [reflexivity|].
  assert (Hi : (Z.to_nat i < n)%nat) by lia. revert Hi. generalize (Z.to_nat i).
  clear. revert a. induction n as [|n IH]; intros a k Hk; [lia|].
  destruct a as [|x a]; [reflexivity|]. destruct k as [|k]; [reflexivity|].
  cbn. apply IH. lia.
Qed.

(** Two arrays of the same size with the same entries are the same. *)
Lemma rd_ext (a b : list float) :
  List.length a = List.length b ->
  (forall i : Z, (0 <= i < Z.of_nat (List.length a))%Z -> a.[i] = b.[i]) ->
  a = b.
Proof.
  revert b. induction a as [|x a IH]; intros [|y b] Hlen H; try discriminate; [reflexivity|].
  f_equal.
  - apply (H 0%Z). cbn [List.length]. lia.
  - apply IH; [cbn [List.length] in Hlen; lia|].
    intros i Hi. specialize (H (Z.of_nat (S (Z.to_nat i)))).
    rewrite !rd_nth in H. cbn [nth] in H. rewrite <- !rd_nth, Z2Nat.id in H by lia.
    apply H. cbn [List.length]. lia.
Qed.

Lemma updf_nat_length (a : list float) (v : float) :
  forall i : nat, List.length (C.updf_nat a i v) = List.length a.
Proof.
  induction a as [|x a IH]; intros [|i]; cbn [C.updf_nat List.length]; try reflexivity.
  rewrite IH. reflexivity.
Qed.

Lemma updf_length (a : list float) (i : Z) (v : float) :
  List.length (C.updf a i v) = List.length a.
Proof. unfold C.updf. destruct (i <? 0)%Z; [reflexivity | apply updf_nat_length]. Qed.

Lemma updf_nat_same (a : list float) (v : float) :
  forall i : nat, (i < List.length a)%nat -> nth i (C.updf_nat a i v) 0 = v.
Proof.
  induction a as [|x a IH]; intros [|i] Hi; cbn [List.length] in Hi; try lia.
  - reflexivity.
  - cbn [C.updf_nat nth]. apply IH. lia.
Qed.

Lemma updf_nat_other (a : list float) (v : float) :
  forall i j : nat, i <> j -> nth j (C.updf_nat a i v) 0 = nth j a 0.
Proof.
  induction a as [|x a IH]; intros [|i] [|j] Hij; cbn [C.updf_nat nth]; try reflexivity.
  - contradiction.
  - apply IH. lia.
Qed.

Lemma rd_updf_same (a : list float) (i : Z) (v : float) :
  (0 <= i < Z.of_nat (List.length a))%Z -> (C.updf a i v).[i] = v.
Proof.
  intros H. unfold C.updf, C.rd. destruct (Z.ltb_spec i 0); [lia|].
  apply updf_nat_same. lia.
Qed.

Lemma rd_updf_other (a : list float) (i j : Z) (v : float) :
  i <> j -> (C.updf a i v).[j] = a.[j].
Proof.
  intros H. unfold C.updf, C.rd. destruct (Z.ltb_spec i 0); [reflexivity|].
  destruct (Z.ltb_spec j 0); [reflexivity|].
  apply updf_nat_other. lia.
Qed.

(** An entry set to zero reads as zero, also outside the array. *)
Lemma rd_updf_zero (a : list float) (i : Z) : (0 <= i)%Z -> (C.updf a i 0).[i] = 0.
Proof.
  intros H. destruct (Z.lt_ge_cases i (Z.of_nat (List.length a))) as [Hin|Hout].
  - apply rd_updf_same. lia.
  - apply rd_outside. rewrite updf_length. exact Hout.
Qed.

Lemma clear_loop_length (l : list nat) :
  forall a : list float,
    List.length (fold_left (fun a i => C.updf a (Z.of_nat i) 0) l a) = List.length a.
Proof.
  induction l as [|k l IH]; intros a; cbn [fold_left]; [reflexivity|].
  rewrite IH. apply updf_length.
Qed.

Lemma clear_loop_read (n : nat) :
  forall (s : nat) (a : list float) (j : Z),
    (0 <= j)%Z ->
    (fold_left (fun a i => C.updf a (Z.of_nat i) 0) (seq s n) a).[j]
    = if ((Z.of_nat s <=? j) && (j <? Z.of_nat (s + n)))%Z then 0 else a.[j].
Proof.
  induction n as [|n IH]; intros s a j Hj; cbn [seq fold_left].
  - destruct (Z.leb_spec (Z.of_nat s) j); destruct (Z.ltb_spec j (Z.of_nat (s + 0)));
      cbn [andb]; try reflexivity; lia.
  - rewrite IH by exact Hj. destruct (Z.eq_dec j (Z.of_nat s)) as [->|Hne].
    + replace ((Z.of_nat (S s) <=? Z.of_nat s) && (Z.of_nat s <? Z.of_nat (S s + n)))%Z
        with false by (symmetry; apply andb_false_intro1; apply Z.leb_gt; lia).
      replace ((Z.of_nat s <=? Z.of_nat s) && (Z.of_nat s <? Z.of_nat (s + S n)))%Z
        with true
        by (symmetry; apply andb_true_intro; split; [apply Z.leb_le | apply Z.ltb_lt]; lia).
      apply rd_updf_zero. lia.
    + rewrite rd_updf_other by lia.
      replace ((Z.of_nat (S s) <=? j) && (j <? Z.of_nat (S s + n)))%Z
        with ((Z.of_nat s <=? j) && (j <? Z.of_nat (s + S n)))%Z; [reflexivity|].
      f_equal.
      * destruct (Z.leb_spec (Z.of_nat s) j); destruct (Z.leb_spec (Z.of_nat (S s)) j);
          try reflexivity; lia.
      * f_equal. lia.
Qed.

Lemma clear_entries_length (a : list float) :
  List.length (clear_entries a) = List.length a.
Proof. apply clear_loop_length. Qed.

Lemma clear_entries_read (a : list float) (j : Z) :
  (0 <= j < TABLESIZE)%Z -> (clear_entries a).[j] = 0.
Proof.
  intros Hj. unfold clear_entries. rewrite clear_loop_read by lia.
  destruct (Z.leb_spec (Z.of_nat 0) j); destruct (Z.ltb_spec j (Z.of_nat (0 + Z.to_nat TABLESIZE)));
    cbn [andb]; try reflexivity; lia.
Qed.

End FloatArrays.

(** ** The number of rows of the TREECOOL table *)

Section CountEntries.

Lemma count_entries_range (l : list float) :
  (0 <= count_entries l <= Z.of_nat (List.length l))%Z.
Proof.
  induction l as [|x l IH]; cbn [count_entries List.length]; [lia|].
  destruct (x <>? 0.0); lia.
Qed.

Lemma count_entries_below (l : list float) :
  forall i : Z, (0 <= i < count_entries l)%Z -> (l.[i] <>? 0) = true.
Proof.
  induction l as [|x l IH]; intros i Hi; cbn [count_entries] in Hi; [lia|].
  destruct (x <>? 0.0) eqn:Hx; [|lia].
  destruct (Z.eq_dec i 0) as [->|Hne]; [exact Hx|].
  replace i with (Z.of_nat (S (Z.to_nat (i - 1)))) by lia.
  rewrite rd_nth. cbn [nth]. rewrite <- rd_nth. apply IH. lia.
Qed.

Lemma count_entries_stop (l : list float) :
  (count_entries l < Z.of_nat (List.length l))%Z -> (l.[count_entries l] <>? 0) = false.
Proof.
  induction l as [|x l IH]; cbn [count_entries List.length]; [lia|].
  destruct (x <>? 0.0) eqn:Hx; intros H.
  - pose proof (count_entries_range l) as Hr.
    replace (1 + count_entries l)%Z with (Z.of_nat (S (Z.to_nat (count_entries l)))) by lia.
    rewrite rd_nth. cbn [nth]. rewrite <- rd_nth, Z2Nat.id by lia. apply IH. lia.
  - exact Hx.
Qed.

(** The count is the place of the first entry that is zero. *)
Lemma count_entries_first_zero (l : list float) (m : Z) :
  (0 <= m <= Z.of_nat (List.length l))%Z ->
  (forall i : Z, (0 <= i < m)%Z -> (l.[i] <>? 0) = true) ->
  ((m < Z.of_nat (List.length l))%Z -> (l.[m] <>? 0) = false) ->
  count_entries l = m.
Proof.
  intros Hm Hbelow Hstop.
  pose proof (count_entries_range l) as Hr.
  destruct (Z.lt_trichotomy (count_entries l) m) as [Hlt | [Heq | Hgt]]; [exfalso | exact Heq | exfalso].
  - assert (Hz : (l.[count_entries l] <>? 0) = false) by (apply count_entries_stop; lia).
    rewrite Hbelow in Hz by lia. discriminate.
  - assert (Hz : (l.[m] <>? 0) = true) by (apply count_entries_below; lia).
    rewrite Hstop in Hz by lia. discriminate.
Qed.

End CountEntries.

Section TreeCoolTable.

Context {F : CoolingFiles} {L : Libm}.

Lemma column_store_record (vals : list float) (i : Z) (t : ionize_table) (k : nat) :
  Spec.column k (store_record vals i t)
  = store_value vals (Nat.min k 6) (Spec.column k t) i.
Proof.
  do 7 (destruct k as [|k]; [reflexivity|]). reflexivity.
Qed.

Lemma store_value_length (vals : list float) (k : nat) (a : list float) (i : Z) :
  List.length (store_value vals k a i) = List.length a.
Proof. unfold store_value. destruct (nth_error vals k); [apply updf_length | reflexivity]. Qed.

Lemma store_value_other (vals : list float) (k : nat) (a : list float) (i j : Z) :
  i <> j -> (store_value vals k a i).[j] = a.[j].
Proof.
  intros H. unfold store_value. destruct (nth_error vals k); [|reflexivity].
  apply rd_updf_other. exact H.
Qed.

Lemma store_value_same (vals : list float) (k : nat) (a : list float) (i : Z) :
  (0 <= i < Z.of_nat (List.length a))%Z ->
  (store_value vals k a i).[i]
  = match nth_error vals k with Some v => C.float_of_double v | None => a.[i] end.
Proof.
  intros H. unfold store_value. destruct (nth_error vals k); [|reflexivity].
  apply rd_updf_same. exact H.
Qed.

(** What the reading loop leaves in an array: the entries of the calls
    it made hold the values converted, the others are as before. *)
Lemma read_records_column (k : nat) (n : nat) :
  forall (calls : list (list float)) (i : Z) (t : ionize_table),
    (0 <= i)%Z ->
    (i + Z.of_nat n <= Z.of_nat (List.length (Spec.column k t)))%Z ->
    let a := Spec.column k (read_records calls n i t) in
    let made := Z.of_nat (Nat.min n (List.length calls)) in
    List.length a = List.length (Spec.column k t)
    /\ (forall j : Z, (i <= j < i + made)%Z ->
          a.[j] = match nth_error (nth (Z.to_nat (j - i)) calls []) (Nat.min k 6) with
                  | Some v => C.float_of_double v
                  | None => (Spec.column k t).[j]
                  end)
    /\ (forall j : Z, (j < i \/ i + made <= j)%Z -> a.[j] = (Spec.column k t).[j]).
Proof.
  induction n as [|n IH]; intros calls i t Hi Hroom; cbn [read_records].
  - cbv zeta. split; [reflexivity|]. split; [intros j Hj; cbn in Hj; lia | reflexivity].
  - destruct calls as [|vals rest].
    + cbv zeta. split; [reflexivity|]. split; [intros j Hj; cbn in Hj; lia | reflexivity].
    + specialize (IH rest (i + 1)%Z (store_record vals i t)).
      rewrite column_store_record in IH. rewrite store_value_length in IH.
      destruct IH as (Hlen & Hin & Hout); [lia | lia |].
      cbv zeta. split; [exact Hlen|]. split.
      * intros j Hj. cbn [List.length Nat.min] in Hj.
        destruct (Z.eq_dec j i) as [->|Hne].
        -- rewrite Hout by lia. rewrite store_value_same by lia.
           replace (Z.to_nat (i - i)) with O by lia. reflexivity.
        -- rewrite Hin by lia. rewrite store_value_other by lia.
           replace (Z.to_nat (j - i)) with (S (Z.to_nat (j - (i + 1)))) by lia.
           reflexivity.
      * intros j Hj. cbn [List.length Nat.min] in Hj.
        rewrite Hout by lia. apply store_value_other. lia.
Qed.

(** The table after [ReadIonizeParams], array by array. *)
Lemma ReadIonizeParams_columns (fname : string) (t : ionize_table)
    (calls : list (list float)) :
  Spec.table_ok t ->
  treecool_rows fname = Some calls ->
  exists t' : ionize_table,
    ReadIonizeParams fname t = Done t'
    /\ Spec.table_ok t'
    /\ nheattab t' = count_entries (gH0 t')
    /\ let made := Z.of_nat (Nat.min (Z.to_nat TABLESIZE) (List.length calls)) in
       forall (k : nat) (j : Z), (k < 7)%nat -> (0 <= j < TABLESIZE)%Z ->
         (Spec.column k t').[j]
         = match (if (j <? made)%Z then nth_error (nth (Z.to_nat j) calls []) k else None) with
           | Some v => C.float_of_double v
           | None => if Nat.eqb k 1 then 0 else (Spec.column k t).[j]
           end.
Proof.
  intros Hok Hfile. unfold ReadIonizeParams. rewrite Hfile.
  set (t0 := mk_ionize (inlogz t) (clear_entries (gH0 t)) (gHe t) (gHep t)
                       (eH0 t) (eHe t) (eHep t) (nheattab t)).
  set (t1 := read_records calls (Z.to_nat TABLESIZE) 0 t0).
  assert (Hok0 : Spec.table_ok t0).
  { intros k. specialize (Hok k). do 7 (destruct k as [|k]; [first [exact Hok | cbn [Spec.column t0 gH0]; rewrite clear_entries_length; exact Hok]|]).
    exact Hok. }
  assert (Hcol : forall k : nat, (k < 7)%nat ->
            List.length (Spec.column k t1) = Z.to_nat TABLESIZE
            /\ forall j : Z, (0 <= j < TABLESIZE)%Z ->
                 (Spec.column k t1).[j]
                 = match (if (j <? Z.of_nat (Nat.min (Z.to_nat TABLESIZE) (List.length calls)))%Z
                          then nth_error (nth (Z.to_nat j) calls []) k else None) with
                   | Some v => C.float_of_double v
                   | None => (Spec.column k t0).[j]
                   end).
  { intros k Hk.
    destruct (read_records_column k (Z.to_nat TABLESIZE) calls 0 t0) as (Hlen & Hin & Hout);
      [lia | rewrite (Hok0 k); lia |].
    fold t1 in Hlen, Hin, Hout. split; [rewrite Hlen; apply Hok0|].
    intros j Hj. replace (Nat.min k 6) with k in Hin by lia.
    destruct (Z.ltb_spec j (Z.of_nat (Nat.min (Z.to_nat TABLESIZE) (List.length calls)))) as [Hlt|Hge].
    - rewrite Hin by lia. replace (j - 0)%Z with j by lia. reflexivity.
    - apply Hout. lia. }
  eexists. split; [reflexivity|].
  assert (Hok1 : Spec.table_ok
                   (mk_ionize (inlogz t1) (gH0 t1) (gHe t1) (gHep t1) (eH0 t1) (eHe t1) (eHep t1)
                              (count_entries (firstn (Z.to_nat TABLESIZE) (gH0 t1))))).
  { assert (H0 := proj1 (Hcol 0%nat ltac:(lia))). assert (H1 := proj1 (Hcol 1%nat ltac:(lia))).
    assert (H2 := proj1 (Hcol 2%nat ltac:(lia))). assert (H3 := proj1 (Hcol 3%nat ltac:(lia))).
    assert (H4 := proj1 (Hcol 4%nat ltac:(lia))). assert (H5 := proj1 (Hcol 5%nat ltac:(lia))).
    assert (H6 := proj1 (Hcol 6%nat ltac:(lia))).
    intros k. do 6 (destruct k as [|k]; [assumption|]). exact H6. }
  split; [exact Hok1|]. split.
  { cbn [nheattab gH0]. rewrite firstn_all2; [reflexivity|].
    change (gH0 t1) with (Spec.column 1 t1).
    rewrite (proj1 (Hcol 1%nat ltac:(lia))). lia. }
  cbv zeta. intros k j Hk Hj.
  assert (Hsame : Spec.column k
                    (mk_ionize (inlogz t1) (gH0 t1) (gHe t1) (gHep t1) (eH0 t1) (eHe t1) (eHep t1)
                               (count_entries (firstn (Z.to_nat TABLESIZE) (gH0 t1))))
                  = Spec.column k t1).
  { do 7 (destruct k as [|k]; [reflexivity|]). reflexivity. }
  rewrite Hsame. rewrite (proj2 (Hcol k Hk) j Hj).
  destruct (if (j <? Z.of_nat (Nat.min (Z.to_nat TABLESIZE) (List.length calls)))%Z
            then nth_error (nth (Z.to_nat j) calls []) k else None);
    [reflexivity|].
  do 7 (destruct k as [|k];
        [first [reflexivity | cbn [Spec.column t0 gH0 Nat.eqb]; apply clear_entries_read; exact Hj]|]).
  lia.
Qed.

(** X1: [ReadIonizeParams] counts the leading records of the TREECOOL
    file whose [gH0], as the [float] array holds it, is not zero.  When
    the file starts with such records, at most [TABLESIZE] of them,
    followed (if they are fewer) by the end of the file or by a record
    that is not counted, the call returns, [nheattab] is the number of
    these records, each of the seven arrays keeps its [TABLESIZE] entries,
    and below [nheattab] every array holds the value of its column
    rounded to a [float], or its former value where the record ended
    before that column. *)
Theorem ReadIonizeParams_counts_leading_rows (fname : string) (t : ionize_table)
    (good rest : list (list float)) :
  Spec.table_ok t ->
  treecool_rows fname = Some (good ++ rest)%list ->
  Forall (fun vals => Spec.counted vals = true) good ->
  (Z.of_nat (List.length good) <= TABLESIZE)%Z ->
  ((Z.of_nat (List.length good) < TABLESIZE)%Z ->
   match rest with [] => True | vals :: _ => Spec.counted vals = false end) ->
  exists t' : ionize_table,
    ReadIonizeParams fname t = Done t'
    /\ nheattab t' = Z.of_nat (List.length good)
    /\ Spec.table_ok t'
    /\ forall (i : Z) (k : nat), (0 <= i < nheattab t')%Z -> (k < 7)%nat ->
         (Spec.column k t').[i]
         = match nth_error (nth (Z.to_nat i) good []) k with
           | Some v => C.float_of_double v
           | None => (Spec.column k t).[i]
           end.
Proof.
  intros Hok Hfile Hgood Hmax Hrest.
  destruct (ReadIonizeParams_columns fname t (good ++ rest) Hok Hfile)
    as (t' & Hread & Hok' & Hn & Hcol).
  cbv zeta in Hcol.
  set (made := Z.of_nat (Nat.min (Z.to_nat TABLESIZE) (List.length (good ++ rest)))) in Hcol.
  assert (Hmade : (Z.of_nat (List.length good) <= made)%Z).
  { subst made. rewrite length_app. lia. }
  assert (HgoodG : forall i : Z, (0 <= i < Z.of_nat (List.length good))%Z ->
             exists v, nth_error (nth (Z.to_nat i) (good ++ rest) []) 1 = Some v
                       /\ (C.float_of_double v <>? 0) = true).
  { intros i Hi. rewrite app_nth1 by lia.
    rewrite Forall_forall in Hgood.
    specialize (Hgood (nth (Z.to_nat i) good []) ltac:(apply nth_In; lia)).
    unfold Spec.counted in Hgood.
    destruct (nth_error (nth (Z.to_nat i) good []) 1) as [v|]; [|discriminate].
    exists v. split; [reflexivity | exact Hgood]. }
  assert (Hcount : count_entries (gH0 t') = Z.of_nat (List.length good)).
  { apply count_entries_first_zero.
    - change (gH0 t') with (Spec.column 1 t'). rewrite (Hok' 1%nat). lia.
    - intros i Hi. change (gH0 t') with (Spec.column 1 t').
      rewrite (Hcol 1%nat i) by lia.
      destruct (Z.ltb_spec i made); [|lia].
      destruct (HgoodG i Hi) as (v & -> & Hv). exact Hv.
    - change (gH0 t') with (Spec.column 1 t'). rewrite (Hok' 1%nat).
      intros Hlt. rewrite (Hcol 1%nat) by lia. specialize (Hrest ltac:(lia)).
      destruct (Z.ltb_spec (Z.of_nat (List.length good)) made) as [Hin|Hout];
        [|reflexivity].
      rewrite Nat2Z.id, app_nth2, Nat.sub_diag by lia.
      destruct rest as [|vals rest'].
      + exfalso. subst made. rewrite app_nil_r in Hin. lia.
      + cbn [nth]. unfold Spec.counted in Hrest.
        destruct (nth_error vals 1); [exact Hrest | reflexivity]. }
  exists t'. split; [exact Hread|]. split; [rewrite Hn; exact Hcount|].
  split; [exact Hok'|].
  intros i k Hi Hk. rewrite Hn, Hcount in Hi. rewrite (Hcol k i Hk) by lia.
  destruct (Z.ltb_spec i made); [|lia].
  rewrite app_nth1 by lia.
  destruct (nth_error (nth (Z.to_nat i) good []) k) as [v|] eqn:Ev; [reflexivity|].
  destruct k as [|[|k]]; [reflexivity | | reflexivity].
  exfalso. destruct (HgoodG i Hi) as (v & Hv & _).
  rewrite app_nth1 in Hv by lia. congruence.
Qed.

Lemma find_ilow_agree (a b : list float) (logz : float) (n : nat) :
  forall i ilow : Z,
    (0 <= i)%Z ->
    (forall k : Z, (i <= k < i + Z.of_nat n)%Z -> a.[k] = b.[k]) ->
    find_ilow a logz n i ilow = find_ilow b logz n i ilow.
Proof.
  induction n as [|n IH]; intros i ilow Hi Hab; cbn [find_ilow]; [reflexivity|].
  rewrite (Hab i) by lia. destruct (b.[i] <? logz); [|reflexivity].
  apply IH; [lia|]. intros k Hk. apply Hab. lia.
Qed.

(** [IonizeParamsTable] reads the rows below [nheattab] only, and the
    [gH0] behind a table of one row. *)
Lemma IonizeParamsTable_agree (t1 t2 : ionize_table) (Time : float) :
  nheattab t1 = nheattab t2 ->
  (0 <= nheattab t1)%Z ->
  gH0 t1 = gH0 t2 ->
  (nheattab t1 = 1%Z -> ((gH0 t1).[1] =? 0) = true) ->
  (forall i : Z, (0 <= i < nheattab t1)%Z ->
     (inlogz t1).[i] = (inlogz t2).[i] /\ (gHe t1).[i] = (gHe t2).[i]
     /\ (gHep t1).[i] = (gHep t2).[i] /\ (eH0 t1).[i] = (eH0 t2).[i]
     /\ (eHe t1).[i] = (eHe t2).[i] /\ (eHep t1).[i] = (eHep t2).[i]) ->
  IonizeParamsTable t1 Time = IonizeParamsTable t2 Time.
Proof.
  intros Hn Hnonneg HgH0 Hone Hrows. unfold IonizeParamsTable.
  rewrite <- Hn, <- HgH0.
  set (logz := log10 (1 / Time - 1 + 1.0)).
  destruct (Z.eq_dec (nheattab t1) 0) as [H0|H0].
  { rewrite H0. cbn [Z.eqb]. rewrite !orb_true_r. reflexivity. }
  assert (Hscan_eq : find_ilow (inlogz t2) logz (Z.to_nat (nheattab t1)) 0 0
                     = find_ilow (inlogz t1) logz (Z.to_nat (nheattab t1)) 0 0).
  { symmetry. apply find_ilow_agree; [lia|]. intros k Hk. apply Hrows. lia. }
  rewrite Hscan_eq.
  pose proof (find_ilow_scan (inlogz t1) logz (Z.to_nat (nheattab t1)) 0 0) as Hscan.
  cbv zeta in Hscan.
  set (ilow := find_ilow (inlogz t1) logz (Z.to_nat (nheattab t1)) 0 0) in *.
  assert (Hilow : (0 <= ilow < nheattab t1)%Z).
  { destruct Hscan as [[-> _] | (Hrange & _)]; lia. }
  destruct (Hrows ilow Hilow) as (Ez & EgHe & EgHep & EeH0 & EeHe & EeHep).
  destruct (Hrows (nheattab t1 - 1)%Z ltac:(lia)) as (Ezlast & _).
  rewrite <- Ez, <- Ezlast.
  destruct ((logz >? (inlogz t1).[nheattab t1 - 1]) || ((gH0 t1).[ilow] =? 0)
            || ((gH0 t1).[ilow + 1] =? 0) || (nheattab t1 =? 0)%Z) eqn:Hguard;
    [reflexivity|].
  apply orb_false_elim in Hguard. destruct Hguard as [Hguard _].
  apply orb_false_elim in Hguard. destruct Hguard as [Hguard Hnext].
  apply orb_false_elim in Hguard. destruct Hguard as [Habove _].
  assert (Hin : (ilow + 1 < nheattab t1)%Z).
  { destruct (Z.eq_dec (ilow + 1) (nheattab t1)) as [Elast|]; [exfalso | lia].
    destruct (Z.eq_dec (nheattab t1) 1) as [E1|N1].
    - replace (ilow + 1)%Z with 1%Z in Hnext by lia. rewrite (Hone E1) in Hnext. discriminate.
    - destruct Hscan as [[E _] | (_ & Hbelow & _)]; [lia|].
      replace (nheattab t1 - 1)%Z with ilow in Habove by lia.
      unfold C.gtb in Habove. congruence. }
  destruct (Hrows (ilow + 1)%Z ltac:(lia)) as (Fz & FgHe & FgHep & FeH0 & FeHe & FeHep).
  unfold log_interpolate.
  rewrite <- Fz, <- EgHe, <- EgHep, <- EeH0, <- EeHe, <- EeHep,
          <- FgHe, <- FgHep, <- FeH0, <- FeHe, <- FeHep.
  reflexivity.
Qed.

(** X2: when every record of the file that is counted is whole (the
    call converts its seven values), the UV background that
    [IonizeParamsTable] computes from the table that [ReadIonizeParams]
    has read does not depend on what the arrays held before the call: the
    entries of a former table that the file does not overwrite are never
    used. *)
Theorem UV_background_ignores_former_table (fname : string) (calls : list (list float))
    (t1 t2 t1' t2' : ionize_table) (Time : float) :
  Spec.table_ok t1 ->
  Spec.table_ok t2 ->
  treecool_rows fname = Some calls ->
  Forall (fun vals => Spec.counted vals = true -> (7 <= List.length vals)%nat) calls ->
  ReadIonizeParams fname t1 = Done t1' ->
  ReadIonizeParams fname t2 = Done t2' ->
  IonizeParamsTable t1' Time = IonizeParamsTable t2' Time.
Proof.
  intros Hok1 Hok2 Hfile Hwhole H1 H2.
  destruct (ReadIonizeParams_columns fname t1 calls Hok1 Hfile) as (u1 & Hu1 & Hok1' & Hn1 & Hc1).
  destruct (ReadIonizeParams_columns fname t2 calls Hok2 Hfile) as (u2 & Hu2 & Hok2' & Hn2 & Hc2).
  rewrite H1 in Hu1. injection Hu1 as <-. rewrite H2 in Hu2. injection Hu2 as <-.
  cbv zeta in Hc1, Hc2.
  set (made := Z.of_nat (Nat.min (Z.to_nat TABLESIZE) (List.length calls))) in Hc1, Hc2.
  assert (HgH0 : gH0 t1' = gH0 t2').
  { apply rd_ext.
    - change (List.length (Spec.column 1 t1') = List.length (Spec.column 1 t2')).
      rewrite (Hok1' 1%nat), (Hok2' 1%nat). reflexivity.
    - change (gH0 t1') with (Spec.column 1 t1'). change (gH0 t2') with (Spec.column 1 t2').
      rewrite (Hok1' 1%nat). intros i Hi.
      rewrite (Hc1 1%nat i), (Hc2 1%nat i) by lia. reflexivity. }
  assert (Hlen : List.length (gH0 t1') = Z.to_nat TABLESIZE) by apply (Hok1' 1%nat).
  pose proof (count_entries_range (gH0 t1')) as Hrange. rewrite Hlen in Hrange.
  apply IonizeParamsTable_agree.
  - rewrite Hn1, Hn2, HgH0. reflexivity.
  - rewrite Hn1. lia.
  - exact HgH0.
  - rewrite Hn1. intros E1.
    assert (Hstop : ((gH0 t1').[count_entries (gH0 t1')] <>? 0) = false).
    { apply count_entries_stop. rewrite Hlen, E1. unfold TABLESIZE. lia. }
    rewrite E1 in Hstop. unfold C.neqb in Hstop.
    destruct ((gH0 t1').[1] =? 0); [reflexivity | discriminate].
  - rewrite Hn1. intros i Hi.
    assert (Hnz : ((gH0 t1').[i] <>? 0) = true) by (apply count_entries_below; exact Hi).
    change (gH0 t1') with (Spec.column 1 t1') in Hnz.
    rewrite (Hc1 1%nat i) in Hnz by lia.
    destruct (Z.ltb_spec i made) as [Hin|Hout]; [|discriminate Hnz].
    assert (Hseven : (7 <= List.length (nth (Z.to_nat i) calls []))%nat).
    { rewrite Forall_forall in Hwhole. apply Hwhole; [apply nth_In; lia|].
      unfold Spec.counted.
      destruct (nth_error (nth (Z.to_nat i) calls []) 1); [exact Hnz | discriminate Hnz]. }
    assert (Hsame : forall k : nat, (k < 7)%nat ->
               (Spec.column k t1').[i] = (Spec.column k t2').[i]).
    { intros k Hk. rewrite (Hc1 k i Hk), (Hc2 k i Hk) by lia.
      destruct (Z.ltb_spec i made); [|lia].
      destruct (nth_error (nth (Z.to_nat i) calls []) k) eqn:Ek; [reflexivity|].
      apply nth_error_None in Ek. lia. }
    split; [apply (Hsame 0%nat); lia|]. split; [apply (Hsame 2%nat); lia|].
    split; [apply (Hsame 3%nat); lia|]. split; [apply (Hsame 4%nat); lia|].
    split; [apply (Hsame 5%nat); lia | apply (Hsame 6%nat); lia].
Qed.

End TreeCoolTable.

(** A record that ends after three values is counted all the same: its
    last four entries are those of the former table, and the UV
    background is computed from them. *)
Lemma short_record_keeps_former_rates :
  exists t1' t2' : ionize_table,
    @ReadIonizeParams Samples.treecool_short_record "TREECOOL" Samples.empty_table = Done t1'
    /\ @ReadIonizeParams Samples.treecool_short_record "TREECOOL" Samples.former_table
       = Done t2'
    /\ nheattab t1' = 2%Z /\ nheattab t2' = 2%Z
    /\ (eH0 t1').[1] = 0 /\ (eH0 t2').[1] = 100.0
    /\ @IonizeParamsTable Samples.coarse_libm t1' 0.1
       <> @IonizeParamsTable Samples.coarse_libm t2' 0.1.
Proof.
  eexists. eexists.
  split; [vm_compute; reflexivity|]. split; [vm_compute; reflexivity|].
  split; [reflexivity|]. split; [reflexivity|].
  split; [reflexivity|]. split; [reflexivity|].
  intros E. apply (f_equal (fun u => epsH0 u =? 1)) in E. vm_compute in E. discriminate E.
Qed.

(** ** cooling.c: the temperature floor and the gas above the table *)

Section PrimordialRate.

Context {L : Libm}.

(** X3: [PrimordialCoolingRate] does not go below the table: for
    [logT <= Tmin] it returns what it returns half a bin above the floor,
    at [Tmin + 0.5 * deltaT], for every density, UV background, electron
    guess and redshift. *)
Theorem PrimordialCoolingRate_floor (g : temperature_grid) (logT nHcgs : float)
    (uvbg : UVBG) (nelec redshift : float) :
  (logT <=? Tmin g) = true ->
  PrimordialCoolingRate g logT nHcgs uvbg nelec redshift
  = PrimordialCoolingRate g (Tmin g + 0.5 * deltaT g) nHcgs uvbg nelec redshift.
Proof.
  intros Hlow. unfold PrimordialCoolingRate. rewrite Hlow.
  destruct (Tmin g + 0.5 * deltaT g <=? Tmin g); reflexivity.
Qed.

(** X4: at and above [Tmax] (and above [Tmin]) [PrimordialCoolingRate]
    takes the gas as fully ionized: it returns without error, the
    electron abundance is [1 + 2 * YHELIUM], and the rate is the negative
    of the free-free and Compton cooling of the ionized gas, with no
    heating term, so that it is fixed by the temperature, the density and
    the redshift, whatever the UV background and the electron guess. *)
Theorem PrimordialCoolingRate_above_table (g : temperature_grid) (logT nHcgs redshift : float) :
  (logT <=? Tmin g) = false ->
  (logT <? Tmax) = false ->
  forall (uvbg : UVBG) (nelec : float),
    PrimordialCoolingRate g logT nHcgs uvbg nelec redshift
    = Done (0 - (Spec.free_free_cooling_ionized logT
                 + Spec.Compton_cooling_ionized logT nHcgs redshift),
            1.0 + 2.0 * YHELIUM).
Proof.
  intros Hlow Hhigh uvbg nelec. unfold PrimordialCoolingRate. rewrite Hlow, Hhigh.
  reflexivity.
Qed.

End PrimordialRate.

(** ** cooling.c: what the solver's rates depend on *)

Section RatesOfTemperature.

Variable g : temperature_grid.
Variable j : Z.
Variables flow fhi : float.

(** The seven rates of a pass are read off the tables. *)
Lemma far_pass_interpolates (nH : float) (uv : UVBG) (st : far_locals) :
  let r := far_r (fst (far_pass g nH uv j flow fhi st)) in
  let T := tab g in
  aHp r = flow * (AlphaHp T).[j] + fhi * (AlphaHp T).[j + 1]
  /\ aHep r = flow * (AlphaHep T).[j] + fhi * (AlphaHep T).[j + 1]
  /\ aHepp r = flow * (AlphaHepp T).[j] + fhi * (AlphaHepp T).[j + 1]
  /\ ad r = flow * (Alphad T).[j] + fhi * (Alphad T).[j + 1]
  /\ geH0 r = flow * (GammaeH0 T).[j] + fhi * (GammaeH0 T).[j + 1]
  /\ geHe0 r = flow * (GammaeHe0 T).[j] + fhi * (GammaeHe0 T).[j + 1]
  /\ geHep r = flow * (GammaeHep T).[j] + fhi * (GammaeHep T).[j + 1].
Proof.
  unfold far_pass.
  repeat match goal with
         | |- context [if ?b then _ else _] => destruct b
         end; cbv zeta; cbn [fst far_r aHp aHep aHepp ad geH0 geHe0 geHep];
    repeat (split; [reflexivity|]); reflexivity.
Qed.

Lemma far_pass_rates (nH1 nH2 : float) (uv1 uv2 : UVBG) (st1 st2 : far_locals) :
  Spec.pass_rates_agree (far_r (fst (far_pass g nH1 uv1 j flow fhi st1)))
                        (far_r (fst (far_pass g nH2 uv2 j flow fhi st2))).
Proof.
  destruct (far_pass_interpolates nH1 uv1 st1) as (A1 & A2 & A3 & A4 & A5 & A6 & A7).
  destruct (far_pass_interpolates nH2 uv2 st2) as (B1 & B2 & B3 & B4 & B5 & B6 & B7).
  cbv zeta in *. unfold Spec.pass_rates_agree.
  rewrite A1, A2, A3, A4, A5, A6, A7, B1, B2, B3, B4, B5, B6, B7.
  repeat (split; [reflexivity|]); reflexivity.
Qed.

Lemma far_loop_rates (nH1 nH2 : float) (uv1 uv2 : UVBG) (b1 : nat) :
  forall (b2 : nat) (st1 st2 st1' st2' : far_locals),
    far_loop g nH1 uv1 j flow fhi b1 st1 = Some st1' ->
    far_loop g nH2 uv2 j flow fhi b2 st2 = Some st2' ->
    Spec.pass_rates_agree (far_r st1') (far_r st2').
Proof.
  assert (Hlast : forall nH uv b st st',
             far_loop g nH uv j flow fhi b st = Some st' ->
             exists st0, st' = fst (far_pass g nH uv j flow fhi st0)).
  { intros nH uv b. induction b as [|b IH]; intros st st' H; [discriminate|].
    cbn [far_loop] in H.
    destruct (far_pass g nH uv j flow fhi st) as [s brk] eqn:E.
    destruct brk.
    - injection H as <-. exists st. rewrite E. reflexivity.
    - destruct (far_niter s <? MAXITER)%Z.
      + apply (IH _ _ H).
      + injection H as <-. exists st. rewrite E. reflexivity. }
  intros b2 st1 st2 st1' st2' H1 H2.
  destruct (Hlast _ _ _ _ _ H1) as [s1 ->]. destruct (Hlast _ _ _ _ _ H2) as [s2 ->].
  apply far_pass_rates.
Qed.

End RatesOfTemperature.

(** X5: inside the table ([logT] neither at or below [Tmin] nor at or
    above [Tmax]) the rate coefficients that [find_abundances_and_rates]
    leaves in [*r] depend on the temperature only: two calls at the same
    [logT] that return give the same rates, whatever the densities, the
    UV backgrounds, the incoming abundances and the incoming [*r]. *)
Theorem rates_depend_on_temperature_only (g : temperature_grid) (logT : float)
    (nH1 nH2 : float) (uv1 uv2 : UVBG) (y1 y2 y1' y2' : abundance) (r1 r2 r1' r2' : rates) :
  (logT <=? Tmin g) = false ->
  (logT >=? Tmax) = false ->
  find_abundances_and_rates g logT nH1 uv1 y1 r1 = Done (y1', r1') ->
  find_abundances_and_rates g logT nH2 uv2 y2 r2 = Done (y2', r2') ->
  r1' = r2'.
Proof.
  intros Hlow Hhigh. unfold find_abundances_and_rates. rewrite Hlow, Hhigh.
  destruct (locate g logT) as [[j flow] fhi].
  destruct (far_loop g nH1 uv1 j flow fhi (Z.to_nat MAXITER) (far_entry nH1 y1 r1))
    as [s1|] eqn:E1; [|discriminate].
  destruct (far_loop g nH2 uv2 j flow fhi (Z.to_nat MAXITER) (far_entry nH2 y2 r2))
    as [s2|] eqn:E2; [|discriminate].
  destruct (far_niter s1 >=? MAXITER)%Z; [discriminate|].
  destruct (far_niter s2 >=? MAXITER)%Z; [discriminate|].
  intros H1 H2. unfold far_finish in H1, H2.
  injection H1 as _ <-. injection H2 as _ <-.
  destruct (far_loop_rates g j flow fhi _ _ _ _ _ _ _ _ _ _ E1 E2)
    as (-> & -> & -> & -> & -> & -> & ->).
  reflexivity.
Qed.

(** ** cooling.c: the codes with which the run is stopped *)

Section FatalCodes.

Context {M : CoolingMacros} {F : CoolingFiles} {L : Libm}.

Lemma find_abundances_and_rates_fatal (g : temperature_grid) (logT nHcgs : float)
    (uvbg : UVBG) (y : abundance) (r : rates) (code : Z) :
  find_abundances_and_rates g logT nHcgs uvbg y r = Fatal code -> code = 13%Z.
Proof.
  unfold find_abundances_and_rates.
  destruct (logT <=? Tmin g); [discriminate|].
  destruct (logT >=? Tmax); [discriminate|].
  destruct (locate g logT) as [[j flow] fhi].
  destruct (far_loop g nHcgs uvbg j flow fhi (Z.to_nat MAXITER) (far_entry nHcgs y r));
    [|discriminate].
  destruct (far_niter f >=? MAXITER)%Z; [|discriminate].
  intros H. injection H as <-. reflexivity.
Qed.

Lemma set_loop_fatal (g : temperature_grid) (u nHcgs : float) (uvbg : UVBG) (code : Z)
    (budget : nat) :
  forall st : set_locals,
    set_loop g u nHcgs uvbg budget st = Fatal code -> code = 13%Z.
Proof.
  induction budget as [|budget IH]; intros st; cbn [set_loop]; [discriminate|].
  unfold set_pass.
  destruct (find_abundances_and_rates g (log10 (set_temp st)) nHcgs uvbg (set_y st) (set_r st))
    as [[y r]| |] eqn:E; cbn [bind].
  - match goal with |- context [if ?b then _ else _] => destruct b end;
      [apply IH | discriminate].
  - intros H. injection H as <-. apply (find_abundances_and_rates_fatal _ _ _ _ _ _ _ E).
  - discriminate.
Qed.

Lemma solve_equilibrium_temp_fatal (g : temperature_grid) (u nHcgs : float) (uvbg : UVBG)
    (y : abundance) (code : Z) :
  solve_equilibrium_temp g u nHcgs uvbg y = Fatal code -> code = 12%Z \/ code = 13%Z.
Proof.
  unfold solve_equilibrium_temp.
  match goal with
  | |- context [set_loop g u nHcgs uvbg ?b ?st] =>
      destruct (set_loop g u nHcgs uvbg b st) as [s| |] eqn:E
  end; cbn [bind].
  - destruct (set_iter s >=? MAXITER)%Z; [|discriminate].
    intros H. injection H as <-. left. reflexivity.
  - intros H. injection H as <-. right. apply (set_loop_fatal _ _ _ _ _ _ _ E).
  - discriminate.
Qed.

Lemma PrimordialCoolingRate_fatal (g : temperature_grid) (logT nHcgs : float) (uvbg : UVBG)
    (nelec redshift : float) (code : Z) :
  PrimordialCoolingRate g logT nHcgs uvbg nelec redshift = Fatal code -> code = 13%Z.
Proof.
  unfold PrimordialCoolingRate.
  match goal with |- context [if ?b then _ else _] => destruct b end; [|discriminate].
  match goal with
  | |- context [find_abundances_and_rates g ?t nHcgs uvbg ?y ?r] =>
      destruct (find_abundances_and_rates g t nHcgs uvbg y r) as [[y' r']| |] eqn:E
  end; cbn [bind]; try discriminate.
  intros H. injection H as <-. apply (find_abundances_and_rates_fatal _ _ _ _ _ _ _ E).
Qed.

Lemma CoolingRateFromU_fatal (G : cooling_globals) (u nHcgs : float) (uvbg : UVBG)
    (ne_guess Zmet Time : float) (code : Z) :
  CoolingRateFromU G u nHcgs uvbg ne_guess Zmet Time = Fatal code ->
  code = 12%Z \/ code = 13%Z.
Proof.
  unfold CoolingRateFromU. destruct (CoolingNoPrimordial G =? 0)%Z; [|discriminate].
  destruct (solve_equilibrium_temp (grid G) u nHcgs uvbg (abundance_with_guess ne_guess))
    as [[temp y]| |] eqn:E; cbn [bind].
  - match goal with
    | |- context [PrimordialCoolingRate ?g ?t ?n ?uv ?e ?z] =>
        destruct (PrimordialCoolingRate g t n uv e z) as [[Lambda e']| |] eqn:E'
    end; cbn [bind]; try discriminate.
    intros H. injection H as <-. right. apply (PrimordialCoolingRate_fatal _ _ _ _ _ _ _ E').
  - intros H. injection H as <-. apply (solve_equilibrium_temp_fatal _ _ _ _ _ _ E).
  - discriminate.
Qed.

Section Loops.

Variable G : cooling_globals.
Variables u_old dt ratefact nHcgs : float.
Variable uvbg : UVBG.
Variables Zmet Time : float.

Lemma residual_fatal (u ne_guess : float) (code : Z) :
  residual G u_old dt ratefact nHcgs uvbg Zmet Time u ne_guess = Fatal code ->
  code = 12%Z \/ code = 13%Z.
Proof.
  unfold residual.
  destruct (CoolingRateFromU G u nHcgs uvbg ne_guess Zmet Time) as [[Lambda e]| |] eqn:E;
    cbn [bind]; try discriminate.
  intros H. injection H as <-. apply (CoolingRateFromU_fatal _ _ _ _ _ _ _ _ E).
Qed.

Lemma bracket_heating_fatal (code : Z) (budget : nat) :
  forall u_lower u_upper ne_guess : float,
    bracket_heating G u_old dt ratefact nHcgs uvbg Zmet Time budget u_lower u_upper ne_guess
    = Fatal code ->
    code = 12%Z \/ code = 13%Z.
Proof.
  induction budget as [|budget IH]; intros u_lower u_upper ne_guess;
    cbn [bracket_heating]; [discriminate|].
  destruct (residual G u_old dt ratefact nHcgs uvbg Zmet Time u_upper ne_guess)
    as [[res e]| |] eqn:E; cbn [bind]; try discriminate.
  - destruct (res <? 0); [apply IH | discriminate].
  - intros H. injection H as <-. apply (residual_fatal _ _ _ E).
Qed.

Lemma bracket_cooling_fatal (code : Z) (budget : nat) :
  forall u_lower u_upper ne_guess : float,
    bracket_cooling G u_old dt ratefact nHcgs uvbg Zmet Time budget u_lower u_upper ne_guess
    = Fatal code ->
    code = 12%Z \/ code = 13%Z.
Proof.
  induction budget as [|budget IH]; intros u_lower u_upper ne_guess;
    cbn [bracket_cooling]; [discriminate|].
  destruct (residual G u_old dt ratefact nHcgs uvbg Zmet Time u_lower ne_guess)
    as [[res e]| |] eqn:E; cbn [bind]; try discriminate.
  - destruct (res >? 0); [apply IH | discriminate].
  - intros H. injection H as <-. apply (residual_fatal _ _ _ E).
Qed.

Lemma bisect_fatal (code : Z) (budget : nat) :
  forall st : bisect_locals,
    bisect G u_old dt ratefact nHcgs uvbg Zmet Time budget st = Fatal code ->
    code = 12%Z \/ code = 13%Z.
Proof.
  induction budget as [|budget IH]; intros st; cbn [bisect]; [discriminate|].
  match goal with
  | |- context [residual G u_old dt ratefact nHcgs uvbg Zmet Time ?u ?e] =>
      destruct (residual G u_old dt ratefact nHcgs uvbg Zmet Time u e)
        as [[res e']| |] eqn:E
  end; cbn [bind]; try discriminate.
  - match goal with |- context [if ?b then _ else _] => destruct b end;
      [apply IH | discriminate].
  - intros H. injection H as <-. apply (residual_fatal _ _ _ E).
Qed.

End Loops.

(** A sequence stops the run where its first part does, or where the
    rest does. *)
Lemma bind_fatal {A B : Type} (m : outcome A) (k : A -> outcome B) (code : Z) :
  bind m k = Fatal code ->
  m = Fatal code \/ exists a : A, m = Done a /\ k a = Fatal code.
Proof.
  destruct m as [a| |]; cbn [bind]; intros H.
  - right. exists a. split; [reflexivity | exact H].
  - left. injection H as <-. reflexivity.
  - discriminate H.
Qed.

(** X6: the entry points of the cooling stop the run with the errors of
    the three iterations only: [DoCooling] with 10 (its bisection), 12
    ([solve_equilibrium_temp]) or 13 ([find_abundances_and_rates]),
    [GetCoolingTime] and [AbundanceRatios] with 12 or 13. *)
Theorem cooling_fatal_codes (budget : nat) (G : cooling_globals) (u rho dt : float)
    (uvbg : UVBG) (ne_guess a b Zmet Time : float) (code : Z) :
  (DoCooling budget G u rho dt uvbg ne_guess Zmet Time = Fatal code ->
   code = 10%Z \/ code = 12%Z \/ code = 13%Z)
  /\ (GetCoolingTime G u rho uvbg ne_guess Zmet Time = Fatal code ->
      code = 12%Z \/ code = 13%Z)
  /\ (AbundanceRatios G u rho uvbg ne_guess a b = Fatal code ->
      code = 12%Z \/ code = 13%Z).
Proof.
  split; [|split].
  - unfold DoCooling. destruct (CoolingNoPrimordial G =? 0)%Z; [|discriminate].
    intros H. apply bind_fatal in H.
    destruct H as [H | ([Lambda e] & _ & H)];
      [right; apply (CoolingRateFromU_fatal _ _ _ _ _ _ _ _ H)|].
    apply bind_fatal in H.
    destruct H as [H | ([[lo up] e1] & _ & H)].
    { right. match type of H with
             | (if ?c then _ else _) = _ => destruct c; [|discriminate H]
             end.
      apply (bracket_heating_fatal _ _ _ _ _ _ _ _ _ _ _ _ _ H). }
    apply bind_fatal in H.
    destruct H as [H | ([[lo2 up2] e2] & _ & H)].
    { right. match type of H with
             | (if ?c then _ else _) = _ => destruct c; [|discriminate H]
             end.
      apply (bracket_cooling_fatal _ _ _ _ _ _ _ _ _ _ _ _ _ H). }
    apply bind_fatal in H.
    destruct H as [H | (st & _ & H)];
      [right; apply (bisect_fatal _ _ _ _ _ _ _ _ _ _ _ H)|].
    destruct (bis_iter st >=? MAXITER)%Z; [|discriminate H].
    injection H as <-. left. reflexivity.
  - unfold GetCoolingTime. destruct (CoolingNoPrimordial G =? 0)%Z; [|discriminate].
    intros H. apply bind_fatal in H.
    destruct H as [H | ([Lambda e] & _ & H)];
      [apply (CoolingRateFromU_fatal _ _ _ _ _ _ _ _ H)|].
    destruct (Lambda >=? 0); discriminate H.
  - unfold AbundanceRatios. destruct (CoolingNoPrimordial G =? 0)%Z; [|discriminate].
    intros H. apply bind_fatal in H.
    destruct H as [H | ([temp y] & _ & H)];
      [apply (solve_equilibrium_temp_fatal _ _ _ _ _ _ H) | discriminate H].
Qed.

End FatalCodes.

(** ** cooling.c: cooling without a metal table *)

Section NoMetalTable.

Context {M : CoolingMacros} {F : CoolingFiles} {L : Libm}.

Variable G : cooling_globals.
Hypothesis no_metal : CoolingNoMetal G <> 0%Z.

Lemma CoolingRateFromU_no_metal (u nHcgs : float) (uvbg : UVBG)
    (ne_guess Z1 Z2 Time : float) :
  CoolingRateFromU G u nHcgs uvbg ne_guess Z1 Time
  = CoolingRateFromU G u nHcgs uvbg ne_guess Z2 Time.
Proof.
  unfold CoolingRateFromU. apply Z.eqb_neq in no_metal. rewrite no_metal. reflexivity.
Qed.

Section Loops.

Variables u_old dt ratefact nHcgs : float.
Variable uvbg : UVBG.
Variables Z1 Z2 Time : float.

Lemma residual_no_metal (u ne_guess : float) :
  residual G u_old dt ratefact nHcgs uvbg Z1 Time u ne_guess
  = residual G u_old dt ratefact nHcgs uvbg Z2 Time u ne_guess.
Proof.
  unfold residual. rewrite (CoolingRateFromU_no_metal u nHcgs uvbg ne_guess Z1 Z2 Time).
  reflexivity.
Qed.

Lemma bracket_heating_no_metal (budget : nat) :
  forall u_lower u_upper ne_guess : float,
    bracket_heating G u_old dt ratefact nHcgs uvbg Z1 Time budget u_lower u_upper ne_guess
    = bracket_heating G u_old dt ratefact nHcgs uvbg Z2 Time budget u_lower u_upper ne_guess.
Proof.
  induction budget as [|budget IH]; intros u_lower u_upper ne_guess;
    cbn [bracket_heating]; [reflexivity|].
  rewrite residual_no_metal.
  destruct (residual G u_old dt ratefact nHcgs uvbg Z2 Time u_upper ne_guess)
    as [[res e]| |]; cbn [bind]; [|reflexivity|reflexivity].
  destruct (res <? 0); [apply IH | reflexivity].
Qed.

Lemma bracket_cooling_no_metal (budget : nat) :
  forall u_lower u_upper ne_guess : float,
    bracket_cooling G u_old dt ratefact nHcgs uvbg Z1 Time budget u_lower u_upper ne_guess
    = bracket_cooling G u_old dt ratefact nHcgs uvbg Z2 Time budget u_lower u_upper ne_guess.
Proof.
  induction budget as [|budget IH]; intros u_lower u_upper ne_guess;
    cbn [bracket_cooling]; [reflexivity|].
  rewrite residual_no_metal.
  destruct (residual G u_old dt ratefact nHcgs uvbg Z2 Time u_lower ne_guess)
    as [[res e]| |]; cbn [bind]; [|reflexivity|reflexivity].
  destruct (res >? 0); [apply IH | reflexivity].
Qed.

Lemma bisect_no_metal (budget : nat) :
  forall st : bisect_locals,
    bisect G u_old dt ratefact nHcgs uvbg Z1 Time budget st
    = bisect G u_old dt ratefact nHcgs uvbg Z2 Time budget st.
Proof.
  induction budget as [|budget IH]; intros st; cbn [bisect]; [reflexivity|].
  rewrite residual_no_metal.
  match goal with
  | |- context [residual G u_old dt ratefact nHcgs uvbg Z2 Time ?u ?e] =>
      destruct (residual G u_old dt ratefact nHcgs uvbg Z2 Time u e) as [[res e']| |]
  end; cbn [bind]; [|reflexivity|reflexivity].
  match goal with |- context [if ?b then _ else _] => destruct b end;
    [apply IH | reflexivity].
Qed.

End Loops.

(** X7: when no metal cooling table is loaded ([CoolingNoMetal] is
    set), the metallicity is not used: [DoCooling] and [GetCoolingTime]
    return the same for any two metallicities. *)
Theorem metallicity_ignored_without_metal_table (budget : nat) (u rho dt : float)
    (uvbg : UVBG) (ne_guess Z1 Z2 Time : float) :
  DoCooling budget G u rho dt uvbg ne_guess Z1 Time
  = DoCooling budget G u rho dt uvbg ne_guess Z2 Time
  /\ GetCoolingTime G u rho uvbg ne_guess Z1 Time
     = GetCoolingTime G u rho uvbg ne_guess Z2 Time.
Proof.
  split.
  - unfold DoCooling. destruct (CoolingNoPrimordial G =? 0)%Z; [|reflexivity].
    match goal with
    | |- context [CoolingRateFromU G ?u ?n uvbg ne_guess Z1 Time] =>
        rewrite (CoolingRateFromU_no_metal u n uvbg ne_guess Z1 Z2 Time);
        destruct (CoolingRateFromU G u n uvbg ne_guess Z2 Time) as [[Lambda e]| |]
    end; cbn [bind]; [|reflexivity|reflexivity].
    rewrite (bracket_heating_no_metal _ _ _ _ _ Z1 Z2).
    match goal with
    | |- bind ?m _ = bind ?m _ => destruct m as [[[lo up] e1]| |]
    end; cbn [bind]; [|reflexivity|reflexivity].
    rewrite (bracket_cooling_no_metal _ _ _ _ _ Z1 Z2).
    match goal with
    | |- bind ?m _ = bind ?m _ => destruct m as [[[lo2 up2] e2]| |]
    end; cbn [bind]; [|reflexivity|reflexivity].
    rewrite (bisect_no_metal _ _ _ _ _ Z1 Z2). reflexivity.
  - unfold GetCoolingTime. destruct (CoolingNoPrimordial G =? 0)%Z; [|reflexivity].
    match goal with
    | |- context [CoolingRateFromU G ?u ?n uvbg ne_guess Z1 Time] =>
        rewrite (CoolingRateFromU_no_metal u n uvbg ne_guess Z1 Z2 Time)
    end.
    reflexivity.
Qed.

End NoMetalTable.

(** ** cooling.c: InitCool and the UV background *)

Section InitCoolFacts.

Context {M : CoolingMacros} {F : CoolingFiles} {L : Libm}.

Lemma empty_name_test (name : string) :
  (Z.of_nat (String.length name) =? 0)%Z = true <-> name = no_file.
Proof.
  unfold no_file. destruct name as [|c name]; cbn [String.length].
  - split; reflexivity.
  - split; [|discriminate]. intros H. apply Z.eqb_eq in H. lia.
Qed.

Lemma named_file_test (name : string) :
  name <> no_file -> (Z.of_nat (String.length name) =? 0)%Z = false.
Proof.
  intros H. destruct (Z.of_nat (String.length name) =? 0)%Z eqn:E; [|reflexivity].
  apply empty_name_test in E. contradiction.
Qed.

(** X8: with cooling on and a TREECOOL file name given, [InitCool]
    stops the run with error 456 when the file cannot be read, whatever
    the other arguments. *)
Theorem unreadable_TreeCool_stops_InitCool (G0 : cooling_globals) (CoolingOn : Z)
    (TimeBegin : float) (TreeCoolFile MetalCoolFile UVFluctuationFile : string)
    (UnitDensity_in_cgs HubbleParam UnitTime_in_s UnitPressure_in_cgs MinGasTemp : float) :
  CoolingOn <> 0%Z ->
  TreeCoolFile <> no_file ->
  treecool_rows TreeCoolFile = None ->
  InitCool G0 CoolingOn TimeBegin TreeCoolFile MetalCoolFile UVFluctuationFile
           UnitDensity_in_cgs HubbleParam UnitTime_in_s UnitPressure_in_cgs MinGasTemp
  = Fatal 456.
Proof.
  intros Hon Hname Hfile. unfold InitCool.
  apply Z.eqb_neq in Hon. rewrite Hon.
  rewrite (named_file_test _ Hname). unfold ReadIonizeParams. rewrite Hfile.
  reflexivity.
Qed.

(** X9: [InitCool] with [CoolingOn == 0] reads no file and builds no
    table: it returns with [CoolingNoPrimordial] and [CoolingNoMetal]
    set and everything else as it was; afterwards [IonizeParams] changes
    nothing, and [DoCooling] and [GetCoolingTime] return 0 and leave the
    electron guess as it is. *)
Theorem InitCool_off_is_inert (G0 : cooling_globals) (TimeBegin : float)
    (TreeCoolFile MetalCoolFile UVFluctuationFile : string)
    (UnitDensity_in_cgs HubbleParam UnitTime_in_s UnitPressure_in_cgs MinGasTemp : float) :
  exists G : cooling_globals,
    InitCool G0 0 TimeBegin TreeCoolFile MetalCoolFile UVFluctuationFile
             UnitDensity_in_cgs HubbleParam UnitTime_in_s UnitPressure_in_cgs MinGasTemp
    = Done G
    /\ CoolingNoPrimordial G = 1%Z /\ CoolingNoMetal G = 1%Z
    /\ grid G = grid G0 /\ units_to_cgs G = units_to_cgs G0
    /\ GlobalUVBG G = GlobalUVBG G0 /\ ionize G = ionize G0
    /\ MC G = MC G0 /\ UVF G = UVF G0
    /\ (forall Time : float, IonizeParams G Time = G)
    /\ (forall (budget : nat) (u rho dt : float) (uvbg : UVBG) (ne_guess Zmet Time : float),
          DoCooling budget G u rho dt uvbg ne_guess Zmet Time = Done (0, ne_guess)
          /\ GetCoolingTime G u rho uvbg ne_guess Zmet Time = Done (0, ne_guess)).
Proof.
  eexists. split; [reflexivity|].
  repeat (split; [reflexivity|]).
  intros. split; reflexivity.
Qed.

(** What [InitUVF] leaves in [UVF.disabled]. *)
Lemma InitUVF_disabled (UVFluctuationFile : string) (U U' : uv_fluctuation) :
  InitUVF UVFluctuationFile U = Done U' ->
  (UVFluctuationFile = no_file -> UVF_disabled U' = 1%Z)
  /\ (UVFluctuationFile <> no_file -> UVF_disabled U' = 0%Z).
Proof.
  unfold InitUVF.
  destruct (Z.of_nat (String.length UVFluctuationFile) =? 0)%Z eqn:E.
  - intros H. injection H as <-. apply empty_name_test in E.
    split; [reflexivity | contradiction].
  - match goal with |- context [if ?b then _ else _] => destruct b end; [discriminate|].
    intros H. injection H as <-. split; [|reflexivity].
    intros Hname. apply empty_name_test in Hname. congruence.
Qed.

(** X10: after [InitCool] with cooling on, the state follows the file
    names.  An empty TREECOOL name sets [CoolingNoPrimordial] and leaves
    the UV table and background alone; a name given clears the flag, the
    table is the one [ReadIonizeParams] reads and the UV background is
    that of [TimeBegin].  An empty metal file name sets [CoolingNoMetal];
    a name given clears it and loads the table of [InitMetalCooling].
    The UV fluctuation is disabled exactly when its file name is empty.
    The temperature grid is that of [MakeCoolingTable MinGasTemp], and
    the units are converted with [HubbleParam]. *)
Theorem InitCool_follows_file_names (G0 G : cooling_globals) (CoolingOn : Z)
    (TimeBegin : float) (TreeCoolFile MetalCoolFile UVFluctuationFile : string)
    (UnitDensity_in_cgs HubbleParam UnitTime_in_s UnitPressure_in_cgs MinGasTemp : float) :
  CoolingOn <> 0%Z ->
  InitCool G0 CoolingOn TimeBegin TreeCoolFile MetalCoolFile UVFluctuationFile
           UnitDensity_in_cgs HubbleParam UnitTime_in_s UnitPressure_in_cgs MinGasTemp
  = Done G ->
  (TreeCoolFile = no_file ->
   CoolingNoPrimordial G = 1%Z /\ ionize G = ionize G0 /\ GlobalUVBG G = GlobalUVBG G0)
  /\ (TreeCoolFile <> no_file ->
      CoolingNoPrimordial G = 0%Z
      /\ ReadIonizeParams TreeCoolFile (ionize G0) = Done (ionize G)
      /\ GlobalUVBG G = IonizeParamsTable (ionize G) TimeBegin)
  /\ (MetalCoolFile = no_file -> CoolingNoMetal G = 1%Z /\ MC G = MC G0)
  /\ (MetalCoolFile <> no_file ->
      CoolingNoMetal G = 0%Z /\ InitMetalCooling MetalCoolFile = Done (MC G))
  /\ (UVFluctuationFile = no_file -> UVF_disabled (UVF G) = 1%Z)
  /\ (UVFluctuationFile <> no_file -> UVF_disabled (UVF G) = 0%Z)
  /\ grid G = MakeCoolingTable MinGasTemp
  /\ units_to_cgs G = mk_units (UnitDensity_in_cgs * HubbleParam * HubbleParam)
                               (UnitPressure_in_cgs / UnitDensity_in_cgs)
                               (UnitTime_in_s / HubbleParam).
Proof.
  intros Hon Hinit. unfold InitCool in Hinit.
  apply Z.eqb_neq in Hon. rewrite Hon in Hinit.
  set (tables := MakeCoolingTable MinGasTemp) in *. clearbody tables.
  destruct (Z.of_nat (String.length TreeCoolFile) =? 0)%Z eqn:Etree;
    destruct (Z.of_nat (String.length MetalCoolFile) =? 0)%Z eqn:Emetal;
    cbn [bind] in Hinit.
  - apply empty_name_test in Etree. apply empty_name_test in Emetal.
    unfold IonizeParams in Hinit. cbn [CoolingNoPrimordial Z.eqb UVF] in Hinit.
    destruct (InitUVF UVFluctuationFile (UVF G0)) as [U| |] eqn:EU; try discriminate.
    cbn [bind] in Hinit. injection Hinit as <-.
    destruct (InitUVF_disabled _ _ _ EU) as [Hoff Hon'].
    cbn. repeat split; try assumption; try contradiction; auto.
  - apply empty_name_test in Etree.
    assert (Hmetal : MetalCoolFile <> no_file)
      by (intros H; apply empty_name_test in H; congruence).
    destruct (InitMetalCooling MetalCoolFile) as [m| |] eqn:Em; try discriminate.
    cbn [bind] in Hinit.
    unfold IonizeParams in Hinit. cbn [CoolingNoPrimordial Z.eqb UVF] in Hinit.
    destruct (InitUVF UVFluctuationFile (UVF G0)) as [U| |] eqn:EU; try discriminate.
    cbn [bind] in Hinit. injection Hinit as <-.
    destruct (InitUVF_disabled _ _ _ EU) as [Hoff Hon'].
    cbn. repeat split; try assumption; try contradiction; auto.
  - apply empty_name_test in Emetal.
    assert (Htree : TreeCoolFile <> no_file)
      by (intros H; apply empty_name_test in H; congruence).
    destruct (ReadIonizeParams TreeCoolFile (ionize G0)) as [t| |] eqn:Et; try discriminate.
    cbn [bind] in Hinit.
    unfold IonizeParams in Hinit. cbn [CoolingNoPrimordial Z.eqb UVF] in Hinit.
    unfold set_GlobalUVBG in Hinit. cbn [UVF ionize] in Hinit.
    destruct (InitUVF UVFluctuationFile (UVF G0)) as [U| |] eqn:EU; try discriminate.
    cbn [bind] in Hinit. injection Hinit as <-.
    destruct (InitUVF_disabled _ _ _ EU) as [Hoff Hon'].
    cbn. repeat split; try assumption; try contradiction; auto.
  - assert (Htree : TreeCoolFile <> no_file)
      by (intros H; apply empty_name_test in H; congruence).
    assert (Hmetal : MetalCoolFile <> no_file)
      by (intros H; apply empty_name_test in H; congruence).
    destruct (ReadIonizeParams TreeCoolFile (ionize G0)) as [t| |] eqn:Et; try discriminate.
    cbn [bind] in Hinit.
    destruct (InitMetalCooling MetalCoolFile) as [m| |] eqn:Em; try discriminate.
    cbn [bind] in Hinit.
    unfold IonizeParams in Hinit. cbn [CoolingNoPrimordial Z.eqb UVF] in Hinit.
    unfold set_GlobalUVBG in Hinit. cbn [UVF ionize] in Hinit.
    destruct (InitUVF UVFluctuationFile (UVF G0)) as [U| |] eqn:EU; try discriminate.
    cbn [bind] in Hinit. injection Hinit as <-.
    destruct (InitUVF_disabled _ _ _ EU) as [Hoff Hon'].
    cbn. repeat split; try assumption; try contradiction; auto.
Qed.

(** [InitCool] returns when the TREECOOL file can be read and neither a
    metal table nor a table of UV fluctuations is asked for. *)
Lemma InitCool_reads_TreeCool (G0 : cooling_globals) (CoolingOn : Z)
    (TimeBegin : float) (TreeCoolFile : string) (rows : list (list float))
    (UnitDensity_in_cgs HubbleParam UnitTime_in_s UnitPressure_in_cgs MinGasTemp : float) :
  treecool_rows TreeCoolFile = Some rows ->
  exists G : cooling_globals,
    InitCool G0 CoolingOn TimeBegin TreeCoolFile no_file no_file
             UnitDensity_in_cgs HubbleParam UnitTime_in_s UnitPressure_in_cgs MinGasTemp
    = Done G.
Proof.
  intros Hfile. unfold InitCool, ReadIonizeParams. rewrite Hfile.
  destruct (CoolingOn =? 0)%Z; [eexists; reflexivity|].
  destruct (Z.of_nat (String.length TreeCoolFile) =? 0)%Z; eexists; reflexivity.
Qed.

(** X11: [IonizeParams] keeps no history: a call for [Time1] followed by
    a call for [Time2] leaves the globals of a call for [Time2] alone; it
    changes neither the UV table nor [CoolingNoPrimordial]; and without
    UV fluctuations [GetParticleUVBG] hands every particle, at every
    position, the background of the last call of [IonizeParams]. *)
Theorem IonizeParams_depends_on_last_time_only (G : cooling_globals) (Time1 Time2 : float) :
  IonizeParams (IonizeParams G Time1) Time2 = IonizeParams G Time2
  /\ ionize (IonizeParams G Time1) = ionize G
  /\ CoolingNoPrimordial (IonizeParams G Time1) = CoolingNoPrimordial G
  /\ (CoolingNoPrimordial G = 0%Z ->
      forall (pos : list float) (Time : float),
        UVF_disabled (UVF G) <> 0%Z ->
        GetParticleUVBG (IonizeParams G Time1) pos Time = IonizeParamsTable (ionize G) Time1).
Proof.
  unfold IonizeParams.
  destruct (CoolingNoPrimordial G =? 0)%Z eqn:E.
  - cbn [set_GlobalUVBG CoolingNoPrimordial ionize]. rewrite E.
    repeat (split; [reflexivity|]).
    intros _ pos Time Hoff. unfold GetParticleUVBG, set_GlobalUVBG. cbn [UVF GlobalUVBG].
    apply Z.eqb_neq in Hoff. rewrite Hoff. reflexivity.
  - rewrite E. repeat (split; [reflexivity|]).
    intros H0. rewrite H0 in E. discriminate.
Qed.

End InitCoolFacts.

(** ** run.c: the kick time *)

Section KickTime.

Import Run.
Local Open Scope Z_scope.

Context {TB : Timebins}.

(** [TIMEBASE] is [1 << TIMEBINS] and an [int]. *)
Hypothesis TIMEBINS_small : 1 <= TIMEBINS <= 30.
Hypothesis TIMEBASE_pow2 : TIMEBASE = 2 ^ TIMEBINS.

Lemma TIMEBINS_int : 1 <= TIMEBINS <= 31.
Proof. lia. Qed.

Lemma pow2_pos (n : Z) : 0 <= n -> 0 < 2 ^ n.
Proof. intros H. apply Z.pow_pos_nonneg; lia. Qed.

Lemma pow2_le_TIMEBASE (n : Z) : 0 <= n <= TIMEBINS -> 2 ^ n <= 2 ^ 30.
Proof. intros H. apply Z.pow_le_mono_r; lia. Qed.

Lemma pow2_divide (k n : Z) : 0 <= k <= n -> (2 ^ k | 2 ^ n).
Proof.
  intros H. exists (2 ^ (n - k)). rewrite <- Z.pow_add_r by lia. f_equal. lia.
Qed.

(** The next multiple of [2^n] behind [Ti_Current]. *)
Lemma next_multiple (Ti n : Z) :
  0 <= Ti < TIMEBASE -> 1 <= n < TIMEBINS ->
  Ti < (Ti / 2 ^ n + 1) * 2 ^ n <= TIMEBASE /\ 0 <= Ti / 2 ^ n * 2 ^ n <= Ti.
Proof.
  intros HTi Hn. rewrite TIMEBASE_pow2 in *.
  pose proof (pow2_pos n ltac:(lia)) as Hpos.
  pose proof (Z.div_mod Ti (2 ^ n) ltac:(lia)) as Hdm.
  pose proof (Z.mod_pos_bound Ti (2 ^ n) Hpos) as Hmod.
  assert (Hq : Ti / 2 ^ n < 2 ^ (TIMEBINS - n)).
  { apply Z.div_lt_upper_bound; [exact Hpos|].
    rewrite <- Z.pow_add_r by lia. replace (n + (TIMEBINS - n)) with TIMEBINS by lia. lia. }
  assert (Hq0 : 0 <= Ti / 2 ^ n) by (apply Z.div_pos; lia).
  assert (Hsplit : 2 ^ TIMEBINS = 2 ^ (TIMEBINS - n) * 2 ^ n).
  { rewrite <- Z.pow_add_r by lia. f_equal. lia. }
  split; [split|]; nia.
Qed.

(** The candidate the loop computes for a populated bin is
    [Spec.next_kick_of_bin]. *)
Lemma ti_next_for_bin_spec (Ti n : Z) :
  0 <= Ti < TIMEBASE -> 0 <= n < TIMEBINS ->
  (if n >? 0
   then C.wrap32 (C.wrap32 (Z.quot Ti (dt_bin n) * dt_bin n) + dt_bin n)
   else Ti) = Spec.next_kick_of_bin Ti n
  /\ Ti <= Spec.next_kick_of_bin Ti n <= TIMEBASE
  /\ (0 < n -> Ti < Spec.next_kick_of_bin Ti n)
  /\ ((2 ^ n | Spec.next_kick_of_bin Ti n) \/ n = 0).
Proof.
  intros HTi Hn. unfold Spec.next_kick_of_bin.
  destruct (Z.gtb_spec n 0) as [Hpos|Hzero].
  - destruct (next_multiple Ti n HTi ltac:(lia)) as [Hnext Hfloor].
    assert (Hbase : 2 ^ TIMEBINS <= 2 ^ 30) by (apply pow2_le_TIMEBASE; lia).
    rewrite TIMEBASE_pow2 in *.
    rewrite (dt_bin_pow2 TIMEBINS_int) by lia.
    rewrite Z.quot_div_nonneg by (try apply pow2_pos; lia).
    rewrite (wrap32_small (Ti / 2 ^ n * 2 ^ n)) by (unfold C.INT_MIN, C.INT_MAX; lia).
    rewrite wrap32_small by (unfold C.INT_MIN, C.INT_MAX; lia).
    split; [lia|]. split; [lia|]. split; [lia|].
    left. exists (Ti / 2 ^ n + 1). reflexivity.
  - split; [reflexivity|]. split; [lia|]. split; [lia|]. right. lia.
Qed.

(** One pass of the loop keeps the earlier of its candidate and of the
    value it has. *)
Lemma next_kick_pass_spec (counts : list Z) (Ti acc k : Z) :
  0 <= Ti < TIMEBASE -> 0 <= k < TIMEBINS ->
  next_kick_pass counts Ti acc k
  = if C.rdi counts k =? 0 then acc else Z.min (Spec.next_kick_of_bin Ti k) acc.
Proof.
  intros HTi Hk. unfold next_kick_pass.
  destruct (ti_next_for_bin_spec Ti k HTi Hk) as (-> & _).
  destruct (C.rdi counts k =? 0); [reflexivity|].
  destruct (Z.ltb_spec (Spec.next_kick_of_bin Ti k) acc); lia.
Qed.

(** The loop over the bins leaves the earliest due time of the populated
    bins it has seen, or the value it started with. *)
Lemma next_kick_fold (counts : list Z) (Ti : Z) (l : list Z) :
  0 <= Ti < TIMEBASE ->
  (forall n, In n l -> 0 <= n < TIMEBINS) ->
  forall acc : Z,
    Ti <= acc <= TIMEBASE ->
    let r := fold_left (next_kick_pass counts Ti) l acc in
    Ti <= r <= acc
    /\ (r = acc \/ exists n, In n l /\ C.rdi counts n <> 0 /\ r = Spec.next_kick_of_bin Ti n)
    /\ (forall n, In n l -> C.rdi counts n <> 0 -> r <= Spec.next_kick_of_bin Ti n).
Proof.
  intros HTi. induction l as [|k l IH]; intros Hbins acc Hacc; cbn [fold_left]; cbv zeta.
  - split; [lia|]. split; [left; reflexivity|]. intros n [].
  - assert (Hk : 0 <= k < TIMEBINS) by (apply Hbins; left; reflexivity).
    destruct (ti_next_for_bin_spec Ti k HTi Hk) as (_ & Hrange & _).
    rewrite (next_kick_pass_spec counts Ti acc k HTi Hk).
    set (acc' := if C.rdi counts k =? 0 then acc
                 else Z.min (Spec.next_kick_of_bin Ti k) acc).
    assert (Hacc' : Ti <= acc' <= acc) by (subst acc'; destruct (C.rdi counts k =? 0); lia).
    destruct (IH (fun n Hn => Hbins n (or_intror Hn)) acc' ltac:(lia)) as (Hr & Hwho & Hmin).
    cbv zeta in Hr, Hwho, Hmin.
    set (r := fold_left (next_kick_pass counts Ti) l acc') in *.
    split; [lia|]. split.
    + destruct Hwho as [E | (n & Hn & Hc & E)].
      * subst acc'. destruct (Z.eqb_spec (C.rdi counts k) 0) as [Hempty|Hfull].
        -- left. exact E.
        -- destruct (Z.min_spec (Spec.next_kick_of_bin Ti k) acc) as [[_ Em]|[_ Em]];
             rewrite Em in E.
           ++ right. exists k. split; [left; reflexivity|]. split; assumption.
           ++ left. exact E.
      * right. exists n. split; [right; exact Hn|]. split; assumption.
    + intros n Hn Hc. destruct Hn as [Ek|Hn]; [|apply Hmin; assumption].
      subst n. subst acc'. destruct (Z.eqb_spec (C.rdi counts k) 0); [contradiction|]. lia.
Qed.

Lemma find_next_kick_spec (Ti : Z) (r : rank) :
  0 <= Ti < TIMEBASE ->
  let k := find_next_kick Ti r in
  Ti <= k <= TIMEBASE
  /\ (k = TIMEBASE
      \/ exists n, 0 <= n < TIMEBINS /\ Spec.populated r n /\ k = Spec.next_kick_of_bin Ti n)
  /\ (forall n, 0 <= n < TIMEBINS -> Spec.populated r n -> k <= Spec.next_kick_of_bin Ti n).
Proof.
  intros HTi. unfold find_next_kick.
  assert (Hstart : Ti <= TIMEBASE <= TIMEBASE) by lia.
  destruct (next_kick_fold (TimeBinCount r) Ti (bins_from 0) HTi
              (fun n Hn => proj1 (in_bins_from 0 n) Hn) TIMEBASE Hstart)
    as (Hr & Hwho & Hmin).
  cbv zeta. split; [exact Hr|]. split.
  - destruct Hwho as [E | (n & Hn & Hc & E)]; [left; exact E|].
    right. exists n. split; [apply in_bins_from; exact Hn|]. split; assumption.
  - intros n Hn Hc. apply Hmin; [apply in_bins_from; exact Hn | exact Hc].
Qed.

(** The minimum over the ranks is the value of one of them and exceeds
    none. *)
Lemma MPI_Allreduce_MIN_spec (others : list Z) :
  forall mine : Z,
    let m := MPI_Allreduce_MIN mine others in
    In m (mine :: others) /\ forall x, In x (mine :: others) -> m <= x.
Proof.
  unfold MPI_Allreduce_MIN.
  induction others as [|x others IH]; intros mine; cbn [fold_left].
  - split; [left; reflexivity|]. intros x [<-|[]]. lia.
  - destruct (IH (Z.min mine x)) as [Hin Hle]. cbv zeta. split.
    + destruct Hin as [E|Hin]; [|right; right; exact Hin].
      rewrite <- E. destruct (Z.min_spec mine x) as [[_ ->]|[_ ->]];
        [left | right; left]; reflexivity.
    + intros y Hy.
      assert (Hmin : fold_left Z.min others (Z.min mine x) <= Z.min mine x)
        by (apply Hle; left; reflexivity).
      destruct Hy as [<-|[<-|Hy]]; [lia | lia |].
      apply Hle. right. exact Hy.
Qed.

Lemma global_kick_spec (Ti TotNumPart : Z) (this : rank) (others : list rank) :
  0 <= Ti < TIMEBASE ->
  let ti := ti_next_kick_global (find_next_sync_point Ti TotNumPart this others) in
  Ti <= ti <= TIMEBASE
  /\ (ti = TIMEBASE
      \/ exists r n, In r (this :: others) /\ 0 <= n < TIMEBINS /\ Spec.populated r n
                     /\ ti = Spec.next_kick_of_bin Ti n)
  /\ (forall r n, In r (this :: others) -> 0 <= n < TIMEBINS -> Spec.populated r n ->
                  ti <= Spec.next_kick_of_bin Ti n).
Proof.
  intros HTi. cbn [find_next_sync_point ti_next_kick_global].
  destruct (MPI_Allreduce_MIN_spec (map (find_next_kick Ti) others) (find_next_kick Ti this))
    as [Hin Hle].
  cbv zeta in *.
  set (ti := MPI_Allreduce_MIN (find_next_kick Ti this) (map (find_next_kick Ti) others)) in *.
  change (find_next_kick Ti this :: map (find_next_kick Ti) others)
    with (map (find_next_kick Ti) (this :: others)) in *.
  apply in_map_iff in Hin. destruct Hin as (r0 & Er0 & Hr0).
  destruct (find_next_kick_spec Ti r0 HTi) as (Hrange & Hwho & _).
  rewrite Er0 in Hrange, Hwho.
  split; [exact Hrange|]. split.
  - destruct Hwho as [E | (n & Hn & Hp & E)]; [left; exact E|].
    right. exists r0, n. repeat split; assumption || lia.
  - intros r n Hr Hn Hp.
    destruct (find_next_kick_spec Ti r HTi) as (_ & _ & Hmin).
    specialize (Hmin n Hn Hp).
    assert (ti <= find_next_kick Ti r) by (apply Hle, in_map, Hr). lia.
Qed.

(** X12: with [TIMEBASE = 2^TIMEBINS] and [0 <= Ti_Current < TIMEBASE],
    the global kick time of [find_next_sync_point_and_drift] lies between
    [Ti_Current] and [TIMEBASE]; it is not later than the time at which
    any populated bin of any rank is due (bin 0 at [Ti_Current], bin
    [n > 0] at the next multiple of [2^n]); it is [TIMEBASE] or the due
    time of a populated bin; it is [Ti_Current] when a rank has particles
    in bin 0, and later than [Ti_Current] when none has. *)
Theorem kick_time_is_earliest_due_time (Ti_Current TotNumPart : Z)
    (this : rank) (others : list rank) :
  0 <= Ti_Current < TIMEBASE ->
  let ti := ti_next_kick_global (find_next_sync_point Ti_Current TotNumPart this others) in
  Ti_Current <= ti <= TIMEBASE
  /\ (forall r n, In r (this :: others) -> 0 <= n < TIMEBINS -> Spec.populated r n ->
                  ti <= Spec.next_kick_of_bin Ti_Current n)
  /\ (ti = TIMEBASE
      \/ exists r n, In r (this :: others) /\ 0 <= n < TIMEBINS /\ Spec.populated r n
                     /\ ti = Spec.next_kick_of_bin Ti_Current n)
  /\ ((exists r, In r (this :: others) /\ Spec.populated r 0) -> ti = Ti_Current)
  /\ ((forall r, In r (this :: others) -> ~ Spec.populated r 0) -> Ti_Current < ti).
Proof.
  intros HTi ti.
  destruct (global_kick_spec Ti_Current TotNumPart this others HTi) as (Hrange & Hwho & Hmin).
  fold ti in Hrange, Hwho, Hmin.
  split; [exact Hrange|]. split; [exact Hmin|]. split; [exact Hwho|]. split.
  - intros (r & Hr & Hp).
    assert (H0 : 0 <= 0 < TIMEBINS) by lia. specialize (Hmin r 0 Hr H0 Hp).
    change (Spec.next_kick_of_bin Ti_Current 0) with Ti_Current in Hmin. lia.
  - intros Hempty. destruct Hwho as [E | (r & n & Hr & Hn & Hp & E)]; [lia|].
    destruct (Z.eq_dec n 0) as [->|Hn0]; [exfalso; apply (Hempty r Hr Hp)|].
    destruct (ti_next_for_bin_spec Ti_Current n HTi Hn) as (_ & _ & Hlt & _).
    rewrite E. apply Hlt. lia.
Qed.

End KickTime.

(** ** run.c: the particles that are kicked *)

Section Sums.

Local Open Scope Z_scope.

Lemma sum_dominated {A : Type} (f g : A -> Z) (l : list A) :
  (forall x, In x l -> f x <= g x) ->
  Run.sumup_large_ints (map f l) <= Run.sumup_large_ints (map g l)
  /\ (Run.sumup_large_ints (map g l) <= Run.sumup_large_ints (map f l)
      <-> forall x, In x l -> f x = g x).
Proof.
  unfold Run.sumup_large_ints.
  induction l as [|a l IH]; intros Hle; cbn [map fold_right].
  - split; [lia|]. split; [intros _ x [] | lia].
  - assert (Ha : f a <= g a) by (apply Hle; left; reflexivity).
    destruct (IH (fun x Hx => Hle x (or_intror Hx))) as [Hsum Heq].
    split; [lia|]. split.
    + intros H x [<-|Hx]; [lia|]. apply Heq; [lia | exact Hx].
    + intros H. rewrite (H a) by (left; reflexivity).
      assert (fold_right Z.add 0 (map g l) <= fold_right Z.add 0 (map f l))
        by (apply Heq; intros x Hx; apply H; right; exact Hx).
      lia.
Qed.

Lemma sum_ge_term {A : Type} (f : A -> Z) (l : list A) (a : A) :
  (forall x, In x l -> 0 <= f x) -> In a l -> f a <= Run.sumup_large_ints (map f l).
Proof.
  unfold Run.sumup_large_ints.
  induction l as [|b l IH]; intros Hpos Ha; [destruct Ha|]. cbn [map fold_right].
  assert (Hrest : 0 <= fold_right Z.add 0 (map f l)).
  { clear IH Ha. induction l as [|c l IHl]; cbn [map fold_right]; [lia|].
    assert (0 <= f c) by (apply Hpos; right; left; reflexivity).
    assert (0 <= fold_right Z.add 0 (map f l)).
    { apply IHl. intros x [<-|Hx]; apply Hpos; [left | right; right]; auto. }
    lia. }
  destruct Ha as [<-|Ha]; [lia|].
  assert (0 <= f b) by (apply Hpos; left; reflexivity).
  assert (f a <= fold_right Z.add 0 (map f l))
    by (apply IH; [intros x Hx; apply Hpos; right; exact Hx | exact Ha]).
  lia.
Qed.

End Sums.

Section KickedParticles.

Import Run.
Local Open Scope Z_scope.

Context {TB : Timebins}.

Hypothesis TIMEBINS_range : 1 <= TIMEBINS <= 31.

(** The count of a rank, bin by bin. *)
Lemma NumForceUpdate_by_bin (ti : Z) (r : rank) :
  Spec.rank_ok r ->
  NumForceUpdate (mark_active_bins ti r)
  = Spec.total (fun n => if (n =? 0) || (Z.rem ti (2 ^ n) =? 0)
                         then C.rdi (TimeBinCount r) n else 0) (bins_from 0).
Proof.
  intros Hok.
  destruct (mark_active_bins_spec TIMEBINS_range ti r Hok) as (Hzero & Hbins & Hnum).
  rewrite Hnum. unfold Spec.particles_in_active_bins, Spec.total. f_equal.
  apply map_ext_in. intros n Hn. apply in_bins_from in Hn.
  destruct (Z.eqb_spec n 0) as [->|Hn0]; cbn [orb].
  - rewrite Hzero. reflexivity.
  - rewrite (Hbins n) by lia. destruct (Z.rem ti (2 ^ n) =? 0); reflexivity.
Qed.

Lemma rem_pow2_divide (ti n : Z) : 0 <= n -> (Z.rem ti (2 ^ n) =? 0) = true <-> (2 ^ n | ti).
Proof.
  intros Hn. assert (Hpow : 2 ^ n <> 0) by (apply Z.pow_nonzero; lia).
  rewrite Z.eqb_eq. apply Z.rem_divide. exact Hpow.
Qed.

(** X13: the bins that the marking loop marks active form an initial
    segment of the bins: when bin [n] is active after the loop, so is
    every bin [k <= n]. *)
Theorem active_bins_form_a_prefix (ti : Z) (r : rank) (n k : Z) :
  Spec.rank_ok r ->
  0 <= k <= n -> n < TIMEBINS ->
  C.rdi (Active (mark_active_bins ti r)) n = 1 ->
  C.rdi (Active (mark_active_bins ti r)) k = 1.
Proof.
  intros Hok Hk Hn Hactive.
  destruct (mark_active_bins_spec TIMEBINS_range ti r Hok) as (Hzero & Hbins & _).
  destruct (Z.eq_dec k 0) as [->|Hk0]; [exact Hzero|].
  rewrite (Hbins n) in Hactive by lia. rewrite (Hbins k) by lia.
  destruct (Z.rem ti (2 ^ n) =? 0) eqn:En; [|discriminate].
  apply rem_pow2_divide in En; [|lia].
  assert (Ek : (Z.rem ti (2 ^ k) =? 0) = true).
  { apply rem_pow2_divide; [lia|].
    apply Z.divide_trans with (2 ^ n); [|exact En].
    exists (2 ^ (n - k)). rewrite <- Z.pow_add_r by lia. f_equal. lia. }
  rewrite Ek. reflexivity.
Qed.

(** X14: when [TotNumPart] is the number of particles of all ranks, at
    most [TotNumPart] particles are kicked at the sync point;
    [Flag_FullStep] is 1 exactly when the kick time is a multiple of the
    step [2^n] of every populated bin [n >= 1] of every rank, and 0
    exactly when fewer than [TotNumPart] particles are kicked. *)
Theorem full_step_iff_every_particle_is_kicked (Ti_Current TotNumPart : Z)
    (this : rank) (others : list rank) :
  Forall Spec.rank_ok (this :: others) ->
  TotNumPart = sumup_large_ints
                 (map (fun r => Spec.total (C.rdi (TimeBinCount r)) (bins_from 0))
                      (this :: others)) ->
  let S := find_next_sync_point Ti_Current TotNumPart this others in
  GlobNumForceUpdate S <= TotNumPart
  /\ (Flag_FullStep S = 1
      <-> forall r n, In r (this :: others) -> 1 <= n < TIMEBINS -> Spec.populated r n ->
                      (2 ^ n | ti_next_kick_global S))
  /\ (Flag_FullStep S = 0 <-> GlobNumForceUpdate S < TotNumPart).
Proof.
  intros Hok Htot S.
  set (ti := ti_next_kick_global S).
  set (kicked := fun r : rank =>
                   Spec.total (fun n => if (n =? 0) || (Z.rem ti (2 ^ n) =? 0)
                                        then C.rdi (TimeBinCount r) n else 0) (bins_from 0)).
  set (held := fun r : rank => Spec.total (C.rdi (TimeBinCount r)) (bins_from 0)).
  assert (Hglob : GlobNumForceUpdate S = sumup_large_ints (map kicked (this :: others))).
  { change (GlobNumForceUpdate S)
      with (sumup_large_ints (map NumForceUpdate (map (mark_active_bins ti) (this :: others)))).
    rewrite map_map. f_equal. apply map_ext_in. intros r Hr.
    apply NumForceUpdate_by_bin. rewrite Forall_forall in Hok. apply Hok, Hr. }
  assert (Hbin : forall r, In r (this :: others) ->
             kicked r <= held r
             /\ (held r <= kicked r
                 <-> forall n, 1 <= n < TIMEBINS -> Spec.populated r n -> (2 ^ n | ti))).
  { intros r Hr. rewrite Forall_forall in Hok. destruct (Hok r Hr) as (_ & Hcounts & _).
    destruct (sum_dominated
                (fun n => if (n =? 0) || (Z.rem ti (2 ^ n) =? 0)
                          then C.rdi (TimeBinCount r) n else 0)
                (C.rdi (TimeBinCount r)) (bins_from 0)) as [Hle Heq].
    { intros n Hn. apply in_bins_from in Hn. specialize (Hcounts n Hn).
      destruct ((n =? 0) || (Z.rem ti (2 ^ n) =? 0)); lia. }
    split; [exact Hle|]. unfold held, kicked, Spec.total. rewrite Heq. split.
    - intros H n Hn Hp. specialize (H n ltac:(apply in_bins_from; lia)).
      apply rem_pow2_divide; [lia|].
      destruct (Z.eqb_spec n 0); [lia|]. cbn [orb] in H.
      destruct (Z.rem ti (2 ^ n) =? 0); [reflexivity|].
      exfalso. apply Hp. symmetry. exact H.
    - intros H n Hn. apply in_bins_from in Hn.
      destruct (Z.eqb_spec n 0) as [->|Hn0]; cbn [orb]; [reflexivity|].
      destruct (Z.eq_dec (C.rdi (TimeBinCount r) n) 0) as [E|Hp].
      + rewrite E. destruct (Z.rem ti (2 ^ n) =? 0); reflexivity.
      + assert (Ed : (Z.rem ti (2 ^ n) =? 0) = true)
          by (apply rem_pow2_divide; [lia | apply H; [lia | exact Hp]]).
        rewrite Ed. reflexivity. }
  destruct (sum_dominated kicked held (this :: others) (fun r Hr => proj1 (Hbin r Hr)))
    as [Hle Heq].
  fold (held) in Htot.
  assert (Hall : TotNumPart <= GlobNumForceUpdate S
                 <-> forall r n, In r (this :: others) -> 1 <= n < TIMEBINS ->
                                 Spec.populated r n -> (2 ^ n | ti)).
  { rewrite Hglob, Htot, Heq. split.
    - intros H r n Hr. apply (proj2 (Hbin r Hr)). rewrite (H r Hr). lia.
    - intros H r Hr. destruct (Hbin r Hr) as [Hk Hiff].
      assert (held r <= kicked r) by (apply Hiff; intros n; apply H; exact Hr). lia. }
  split; [rewrite Hglob, Htot; exact Hle|].
  change (Flag_FullStep S) with (if GlobNumForceUpdate S >=? TotNumPart then 1 else 0).
  destruct (Z.geb_spec (GlobNumForceUpdate S) TotNumPart) as [Hge|Hlt]; split.
  - split; [intros _; apply Hall; lia | reflexivity].
  - split; [discriminate | lia].
  - split; [discriminate|]. intros H. apply Hall in H. lia.
  - split; [intros _; exact Hlt | reflexivity].
Qed.

(** The counting loop of [ShouldWeDoDynamicUpdate] is the count of the
    marking loop. *)
Lemma count_pass_fold (counts : list Z) (ti : Z) (l : list Z) :
  forall m : marking,
    NumForceUpdate (fold_left (mark_pass counts ti) l m)
    = fold_left (count_pass counts ti) l (NumForceUpdate m).
Proof.
  induction l as [|k l IH]; intros m; cbn [fold_left]; [reflexivity|].
  rewrite IH. f_equal. unfold mark_pass, count_pass.
  destruct (Z.rem ti (dt_bin k) =? 0); reflexivity.
Qed.

End KickedParticles.

Section Prediction.

Import Run.
Local Open Scope Z_scope.

Context {TB : Timebins}.

(** X15: the number of force updates that [ShouldWeDoDynamicUpdate]
    predicts for the next step is the [GlobNumForceUpdate] that
    [find_next_sync_point_and_drift] computes from the same timebins; the
    function returns 0 exactly when the forces since the last domain
    decomposition plus this number reach
    [TreeDomainUpdateFrequency * TotNumPart], and 1 otherwise. *)
Theorem ShouldWeDoDynamicUpdate_guess_is_next_count (Ti_Current : Z)
    (NumForcesSinceLastDomainDecomp TotNumPart : Z) (TreeDomainUpdateFrequency : float)
    (this : rank) (others : list rank) :
  let guess := ShouldWeDoDynamicUpdate Ti_Current NumForcesSinceLastDomainDecomp TotNumPart
                 TreeDomainUpdateFrequency this others in
  let S := find_next_sync_point Ti_Current TotNumPart this others in
  fst guess = GlobNumForceUpdate S
  /\ (snd guess = 0
      <-> (double_of_int64 (wrap64 (NumForcesSinceLastDomainDecomp + GlobNumForceUpdate S))
           >=? TreeDomainUpdateFrequency * double_of_int64 TotNumPart)%float = true)
  /\ (snd guess = 0 \/ snd guess = 1).
Proof.
  intros guess S.
  assert (Hguess : fst guess = GlobNumForceUpdate S).
  { cbn [guess S ShouldWeDoDynamicUpdate find_next_sync_point fst GlobNumForceUpdate].
    rewrite map_map. f_equal. apply map_ext. intros r.
    unfold mark_active_bins, count_active_bins. symmetry. apply count_pass_fold. }
  split; [exact Hguess|].
  rewrite <- Hguess. subst guess. unfold ShouldWeDoDynamicUpdate. cbn [fst snd].
  match goal with |- context [if ?b then 0 else 1] => destruct b end.
  - split; [split; reflexivity | left; reflexivity].
  - split; [split; discriminate | right; reflexivity].
Qed.

End Prediction.

Section KickedAtSync.

Import Run.
Local Open Scope Z_scope.

Context {TB : Timebins}.

Hypothesis TIMEBINS_small : 1 <= TIMEBINS <= 30.
Hypothesis TIMEBASE_pow2 : TIMEBASE = 2 ^ TIMEBINS.

(** X16: when some rank has a particle, the sync point kicks at least
    one: [GlobNumForceUpdate] is positive, and a populated bin is marked
    active on its rank. *)
Theorem sync_point_kicks_a_particle (Ti_Current TotNumPart : Z)
    (this : rank) (others : list rank) :
  Forall Spec.rank_ok (this :: others) ->
  0 <= Ti_Current < TIMEBASE ->
  (exists r n, In r (this :: others) /\ 0 <= n < TIMEBINS /\ Spec.populated r n) ->
  let S := find_next_sync_point Ti_Current TotNumPart this others in
  0 < GlobNumForceUpdate S
  /\ exists r n, In r (this :: others) /\ 0 <= n < TIMEBINS /\ Spec.populated r n
                 /\ C.rdi (Active (mark_active_bins (ti_next_kick_global S) r)) n = 1.
Proof.
  intros Hok HTi Hsome S.
  assert (Hrange31 : 1 <= TIMEBINS <= 31) by lia.
  set (ti := ti_next_kick_global S).
  (* a populated bin that is due at [ti] *)
  assert (Hdue : exists r n, In r (this :: others) /\ 0 <= n < TIMEBINS /\ Spec.populated r n
                             /\ (n = 0 \/ (2 ^ n | ti))).
  { destruct (global_kick_spec TIMEBINS_small TIMEBASE_pow2 Ti_Current TotNumPart this others HTi)
      as (_ & Hwho & _).
    fold S in Hwho. fold ti in Hwho.
    destruct Hwho as [E | (r & n & Hr & Hn & Hp & E)].
    - destruct Hsome as (r & n & Hr & Hn & Hp). exists r, n.
      repeat (split; [assumption|]).
      right. rewrite E, TIMEBASE_pow2. apply pow2_divide. lia.
    - exists r, n. repeat (split; [assumption|]).
      destruct (ti_next_for_bin_spec TIMEBINS_small TIMEBASE_pow2 Ti_Current n HTi Hn)
        as (_ & _ & _ & [Hdiv|H0]); [right; rewrite E; exact Hdiv | left; exact H0]. }
  destruct Hdue as (r & n & Hr & Hn & Hp & Hdue).
  rewrite Forall_forall in Hok.
  destruct (mark_active_bins_spec Hrange31 ti r (Hok r Hr)) as (Hzero & Hbins & _).
  assert (Hactive : C.rdi (Active (mark_active_bins ti r)) n = 1).
  { destruct Hdue as [->|Hdiv]; [exact Hzero|].
    destruct (Z.eq_dec n 0) as [->|Hn0]; [exact Hzero|].
    rewrite (Hbins n) by lia.
    apply (rem_pow2_divide ti n) in Hdiv; [|lia]. rewrite Hdiv. reflexivity. }
  split; [|exists r, n; repeat (split; [assumption|]); exact Hactive].
  (* the count of the rank [r] *)
  assert (Hkicked : forall r', In r' (this :: others) ->
             0 <= NumForceUpdate (mark_active_bins ti r')).
  { intros r' Hr'. rewrite (NumForceUpdate_by_bin Hrange31 ti r' (Hok r' Hr')).
    apply total_nonneg. intros k Hk. apply in_bins_from in Hk.
    destruct (Hok r' Hr') as (_ & Hcounts & _). specialize (Hcounts k Hk).
    destruct ((k =? 0) || (Z.rem ti (2 ^ k) =? 0)); lia. }
  assert (Hr_count : 0 < NumForceUpdate (mark_active_bins ti r)).
  { rewrite (NumForceUpdate_by_bin Hrange31 ti r (Hok r Hr)).
    destruct (Hok r Hr) as (_ & Hcounts & _).
    set (f := fun k => if (k =? 0) || (Z.rem ti (2 ^ k) =? 0)
                       then C.rdi (TimeBinCount r) k else 0).
    assert (Hterm : f n <= Spec.total f (bins_from 0)).
    { apply (sum_ge_term f (bins_from 0) n); [|apply in_bins_from; lia].
      intros k Hk. apply in_bins_from in Hk. specialize (Hcounts k Hk). subst f. cbv beta.
      destruct ((k =? 0) || (Z.rem ti (2 ^ k) =? 0)); lia. }
    assert (Hfn : f n = C.rdi (TimeBinCount r) n).
    { subst f. cbv beta. destruct (Z.eq_dec n 0) as [->|Hn0]; [reflexivity|].
      rewrite (Hbins n) in Hactive by lia.
      destruct (Z.rem ti (2 ^ n) =? 0); [rewrite orb_true_r; reflexivity | discriminate]. }
    specialize (Hcounts n Hn). unfold Spec.populated in Hp. cbv beta in Hterm. lia. }
  change (GlobNumForceUpdate S)
    with (sumup_large_ints (map NumForceUpdate (map (mark_active_bins ti) (this :: others)))).
  rewrite map_map.
  pose proof (sum_ge_term (fun r' => NumForceUpdate (mark_active_bins ti r'))
                (this :: others) r Hkicked Hr) as Hsum.
  cbv beta in Hsum. lia.
Qed.

End KickedAtSync.

(** ** run.c: the output times and the snapshots *)

Section Snapshots.

Import Run.
Local Open Scope Z_scope.

Context {TB : Timebins} {LL : LibmLog}.

Variable OT : output_times.

Lemma scan_output_list_spec (ti_curr : Z) (times : list float) :
  let ti_next := scan_output_list OT times ti_curr in
  (ti_next = -1 /\ forall t, In t times -> Spec.in_run OT t -> output_ti OT t < ti_curr)
  \/ (exists before t after,
        times = (before ++ t :: after)%list /\ Spec.in_run OT t
        /\ ti_next = output_ti OT t /\ ti_curr <= ti_next
        /\ forall t', In t' before -> Spec.in_run OT t' -> output_ti OT t' < ti_curr).
Proof.
  induction times as [|t times IH]; cbn [scan_output_list]; cbv zeta.
  - left. split; [reflexivity|]. intros t [].
  - destruct ((t >=? TimeBegin OT) && (t <=? TimeMax OT))%float eqn:Hrun.
    + destruct (Z.geb_spec (output_ti OT t) ti_curr) as [Hge|Hlt].
      * right. exists [], t, times. split; [reflexivity|]. split; [exact Hrun|].
        split; [reflexivity|]. split; [lia|]. intros t' [].
      * destruct IH as [[E Hall] | (before & t0 & after & Esplit & Hrun0 & E & Hle & Hbefore)].
        -- left. split; [exact E|]. intros t' [<-|Ht'] Hr; [exact Hlt | apply Hall; assumption].
        -- right. exists (t :: before), t0, after. split; [rewrite Esplit; reflexivity|].
           split; [exact Hrun0|]. split; [exact E|]. split; [exact Hle|].
           intros t' [<-|Ht'] Hr; [exact Hlt | apply Hbefore; assumption].
    + destruct IH as [[E Hall] | (before & t0 & after & Esplit & Hrun0 & E & Hle & Hbefore)].
      * left. split; [exact E|].
        intros t' [<-|Ht'] Hr; [unfold Spec.in_run in Hr; congruence | apply Hall; assumption].
      * right. exists (t :: before), t0, after. split; [rewrite Esplit; reflexivity|].
        split; [exact Hrun0|]. split; [exact E|]. split; [exact Hle|].
        intros t' [<-|Ht'] Hr; [unfold Spec.in_run in Hr; congruence | apply Hbefore; assumption].
Qed.

(** X17: for [ti_curr >= 0], [find_next_outputtime] returns
    [2 * TIMEBASE] (as an [int]) when every output time of the list that
    lies between [TimeBegin] and [TimeMax] is before [ti_curr]; otherwise
    it returns the place on the time line of the first entry of the list
    that lies in the run and is not before [ti_curr]. *)
Theorem find_next_outputtime_first_listed (ti_curr : Z) :
  0 <= ti_curr ->
  let next := find_next_outputtime OT ti_curr in
  (next = C.wrap32 (2 * TIMEBASE)
   /\ forall t, In t (OutputListTimes OT) -> Spec.in_run OT t -> output_ti OT t < ti_curr)
  \/ (exists before t after,
        OutputListTimes OT = (before ++ t :: after)%list /\ Spec.in_run OT t
        /\ next = output_ti OT t /\ ti_curr <= next
        /\ forall t', In t' before -> Spec.in_run OT t' -> output_ti OT t' < ti_curr).
Proof.
  intros Hcurr next. subst next. unfold find_next_outputtime.
  destruct (scan_output_list_spec ti_curr (OutputListTimes OT))
    as [[E Hall] | (before & t & after & Esplit & Hrun & E & Hle & Hbefore)];
    cbv zeta in *.
  - rewrite E. cbn [Z.eqb]. left. split; [reflexivity | exact Hall].
  - destruct (Z.eqb_spec (scan_output_list OT (OutputListTimes OT) ti_curr) (-1)) as [Em|_];
      [lia|].
    right. exists before, t, after. repeat (split; [assumption|]). exact Hbefore.
Qed.

(** The next output time never lies before the time asked for. *)
Lemma find_next_outputtime_ge (ti_curr : Z) :
  find_next_outputtime OT ti_curr = C.wrap32 (2 * TIMEBASE)
  \/ ti_curr <= find_next_outputtime OT ti_curr.
Proof.
  unfold find_next_outputtime.
  destruct (scan_output_list_spec ti_curr (OutputListTimes OT))
    as [[E _] | (_ & _ & _ & _ & _ & _ & Hle & _)]; cbv zeta in *.
  - rewrite E. left. reflexivity.
  - destruct (scan_output_list OT (OutputListTimes OT) ti_curr =? -1);
      [left; reflexivity | right; exact Hle].
Qed.

Hypothesis TIMEBASE_int : 0 < TIMEBASE /\ 2 * TIMEBASE <= C.INT_MAX.

Lemma StronglySorted_snoc {A : Type} (R : A -> A -> Prop) (l : list A) (x : A) :
  StronglySorted R l -> Forall (fun a => R a x) l -> StronglySorted R (l ++ [x]).
Proof.
  induction 1 as [|a l Hs IH Hlt]; intros Hall; cbn [app].
  - constructor; constructor.
  - inversion Hall as [|? ? Ha Hall']; subst.
    constructor; [apply IH; exact Hall'|].
    apply Forall_app. split; [exact Hlt|]. constructor; [exact Ha | constructor].
Qed.

Lemma write_pending_snapshots_spec (stopflag ti : Z) (budget : nat) :
  forall st : snapshots,
    ti <= TIMEBASE ->
    ti - Z.max 0 (Ti_nextoutput st) + 2 <= Z.of_nat budget ->
    (1 <= budget)%nat ->
    exists (st' : snapshots) (new : list (Z * Z * Z)),
      write_pending_snapshots OT budget stopflag ti st = Done st'
      /\ saved st' = (new ++ saved st)%list
      /\ (ti < Ti_nextoutput st' \/ Ti_nextoutput st' < 0)
      /\ Forall (fun e => Ti_nextoutput st <= Spec.saved_at e <= ti /\ 0 <= Spec.saved_at e
                          /\ snd e = stopflag) new
      /\ StronglySorted (fun a b => Spec.saved_at b < Spec.saved_at a) new
      /\ (0 <= Ti_nextoutput st <= ti ->
          exists later, new = (later ++ [(Ti_nextoutput st, SnapshotFileCount st, stopflag)])%list).
Proof.
  destruct TIMEBASE_int as [Hbase Hint].
  induction budget as [|budget IH]; intros st Hti Hbudget Hone; [lia|].
  cbn [write_pending_snapshots].
  destruct (Z.geb_spec ti (Ti_nextoutput st)) as [Hdue|Hnot]; cbn [andb].
  - destruct (Z.geb_spec (Ti_nextoutput st) 0) as [Hpos|Hneg].
    + set (T := Ti_nextoutput st) in *.
      assert (Hwrap : C.wrap32 (T + 1) = T + 1)
        by (apply wrap32_small; unfold C.INT_MIN, C.INT_MAX in *; lia).
      rewrite Hwrap.
      set (st1 := mk_snapshots (find_next_outputtime OT (T + 1))
                               (C.wrap32 (SnapshotFileCount st + 1))
                               ((T, SnapshotFileCount st, stopflag) :: saved st)).
      assert (Hnext : Ti_nextoutput st1 = 2 * TIMEBASE \/ T + 1 <= Ti_nextoutput st1).
      { destruct (find_next_outputtime_ge (T + 1)) as [E|Hle]; [left | right; exact Hle].
        cbn [st1 Ti_nextoutput]. rewrite E.
        apply wrap32_small. unfold C.INT_MIN, C.INT_MAX in *. lia. }
      destruct (Z.leb_spec (Ti_nextoutput st1) ti) as [Hmore|Hdone].
      * (* another snapshot is pending *)
        destruct (IH st1 Hti ltac:(lia) ltac:(lia))
          as (st' & new & Hrun & Hsaved & Hexit & Hall & Hsorted & Hfirst).
        exists st', (new ++ [(T, SnapshotFileCount st, stopflag)])%list.
        split; [exact Hrun|]. split.
        { rewrite Hsaved. cbn [st1 saved]. rewrite <- app_assoc. reflexivity. }
        split; [exact Hexit|]. split.
        { apply Forall_app. split.
          - eapply Forall_impl; [|exact Hall]. cbv beta. intros e He. lia.
          - constructor; [|constructor]. unfold Spec.saved_at. cbn [fst snd]. lia. }
        split.
        { apply StronglySorted_snoc; [exact Hsorted|].
          eapply Forall_impl; [|exact Hall]. cbv beta. intros e He.
          unfold Spec.saved_at at 1. cbn [fst]. lia. }
        intros _. exists new. reflexivity.
      * (* the loop is left *)
        destruct budget as [|budget']; [lia|].
        exists st1, [(T, SnapshotFileCount st, stopflag)].
        split.
        { cbn [write_pending_snapshots].
          destruct (Z.geb_spec ti (Ti_nextoutput st1)); [lia | reflexivity]. }
        split; [reflexivity|]. split; [left; exact Hdone|]. split.
        { constructor; [|constructor]. unfold Spec.saved_at. cbn [fst snd]. lia. }
        split; [constructor; constructor|].
        intros _. exists []. reflexivity.
    + exists st, []. split; [reflexivity|]. split; [reflexivity|]. split; [right; lia|].
      split; [constructor|]. split; [constructor | intros H; lia].
  - exists st, []. split; [reflexivity|]. split; [reflexivity|]. split; [left; lia|].
    split; [constructor|]. split; [constructor | intros H; lia].
Qed.

(** X18: for a kick time [ti] between 0 and [TIMEBASE], the loop that
    writes the pending snapshots ends within [ti + 2] passes and leaves
    the next output time behind [ti] (or negative).  Each snapshot it
    writes is at a time between the former [Ti_nextoutput] and [ti], with
    the stop flag it was given; the times increase strictly from one
    snapshot to the next; and when a snapshot was pending
    ([0 <= Ti_nextoutput <= ti]) the first one written is at
    [Ti_nextoutput], in the file [SnapshotFileCount]. *)
Theorem pending_snapshots_are_written (stopflag ti : Z) (budget : nat) (st : snapshots) :
  0 <= ti <= TIMEBASE ->
  ti + 2 <= Z.of_nat budget ->
  exists (st' : snapshots) (new : list (Z * Z * Z)),
    write_pending_snapshots OT budget stopflag ti st = Done st'
    /\ saved st' = (new ++ saved st)%list
    /\ (ti < Ti_nextoutput st' \/ Ti_nextoutput st' < 0)
    /\ Forall (fun e => Ti_nextoutput st <= Spec.saved_at e <= ti /\ 0 <= Spec.saved_at e
                        /\ snd e = stopflag) new
    /\ StronglySorted (fun a b => Spec.saved_at b < Spec.saved_at a) new
    /\ (0 <= Ti_nextoutput st <= ti ->
        exists later,
          new = (later ++ [(Ti_nextoutput st, SnapshotFileCount st, stopflag)])%list).
Proof.
  intros Hti Hbudget. apply write_pending_snapshots_spec; lia.
Qed.

End Snapshots.

(** ** run.c: a request to stop *)

Section StopRequest.

Import Run.
Local Open Scope Z_scope.

Context {TB : Timebins} {LL : LibmLog}.

Variable OT : output_times.

(** [2 * TIMEBASE] is an [int]. *)
Hypothesis TIMEBINS_small : 1 <= TIMEBINS <= 29.
Hypothesis TIMEBASE_pow2 : TIMEBASE = 2 ^ TIMEBINS.



(** At the end of the run ([All.Ti_Current] has reached [TIMEBASE], or
    [All.Time] lies behind [All.TimeMax]) the loop is left whatever the
    flag: [run] writes the last snapshot with the flag 0 and returns. *)
Lemma end_of_run_writes_last_snapshot (budget : nat) (Ti_Current : Z) (Time : float)
    (TotNumPart : Z) (this : rank) (others : list rank) (c : run_control) (d : output_dir)
    (st : snapshots) :
  (Ti_Current <? TIMEBASE) && (Time <=? TimeMax OT)%float = false ->
  exists (st' : snapshots),
    run_interaction_and_sync OT budget Ti_Current Time TotNumPart this others c d st
    = Done (human_interaction c d, st', true)
    /\ saved st' = (Ti_Current, SnapshotFileCount st, 0) :: saved st
    /\ SnapshotFileCount st' = C.wrap32 (SnapshotFileCount st + 1).
Proof.
  intros Hend. unfold run_interaction_and_sync. rewrite Hend.
  destruct (human_interaction c d) as [[flag c'] d'].
  eexists. split; [reflexivity|].
  destruct (flag =? 0); split; reflexivity.
Qed.

End StopRequest.

(** ** run.c: the list of active particles *)

Section ActiveListFacts.

Import Run.
Local Open Scope Z_scope.

Context {TB : Timebins}.

Lemma link_bin_spec (nxt : list Z) (budget : nat) :
  forall (i : Z) (l : list Z) (k : linking),
    Spec.chain nxt i l -> (List.length l < budget)%nat ->
    link_bin budget nxt i k = Done (fold_left link_pass l k).
Proof.
  induction budget as [|budget IH]; intros i l k Hchain Hbudget; [lia|].
  cbn [link_bin]. inversion Hchain as [? Hneg | ? l' Hrange Hrest]; subst.
  - destruct (Z.geb_spec i 0); [lia | reflexivity].
  - destruct (Z.geb_spec i 0); [|lia]. cbn [fold_left].
    apply IH; [exact Hrest | cbn [List.length] in Hbudget; lia].
Qed.

Lemma link_bins_spec (budget : nat) (TimeBinActive : list Z) (L : bin_lists)
    (members : Z -> list Z) (bins : list Z) :
  (forall n, In n bins ->
     Spec.chain (NextInTimeBin L) (C.rdi (FirstInTimeBin L) n) (members n)) ->
  (forall n, In n bins -> C.rdi TimeBinActive n <> 0 -> (List.length (members n) < budget)%nat) ->
  forall k : linking,
    link_bins budget TimeBinActive L bins k
    = Done (fold_left link_pass
              (List.concat (map members
                 (filter (fun n => negb (C.rdi TimeBinActive n =? 0)) bins))) k).
Proof.
  induction bins as [|n bins IH]; intros Hchains Hbudget k; [reflexivity|].
  cbn [link_bins filter].
  destruct (Z.eqb_spec (C.rdi TimeBinActive n) 0) as [Hoff|Hon]; cbn [negb bind].
  - apply IH; intros m Hm; [apply Hchains | apply Hbudget]; right; exact Hm.
  - rewrite (link_bin_spec _ _ _ (members n));
      [| apply Hchains; left; reflexivity | apply Hbudget; [left; reflexivity | exact Hon]].
    cbn [bind map List.concat]. rewrite fold_left_app.
    apply IH; intros m Hm; [apply Hchains | apply Hbudget]; right; exact Hm.
Qed.

Lemma last_as_nth (a : list Z) (d : Z) :
  a <> [] -> last a d = nth (List.length a - 1) a d.
Proof.
  induction a as [|x a IH]; intros Hne; [contradiction|].
  destruct a as [|y a]; [reflexivity|].
  change (last (x :: y :: a) d) with (last (y :: a) d).
  rewrite IH by discriminate. cbn [List.length].
  replace (S (S (List.length a)) - 1)%nat with (S (S (List.length a) - 1)) by lia.
  reflexivity.
Qed.

(** What the linking has done after the particles [a]. *)
Lemma fold_link_pass_spec (NA : list Z) (a : list Z) :
  NoDup a ->
  Forall (fun i => 0 <= i < Z.of_nat (List.length NA)) a ->
  let k := fold_left link_pass a (mk_linking (-1) NA (-1)) in
  List.length (link_next k) = List.length NA
  /\ match a with
     | [] => k = mk_linking (-1) NA (-1)
     | x :: _ => link_first k = x /\ link_prev k = last a 0
     end
  /\ Spec.links (link_next k) a.
Proof.
  induction a as [|i a IH] using rev_ind; intros Hnodup Hrange; cbv zeta.
  - cbn [fold_left link_next]. split; [reflexivity|]. split; [reflexivity|].
    intros j Hj. cbn [List.length] in Hj. lia.
  - apply NoDup_remove in Hnodup. rewrite app_nil_r in Hnodup.
    destruct Hnodup as [Hnodup Hnew].
    apply Forall_app in Hrange. destruct Hrange as [Hrange Hi].
    inversion Hi as [|? ? Hirange _]; subst.
    destruct (IH Hnodup Hrange) as (Hlen & Hhead & Hlinks). cbv zeta in Hlen, Hhead, Hlinks.
    rewrite fold_left_app. cbn [fold_left].
    set (k := fold_left link_pass a (mk_linking (-1) NA (-1))) in *.
    destruct a as [|x a'].
    + rewrite Hhead. cbn [app link_pass link_first link_next link_prev Z.eqb Z.geb Z.compare].
      unfold link_pass. cbn [link_first link_next link_prev].
      split; [reflexivity|]. split; [split; reflexivity|].
      intros j Hj. cbn [List.length] in Hj. lia.
    + destruct Hhead as [Hfirst Hprev].
      set (a := x :: a') in *.
      assert (Hnonempty : (1 <= List.length a)%nat) by (subst a; cbn [List.length]; lia).
      assert (Hp_in : In (last a 0) a).
      { rewrite last_as_nth by discriminate. apply nth_In. lia. }
      assert (Hp : 0 <= last a 0 < Z.of_nat (List.length NA)).
      { rewrite Forall_forall in Hrange. apply Hrange, Hp_in. }
      unfold link_pass. rewrite Hprev.
      destruct (Z.eqb_spec (last a 0) (-1)) as [E|_]; [lia|].
      destruct (Z.geb_spec (last a 0) 0) as [_|Hneg]; [|lia].
      cbn [link_first link_next link_prev].
      split; [rewrite upd_length; exact Hlen|].
      split; [split; [exact Hfirst | rewrite last_last; reflexivity]|].
      intros j Hj. rewrite length_app in Hj. cbn [List.length] in Hj.
      destruct (Nat.eq_dec (S j) (List.length a)) as [Elast|Hinner].
      * rewrite app_nth1 by lia. rewrite app_nth2 by lia.
        replace (S j - List.length a)%nat with O by lia. cbn [nth].
        replace j with (List.length a - 1)%nat by lia.
        rewrite <- last_as_nth by discriminate.
        apply rdi_upd_same. lia.
      * rewrite !app_nth1 by lia.
        rewrite rdi_upd_other; [apply Hlinks; lia|].
        rewrite last_as_nth by discriminate. intros E.
        apply (proj1 (NoDup_nth a 0) Hnodup) in E; lia.
Qed.

(** Links that end with a negative index make a list. *)
Lemma links_chain (nxt : list Z) :
  forall (a : list Z) (x : Z),
    Spec.links nxt (x :: a) ->
    Forall (fun i => 0 <= i < Z.of_nat (List.length nxt)) (x :: a) ->
    C.rdi nxt (last (x :: a) 0) < 0 ->
    Spec.chain nxt x (x :: a).
Proof.
  induction a as [|y a IH]; intros x Hlinks Hrange Hend;
    inversion Hrange as [|? ? Hx Hrest]; subst.
  - apply Spec.chain_step; [exact Hx|]. apply Spec.chain_end. exact Hend.
  - apply Spec.chain_step; [exact Hx|].
    assert (Hxy : C.rdi nxt x = y) by (apply (Hlinks O); cbn [List.length]; lia).
    rewrite Hxy. apply IH; [|exact Hrest | exact Hend].
    intros j Hj. apply (Hlinks (S j)). cbn [List.length] in *. lia.
Qed.

Lemma drift_active_spec (nxt : list Z) (budget : nat) :
  forall (i : Z) (l drifted : list Z) (num : Z),
    Spec.chain nxt i l -> (List.length l < budget)%nat ->
    0 <= num -> num + Z.of_nat (List.length l) <= C.INT_MAX ->
    drift_active budget nxt i drifted num
    = Done ((rev l ++ drifted)%list, num + Z.of_nat (List.length l)).
Proof.
  induction budget as [|budget IH]; intros i l drifted num Hchain Hbudget Hnum Hmax; [lia|].
  cbn [drift_active]. inversion Hchain as [? Hneg | ? l' Hrange Hrest]; subst.
  - destruct (Z.geb_spec i 0); [lia|]. cbn [rev app List.length]. f_equal. f_equal. lia.
  - destruct (Z.geb_spec i 0); [|lia]. cbn [List.length] in Hbudget, Hmax.
    rewrite wrap32_small by (unfold C.INT_MIN, C.INT_MAX in *; lia).
    rewrite (IH _ l') by (try assumption; lia).
    cbn [rev List.length]. rewrite <- app_assoc. cbn [app]. f_equal. f_equal. lia.
Qed.

Lemma concat_member_length (ls : list (list Z)) (l : list Z) :
  In l ls -> (List.length l <= List.length (List.concat ls))%nat.
Proof.
  induction ls as [|l0 ls IH]; intros Hin; [destruct Hin|].
  cbn [List.concat]. rewrite length_app. destruct Hin as [<-|Hin]; [lia|].
  specialize (IH Hin). lia.
Qed.

Lemma chain_range (nxt : list Z) (i : Z) (l : list Z) :
  Spec.chain nxt i l -> Forall (fun x => 0 <= x < Z.of_nat (List.length nxt)) l.
Proof.
  induction 1 as [|i l Hrange _ IH]; constructor; assumption.
Qed.

(** The loops that link and drift the active particles, on lists that
    are well formed. *)
Lemma link_and_drift_spec (budget : nat) (TimeBinActive : list Z) (L : bin_lists)
    (members : Z -> list Z) :
  let active := Spec.active_particles TimeBinActive members in
  (forall n, 0 <= n < TIMEBINS ->
     Spec.chain (NextInTimeBin L) (C.rdi (FirstInTimeBin L) n) (members n)) ->
  List.length (NextActiveParticle L) = List.length (NextInTimeBin L) ->
  NoDup active ->
  (List.length active < budget)%nat ->
  Z.of_nat (List.length active) <= C.INT_MAX ->
  exists L' : bin_lists,
    link_and_drift budget TimeBinActive L
    = Done (L', rev active, Z.of_nat (List.length active))
    /\ Spec.chain (NextActiveParticle L') (FirstActiveParticle L') active
    /\ FirstInTimeBin L' = FirstInTimeBin L /\ NextInTimeBin L' = NextInTimeBin L.
Proof.
  intros active. subst active.
  remember (Spec.active_particles TimeBinActive members) as active eqn:Eparticles.
  intros Hchains Hlen Hnodup Hbudget Hmax.
  assert (Hrange : Forall (fun i => 0 <= i < Z.of_nat (List.length (NextActiveParticle L)))
                          active).
  { rewrite Eparticles. unfold Spec.active_particles. rewrite Forall_forall. intros i Hi.
    apply in_concat in Hi. destruct Hi as (l & Hl & Hi).
    apply in_map_iff in Hl. destruct Hl as (n & <- & Hn).
    unfold Spec.active_bins in Hn. apply filter_In in Hn. destruct Hn as [Hn _].
    apply in_bins_from in Hn. rewrite Hlen.
    pose proof (chain_range _ _ _ (Hchains n Hn)) as Hr.
    rewrite Forall_forall in Hr. apply Hr, Hi. }
  unfold link_and_drift, link_active_particles.
  rewrite (link_bins_spec budget TimeBinActive L members).
  2:{ intros n Hn. apply Hchains. apply in_bins_from in Hn. exact Hn. }
  2:{ intros n Hn Hon. apply Nat.le_lt_trans with (List.length active); [|exact Hbudget].
      rewrite Eparticles. apply concat_member_length. apply in_map. unfold Spec.active_bins.
      apply filter_In. split; [exact Hn|]. apply negb_true_iff, Z.eqb_neq, Hon. }
  fold (Spec.active_bins TimeBinActive). fold (Spec.active_particles TimeBinActive members).
  rewrite <- Eparticles. cbn [bind]. clear Eparticles.
  destruct (fold_link_pass_spec (NextActiveParticle L) active Hnodup Hrange)
    as (Hklen & Hhead & Hlinks).
  cbv zeta in Hklen, Hhead, Hlinks.
  set (k := fold_left link_pass active (mk_linking (-1) (NextActiveParticle L) (-1))) in *.
  destruct active as [|x rest].
  - rewrite Hhead. cbn [link_prev link_next link_first Z.geb Z.compare].
    cbn [FirstActiveParticle NextActiveParticle].
    destruct budget as [|budget']; [inversion Hbudget|].
    cbn [drift_active Z.geb Z.compare bind rev List.length Z.of_nat].
    eexists. split; [reflexivity|]. cbn [FirstActiveParticle NextActiveParticle FirstInTimeBin NextInTimeBin].
    split; [apply Spec.chain_end; lia|].
    split; reflexivity.
  - destruct Hhead as [Hfirst Hprev].
    set (a := x :: rest) in *.
    assert (Hnonempty : (1 <= List.length a)%nat) by (subst a; cbn [List.length]; lia).
    assert (Hp_in : In (last a 0) a).
    { rewrite last_as_nth by discriminate. apply nth_In. lia. }
    assert (Hp : 0 <= last a 0 < Z.of_nat (List.length (NextActiveParticle L))).
    { rewrite Forall_forall in Hrange. apply Hrange, Hp_in. }
    rewrite Hprev. destruct (Z.geb_spec (last a 0) 0) as [_|Hneg]; [|lia].
    rewrite Hfirst. cbn [FirstActiveParticle NextActiveParticle].
    set (next := C.upd (link_next k) (last a 0) (-1)).
    assert (Hchain : Spec.chain next x a).
    { apply links_chain.
      - intros j Hj. change (x :: rest) with a in Hj |- *.
        subst next. rewrite rdi_upd_other; [apply Hlinks; exact Hj|].
        rewrite last_as_nth by discriminate. intros E.
        apply (proj1 (NoDup_nth a 0) Hnodup) in E; lia.
      - subst next. rewrite upd_length, Hklen. exact Hrange.
      - change (x :: rest) with a. subst next. rewrite rdi_upd_same by lia. lia. }
    rewrite (drift_active_spec next budget x a [] 0 Hchain Hbudget) by lia.
    cbn [bind]. rewrite app_nil_r, Z.add_0_l.
    eexists. split; [reflexivity|]. split; [exact Hchain|]. split; reflexivity.
Qed.

(** X20: when the list of each timebin [n] (from [FirstInTimeBin[n]]
    along [NextInTimeBin]) holds the particles [members n] and no
    particle is in two active bins, the loop over the bins links exactly
    the particles of the active bins, bin after bin and in the order of
    their lists, into the list that starts at [FirstActiveParticle] and
    follows [NextActiveParticle]; the loop over that list drifts each of
    them once, in this order, and counts them; the timebin lists are as
    before. *)
Theorem active_list_holds_the_active_bins (budget : nat) (TimeBinActive : list Z)
    (L : bin_lists) (members : Z -> list Z) :
  let active := Spec.active_particles TimeBinActive members in
  (forall n, 0 <= n < TIMEBINS ->
     Spec.chain (NextInTimeBin L) (C.rdi (FirstInTimeBin L) n) (members n)) ->
  List.length (NextActiveParticle L) = List.length (NextInTimeBin L) ->
  NoDup active ->
  (List.length active < budget)%nat ->
  Z.of_nat (List.length active) <= C.INT_MAX ->
  exists L' : bin_lists,
    link_and_drift budget TimeBinActive L
    = Done (L', rev active, Z.of_nat (List.length active))
    /\ Spec.chain (NextActiveParticle L') (FirstActiveParticle L') active
    /\ FirstInTimeBin L' = FirstInTimeBin L /\ NextInTimeBin L' = NextInTimeBin L.
Proof.
  apply link_and_drift_spec.
Qed.

Lemma active_particles_length (TimeBinActive : list Z) (members : Z -> list Z)
    (bins : list Z) :
  Z.of_nat (List.length (List.concat (map members
              (filter (fun n => negb (C.rdi TimeBinActive n =? 0)) bins))))
  = Spec.total (fun n => if C.rdi TimeBinActive n =? 0 then 0
                         else Z.of_nat (List.length (members n))) bins.
Proof.
  induction bins as [|n bins IH]; [reflexivity|].
  cbn [filter]. rewrite total_cons.
  destruct (C.rdi TimeBinActive n =? 0); cbn [negb]; [lia|].
  cbn [map List.concat]. rewrite length_app. lia.
Qed.

Hypothesis TIMEBINS_range : 1 <= TIMEBINS <= 31.

(** X21: on a single rank whose [TimeBinCount] is the length of the list
    of each bin, the number of particles that the loop over the active
    list finds is the [NumForceUpdate] of the marking loop, which is
    [GlobNumForceUpdate]: the consistency check at the end of
    [find_next_sync_point_and_drift] does not stop the run. *)
Theorem recount_agrees_with_marking (budget : nat) (Ti_Current TotNumPart : Z)
    (r : rank) (L : bin_lists) (members : Z -> list Z) :
  let S := find_next_sync_point Ti_Current TotNumPart r [] in
  let m := mark_active_bins (ti_next_kick_global S) r in
  let active := Spec.active_particles (Active m) members in
  Spec.rank_ok r ->
  (forall n, 0 <= n < TIMEBINS ->
     Spec.chain (NextInTimeBin L) (C.rdi (FirstInTimeBin L) n) (members n)
     /\ C.rdi (TimeBinCount r) n = Z.of_nat (List.length (members n))) ->
  List.length (NextActiveParticle L) = List.length (NextInTimeBin L) ->
  NoDup active ->
  (List.length active < budget)%nat ->
  exists L' : bin_lists,
    link_and_drift budget (Active m) L = Done (L', rev active, NumForceUpdate m)
    /\ Spec.chain (NextActiveParticle L') (FirstActiveParticle L') active
    /\ GlobNumForceUpdate S = NumForceUpdate m
    /\ check_numforces (GlobNumForceUpdate S) [NumForceUpdate m] = Done tt.
Proof.
  intros S m active Hok Hbins Hlen Hnodup Hbudget.
  assert (Hcount : Z.of_nat (List.length active) = NumForceUpdate m).
  { destruct (mark_active_bins_spec TIMEBINS_range (ti_next_kick_global S) r Hok)
      as (_ & _ & Hnum).
    fold m in Hnum. rewrite Hnum. unfold active, Spec.active_particles, Spec.active_bins.
    rewrite active_particles_length. unfold Spec.particles_in_active_bins, Spec.total.
    f_equal. apply map_ext_in. intros n Hn. apply in_bins_from in Hn.
    destruct (Hbins n Hn) as [_ ->]. reflexivity. }
  assert (Hmax : Z.of_nat (List.length active) <= C.INT_MAX).
  { rewrite Hcount. destruct Hok as (Hlen_r & Hcounts & Htotal).
    assert (Hok' : Spec.rank_ok r) by (repeat split; assumption).
    unfold m. rewrite (NumForceUpdate_by_bin TIMEBINS_range (ti_next_kick_global S) r Hok').
    destruct (sum_dominated
                (fun n => if (n =? 0) || (Z.rem (ti_next_kick_global S) (2 ^ n) =? 0)
                          then C.rdi (TimeBinCount r) n else 0)
                (C.rdi (TimeBinCount r)) (bins_from 0)) as [Hle _].
    { intros n Hn. apply in_bins_from in Hn. specialize (Hcounts n Hn).
      destruct ((n =? 0) || (Z.rem (ti_next_kick_global S) (2 ^ n) =? 0)); lia. }
    unfold Spec.total in *. lia. }
  destruct (link_and_drift_spec budget (Active m) L members
              (fun n Hn => proj1 (Hbins n Hn)) Hlen Hnodup Hbudget Hmax)
    as (L' & Hrun & Hchain & _).
  fold active in Hrun, Hchain. rewrite Hcount in Hrun.
  exists L'. split; [exact Hrun|]. split; [exact Hchain|].
  assert (Hglob : GlobNumForceUpdate S = NumForceUpdate m).
  { subst S m. cbn [find_next_sync_point GlobNumForceUpdate ti_next_kick_global map
                    sumup_large_ints fold_right]. lia. }
  split; [exact Hglob|].
  unfold check_numforces. cbn [sumup_large_ints fold_right].
  rewrite Hglob, Z.add_0_r, Z.eqb_refl. reflexivity.
Qed.

End ActiveListFacts.

(** ** gravtree.c: the walk and its exports *)

Section WalkFacts.

Import GravTree.

Context {TM : TreeModule}.

Variable All : All_t.
Variables shortrange_table shortrange_table_potential : list float.
Variable input : TreeWalkQueryGravity.

(** A node that is a particle or an internal node is never exported. *)
Lemma visit_node_decision (mode : Z) (t : tree) (no : Z) :
  snd (visit_node All input mode t no) <> ExportFailed.
Proof.
  unfold visit_node.
  repeat match goal with
         | |- context [if ?b then _ else _] => destruct b
         | |- context [match ?o with Some _ => _ | None => _ end] => destruct o
         end; cbn [snd]; discriminate.
Qed.

Lemma visit_particle_decision (t : tree) (no : Z) :
  snd (visit_particle All input t no) <> ExportFailed.
Proof.
  unfold visit_particle. destruct (separation input _) as [[[dx dy] dz] r2].
  cbn [snd]. discriminate.
Qed.

(** The export buffers change, and the walk can fail, at a pseudo
    particle in mode 0 only. *)
Lemma visit_exports (mode : Z) (t : tree) (lv : export_buffers) (no : Z) :
  let '(t', lv', d) := visit All input mode t lv no in
  (mode <> 0%Z -> lv' = lv /\ d <> ExportFailed)
  /\ (d = ExportFailed ->
      mode = 0%Z /\ (no >=? MaxPart All + MaxNodes)%Z = true
      /\ treewalk_export_particle lv no = (lv', (-1)%Z) /\ t' = t).
Proof.
  unfold visit.
  destruct (no <? MaxPart All)%Z.
  - pose proof (visit_particle_decision t no) as Hd.
    destruct (visit_particle All input t no) as [t' d]. cbn [snd] in Hd.
    split; [intros _; split; [reflexivity | exact Hd] | intros E; contradiction].
  - destruct (no >=? MaxPart All + MaxNodes)%Z.
    + destruct (Z.eqb_spec mode 0) as [Hmode|Hmode].
      * destruct (treewalk_export_particle lv no) as [lv' res] eqn:Eexp.
        destruct (Z.eqb_spec res (-1)) as [->|Hres].
        -- split; [intros H; contradiction|]. intros _. repeat split; assumption.
        -- split; [intros H; contradiction | discriminate].
      * split; [intros _; split; [reflexivity | discriminate] | discriminate].
    + pose proof (visit_node_decision mode t no) as Hd.
      destruct (visit_node All input mode t no) as [t' d]. cbn [snd] in Hd.
      split; [intros _; split; [reflexivity | exact Hd] | intros E; contradiction].
Qed.

Lemma interact_keeps (w : walk_state) (next : Z) (dx dy dz r2 mass h : float) (t : tree) :
  let w' := interact All shortrange_table shortrange_table_potential w next dx dy dz r2 mass h t in
  w_lv w' = w_lv w /\ w_listindex w' = w_listindex w /\ w_nnodesinlist w' = w_nnodesinlist w
  /\ w_tree w' = t /\ w_no w' = next
  /\ (w_ninteractions w' = w_ninteractions w
      \/ w_ninteractions w' = C.wrap32 (w_ninteractions w + 1)).
Proof.
  unfold interact.
  destruct (if sqrt r2 >=? h then _ else _) as [fac facpot].
  destruct (C.int_of_double (asmthfac All * sqrt r2) <? NTAB)%Z.
  - destruct (w_acc w) as [[ax ay] az]. cbn.
    repeat (split; [reflexivity|]). right. reflexivity.
  - cbn. repeat (split; [reflexivity|]). left. reflexivity.
Qed.

(** Outside mode 0 nothing is exported and the walk does not fail. *)
Lemma walk_without_export (mode : Z) (budget : nat) :
  mode <> 0%Z ->
  forall (w w' : walk_state) (finished : bool),
    walk All shortrange_table shortrange_table_potential input mode budget w
    = Done (finished, w') ->
    finished = true /\ w_lv w' = w_lv w.
Proof.
  intros Hmode.
  induction budget as [|budget IH]; intros w w' finished; cbn [walk]; [discriminate|].
  destruct (w_no w >=? 0)%Z.
  - pose proof (visit_exports mode (w_tree w) (w_lv w) (w_no w)) as Hv.
    destruct (visit All input mode (w_tree w) (w_lv w) (w_no w)) as [[t lv] d].
    destruct Hv as [Hkeep _]. destruct (Hkeep Hmode) as [-> Hd].
    destruct d as [|next| |next|next|next dx dy dz r2 mass h]; try contradiction;
      intros H; apply IH in H; [exact H | exact H | exact H | exact H |].
    destruct (interact_keeps w next dx dy dz r2 mass h t) as (Hlv & _).
    cbv zeta in Hlv. rewrite Hlv in H. exact H.
  - assert (Hlv : w_lv (next_in_nodelist input w) = w_lv w).
    { unfold next_in_nodelist.
      destruct (w_listindex w <? NODELISTLENGTH)%Z; [|reflexivity].
      destruct (C.rdi (NodeList input) (w_listindex w) >=? 0)%Z; reflexivity. }
    destruct (w_no (next_in_nodelist input w) >=? 0)%Z.
    + intros H. apply IH in H. rewrite Hlv in H. exact H.
    + intros H. injection H as <- <-. split; [reflexivity | exact Hlv].
Qed.

(** X22: a walk that is not in mode 0 exports nothing: when
    [force_treeev_shortrange] returns, the export buffers are as they
    were, [*output] is written and the result is its [Ninteractions]. *)
Theorem walk_exports_in_mode_0_only (mode : Z) (budget : nat) (t t' : tree)
    (lv lv' : export_buffers) (out : option TreeWalkResultGravity) (res : Z) :
  mode <> 0%Z ->
  force_treeev_shortrange All shortrange_table shortrange_table_potential input mode budget t lv
  = Done (t', lv', out, res) ->
  lv' = lv /\ exists o : TreeWalkResultGravity, out = Some o /\ res = Ninteractions o.
Proof.
  intros Hmode. unfold force_treeev_shortrange.
  match goal with
  | |- bind (if ?c then ?m else _) _ = _ -> _ =>
      destruct c; [destruct m as [[finished w]| |] eqn:Ewalk |]
  end; cbn [bind]; try discriminate.
  - apply (walk_without_export mode budget Hmode) in Ewalk. destruct Ewalk as [-> Hlv].
    intros H. injection H as <- <- <- <-. cbn [w_lv] in Hlv.
    split; [exact Hlv|]. eexists. split; reflexivity.
  - intros H. injection H as <- <- <- <-. split; [reflexivity|].
    eexists. split; reflexivity.
Qed.

(** The counters of the walk stay in range. *)
Lemma walk_counters (mode : Z) (budget : nat) :
  forall (w w' : walk_state) (finished : bool) (bound : Z),
    (1 <= NODELISTLENGTH <= C.INT_MAX)%Z ->
    (bound + Z.of_nat budget <= C.INT_MAX)%Z ->
    Spec.counters_ok bound w ->
    walk All shortrange_table shortrange_table_potential input mode budget w
    = Done (finished, w') ->
    Spec.counters_ok (bound + Z.of_nat budget) w'.
Proof.
  induction budget as [|budget IH]; intros w w' finished bound Hlist Hbound Hok;
    cbn [walk]; [discriminate|].
  destruct Hok as (Hidx & Hnodes & Hcount).
  assert (Hstep : forall w1 : walk_state,
             w_listindex w1 = w_listindex w -> w_nnodesinlist w1 = w_nnodesinlist w ->
             (w_ninteractions w1 = w_ninteractions w
              \/ w_ninteractions w1 = C.wrap32 (w_ninteractions w + 1)) ->
             Spec.counters_ok (bound + 1) w1).
  { intros w1 E1 E2 E3. unfold Spec.counters_ok. rewrite E1, E2.
    split; [exact Hidx|]. split; [exact Hnodes|].
    destruct E3 as [->| ->]; [lia|].
    rewrite wrap32_small by (unfold C.INT_MIN, C.INT_MAX in *; lia). lia. }
  assert (Hgoto : forall next t lv, Spec.counters_ok (bound + 1) (goto w next t lv)).
  { intros next t lv. apply Hstep; [reflexivity | reflexivity | left; reflexivity]. }
  assert (Hrest : forall w1 : walk_state,
             Spec.counters_ok (bound + 1) w1 ->
             walk All shortrange_table shortrange_table_potential input mode budget w1
             = Done (finished, w') ->
             Spec.counters_ok (bound + Z.of_nat (S budget)) w').
  { intros w1 Hw1 Hrun.
    replace (bound + Z.of_nat (S budget))%Z with (bound + 1 + Z.of_nat budget)%Z by lia.
    apply (IH w1 w' finished (bound + 1)%Z Hlist); [lia | exact Hw1 | exact Hrun]. }
  destruct (w_no w >=? 0)%Z.
  - destruct (visit All input mode (w_tree w) (w_lv w) (w_no w)) as [[t lv] d].
    destruct d as [|next| |next|next|next dx dy dz r2 mass h].
    + intros H. injection H as _ <-.
      destruct (Hgoto (w_no w) t lv) as (A & B & C0).
      split; [exact A|]. split; [exact B|]. lia.
    + apply Hrest, Hgoto.
    + apply Hrest, Hgoto.
    + apply Hrest, Hgoto.
    + apply Hrest, Hgoto.
    + apply Hrest.
      destruct (interact_keeps w next dx dy dz r2 mass h t) as (_ & E1 & E2 & _ & _ & E3).
      apply Hstep; assumption.
  - assert (Hnext : Spec.counters_ok (bound + 1) (next_in_nodelist input w)).
    { unfold next_in_nodelist.
      destruct (Z.ltb_spec (w_listindex w) NODELISTLENGTH) as [Hlt|Hge].
      - destruct (C.rdi (NodeList input) (w_listindex w) >=? 0)%Z; [|apply Hgoto].
        unfold Spec.counters_ok. cbn [w_listindex w_nnodesinlist w_ninteractions].
        rewrite !wrap32_small by (unfold C.INT_MIN, C.INT_MAX in *; lia).
        split; [lia|]. split; [lia|]. lia.
      - apply Hstep; [reflexivity | reflexivity | left; reflexivity]. }
    destruct (w_no (next_in_nodelist input w) >=? 0)%Z.
    + apply Hrest, Hnext.
    + intros H. injection H as _ <-.
      destruct Hnext as (A & B & C0). split; [exact A|]. split; [exact B|]. lia.
Qed.

(** X23: when the walk returns, [listindex] lies between 1 and
    [NODELISTLENGTH], [nnodesinlist] is [listindex - 1] (the entries of
    the node list opened after the first), and [ninteractions] lies
    between 0 and the number of passes of the loop: no counter wraps
    around. *)
Theorem walk_counters_stay_in_range (mode : Z) (budget : nat) (no : Z) (t : tree)
    (lv : export_buffers) (finished : bool) (w' : walk_state) :
  (1 <= NODELISTLENGTH <= C.INT_MAX)%Z ->
  (Z.of_nat budget <= C.INT_MAX)%Z ->
  walk All shortrange_table shortrange_table_potential input mode budget
       (mk_walk no (0, 0, 0) 0 0 0 1 t lv)
  = Done (finished, w') ->
  (1 <= w_listindex w' <= NODELISTLENGTH)%Z
  /\ w_nnodesinlist w' = (w_listindex w' - 1)%Z
  /\ (0 <= w_ninteractions w' <= Z.of_nat budget)%Z.
Proof.
  intros Hlist Hbudget Hrun.
  apply (walk_counters mode budget _ _ _ 0%Z Hlist) in Hrun; [exact Hrun | lia |].
  unfold Spec.counters_ok. cbn [w_listindex w_nnodesinlist w_ninteractions]. lia.
Qed.

(** X24: [force_treeev_shortrange] returns -1 exactly when it leaves
    [*output] unwritten (an export found no room); otherwise its result
    is the [Ninteractions] it has written, which is not negative. *)
Theorem walk_result_is_unambiguous (mode : Z) (budget : nat) (t t' : tree)
    (lv lv' : export_buffers) (out : option TreeWalkResultGravity) (res : Z) :
  (1 <= NODELISTLENGTH <= C.INT_MAX)%Z ->
  (Z.of_nat budget <= C.INT_MAX)%Z ->
  force_treeev_shortrange All shortrange_table shortrange_table_potential input mode budget t lv
  = Done (t', lv', out, res) ->
  (out = None <-> res = (-1)%Z)
  /\ (forall o : TreeWalkResultGravity,
        out = Some o -> res = Ninteractions o /\ (0 <= res <= Z.of_nat budget)%Z).
Proof.
  intros Hlist Hbudget. unfold force_treeev_shortrange.
  match goal with
  | |- bind (if ?c then ?m else _) _ = _ -> _ =>
      destruct c; [destruct m as [[finished w]| |] eqn:Ewalk |]
  end; cbn [bind]; try discriminate.
  - assert (Hcount : (0 <= w_ninteractions w <= 0 + Z.of_nat budget)%Z).
    { apply (walk_counters mode budget _ _ _ 0%Z Hlist) in Ewalk;
        [exact (proj2 (proj2 Ewalk)) | lia |].
      unfold Spec.counters_ok. cbn [w_listindex w_nnodesinlist w_ninteractions]. lia. }
    destruct finished; intros H; injection H as <- <- <- <-.
    + split; [split; [discriminate | lia]|].
      intros o Ho. injection Ho as <-. cbn [Ninteractions]. split; [reflexivity | lia].
    + split; [split; reflexivity | discriminate].
  - intros H. injection H as <- <- <- <-.
    split; [split; [discriminate | intros H; discriminate H]|].
    intros o Ho. injection Ho as <-. cbn [Ninteractions]. split; [reflexivity | lia].
Qed.

(** X25: with the relative opening criterion ([All.ErrTolTheta == 0]), a
    cell of several particles that is not beyond the cutoff and whose
    centre is closer than [0.6 * len] to the target in each coordinate is
    opened, whatever its mass and its distance: the walk goes on with
    [nextnode] (a top-level node in mode 1 apart). *)
Theorem relative_criterion_opens_enclosing_cell (mode : Z) (t : tree) (no : Z) :
  let t' := force_drift_node t no (Ti_Current All) in
  let nop := Nodes t' no in
  let r2 := snd (separation input (s nop)) in
  (ErrTolTheta All <>? 0) = false ->
  ((mode =? 1)%Z && flag_set (bitflags (Nodes t no)) BITFLAG_TOPLEVEL) = false ->
  flag_set (bitflags (Nodes t no)) BITFLAG_MULTIPLEPARTICLES = true ->
  outside_cutoff All input nop r2 = false ->
  (abs (fst (fst (center nop)) - pos_x input) <? 0.60 * len nop) = true ->
  (abs (snd (fst (center nop)) - pos_y input) <? 0.60 * len nop) = true ->
  (abs (snd (center nop) - pos_z input) <? 0.60 * len nop) = true ->
  opening_criterion All input nop r2 (mass nop) = true
  /\ visit_node All input mode t no = (t', OpenCell (nextnode nop)).
Proof.
  intros t' nop r2 Hrel Htop Hmulti Hcut Hx Hy Hz.
  assert (Hopen : opening_criterion All input nop r2 (mass nop) = true).
  { unfold opening_criterion. rewrite Hrel, Hx, Hy, Hz.
    destruct (mass nop * len nop * len nop >? r2 * r2 * aold All input); reflexivity. }
  split; [exact Hopen|].
  unfold visit_node. rewrite Htop, Hmulti. fold t'. fold nop.
  change (negb true) with false. cbv iota.
  unfold separation in r2. cbv zeta in r2. cbn [snd] in r2. fold r2.
  rewrite Hcut. cbv zeta. fold r2. rewrite Hopen. reflexivity.
Qed.

End WalkFacts.

(** ** The cooling on sample inputs *)

Section CoolingSamples.

Local Open Scope float_scope.

Lemma sample_tables_ok : Spec.table_ok Samples.empty_table /\ Spec.table_ok Samples.former_table.
Proof. split; intros k; do 6 (destruct k as [|k]; [reflexivity|]); reflexivity. Qed.

(** A file of five records and a record of zero rates: five entries are
    counted, and the last of them holds the rate of the fifth record as
    a [float] has it. *)
Lemma ReadIonizeParams_counts_leading_rows_witness :
  exists t' : ionize_table,
    @ReadIonizeParams Samples.treecool_trailing_zero "TREECOOL" Samples.empty_table = Done t'
    /\ nheattab t' = 5%Z
    /\ Spec.table_ok t'
    /\ (gH0 t').[4] = C.float_of_double 4.0e-13.
Proof.
  destruct (@ReadIonizeParams_counts_leading_rows Samples.treecool_trailing_zero
              "TREECOOL" Samples.empty_table Samples.five_rows
              [[3; 0; 0; 0; 0; 0; 0]])
    as (t' & Hread & Hn & Hok & Hrows).
  - exact (proj1 sample_tables_ok).
  - reflexivity.
  - repeat constructor.
  - vm_compute. discriminate.
  - intros _. reflexivity.
  - exists t'. split; [exact Hread|]. split; [exact Hn|]. split; [exact Hok|].
    apply (Hrows 4%Z 1%nat); [rewrite Hn; unfold Samples.five_rows; cbn; lia | lia].
Defined.

(** The file of three records read over arrays of zeros and over arrays
    that hold 100.0 everywhere: the same UV background at a = 0.5. *)
Lemma UV_background_ignores_former_table_witness :
  exists t1' t2' : ionize_table,
    @ReadIonizeParams Samples.treecool_file "TREECOOL" Samples.empty_table = Done t1'
    /\ @ReadIonizeParams Samples.treecool_file "TREECOOL" Samples.former_table = Done t2'
    /\ @IonizeParamsTable Samples.coarse_libm t1' 0.5
       = @IonizeParamsTable Samples.coarse_libm t2' 0.5.
Proof.
  eexists. eexists.
  split; [vm_compute; reflexivity|]. split; [vm_compute; reflexivity|].
  eapply (@UV_background_ignores_former_table Samples.treecool_file Samples.coarse_libm
            "TREECOOL" _ Samples.empty_table Samples.former_table).
  - exact (proj1 sample_tables_ok).
  - exact (proj2 sample_tables_ok).
  - reflexivity.
  - repeat constructor.
  - vm_compute. reflexivity.
  - vm_compute. reflexivity.
Defined.

(** The flat grid, at 10^0.5 K, below its floor of 10 K. *)
Lemma PrimordialCoolingRate_floor_witness :
  @PrimordialCoolingRate Samples.coarse_libm Samples.flat_grid 0.5 1.0e-3 Samples.uv_on 1 0
  = @PrimordialCoolingRate Samples.coarse_libm Samples.flat_grid
      (Tmin Samples.flat_grid + 0.5 * deltaT Samples.flat_grid) 1.0e-3 Samples.uv_on 1 0.
Proof.
  apply (@PrimordialCoolingRate_floor Samples.coarse_libm Samples.flat_grid 0.5).
  reflexivity.
Defined.

(** The flat grid at 10^9.5 K, under a UV background that heats. *)
Lemma PrimordialCoolingRate_above_table_witness :
  @PrimordialCoolingRate Samples.coarse_libm Samples.flat_grid 9.5 1.0e-3 Samples.uv_hot 0.5 0
  = Done (0 - (@Spec.free_free_cooling_ionized Samples.coarse_libm 9.5
               + @Spec.Compton_cooling_ionized Samples.coarse_libm 9.5 1.0e-3 0),
          1.0 + 2.0 * YHELIUM).
Proof.
  apply (@PrimordialCoolingRate_above_table Samples.coarse_libm Samples.flat_grid 9.5);
    reflexivity.
Defined.

(** The flat grid at 10^5 K: with the UV background at density 10^-3, and
    without it at density 1, from another guess and other rates. *)
Lemma rates_depend_on_temperature_only_witness :
  exists (y1' y2' : abundance) (r1' r2' : rates),
    find_abundances_and_rates Samples.flat_grid 5.0 1.0e-3 Samples.uv_on
      Samples.no_guess rates_indeterminate = Done (y1', r1')
    /\ find_abundances_and_rates Samples.flat_grid 5.0 1.0 UVBG_zero
         (with_ne Samples.no_guess 0.3) (mk_rates 1 2 3 4 5 6 7 8 9 10) = Done (y2', r2')
    /\ r1' = r2'.
Proof.
  do 4 eexists.
  split; [vm_compute; reflexivity|]. split; [vm_compute; reflexivity|].
  eapply (rates_depend_on_temperature_only Samples.flat_grid 5.0 1.0e-3 1.0
           Samples.uv_on UVBG_zero Samples.no_guess (with_ne Samples.no_guess 0.3)
           _ _ rates_indeterminate (mk_rates 1 2 3 4 5 6 7 8 9 10));
    vm_compute; reflexivity.
Defined.

(** A density that is not a number: the abundance iteration does not
    converge, and [DoCooling] stops with error 13. *)
Lemma cooling_fatal_codes_witness :
  @DoCooling Samples.macros Samples.no_files Samples.coarse_libm 10 Samples.flat_globals
    1.0e12 nan 1.0e10 Samples.uv_on 1 0 1 = Fatal 13
  /\ (13 = 10 \/ 13 = 12 \/ 13 = 13)%Z.
Proof.
  assert (H : @DoCooling Samples.macros Samples.no_files Samples.coarse_libm 10
                Samples.flat_globals 1.0e12 nan 1.0e10 Samples.uv_on 1 0 1 = Fatal 13)
    by (vm_compute; reflexivity).
  split; [exact H|].
  exact (proj1 (@cooling_fatal_codes Samples.macros Samples.no_files Samples.coarse_libm 10
                  Samples.flat_globals 1.0e12 nan 1.0e10 Samples.uv_on 1 0 0 0 1 13%Z) H).
Defined.

(** The globals without metal table, at metallicity 0 and 0.02. *)
Lemma metallicity_ignored_without_metal_table_witness :
  @DoCooling Samples.macros Samples.no_files Samples.coarse_libm 10 Samples.flat_globals
    1.0e12 1.0e-27 1.0e10 Samples.uv_on 1 0 1
  = @DoCooling Samples.macros Samples.no_files Samples.coarse_libm 10 Samples.flat_globals
      1.0e12 1.0e-27 1.0e10 Samples.uv_on 1 0.02 1
  /\ @GetCoolingTime Samples.macros Samples.no_files Samples.coarse_libm Samples.flat_globals
       1.0e12 1.0e-27 Samples.uv_on 1 0 1
     = @GetCoolingTime Samples.macros Samples.no_files Samples.coarse_libm Samples.flat_globals
         1.0e12 1.0e-27 Samples.uv_on 1 0.02 1.
Proof.
  apply (@metallicity_ignored_without_metal_table Samples.macros Samples.no_files
           Samples.coarse_libm Samples.flat_globals).
  discriminate.
Defined.

(** A directory without files, and the name TREECOOL. *)
Lemma unreadable_TreeCool_stops_InitCool_witness :
  @InitCool Samples.no_files Samples.coarse_libm globals_at_start 1 1
    "TREECOOL" no_file no_file 1 1 1 1 0
  = Fatal 456.
Proof.
  apply (@unreadable_TreeCool_stops_InitCool Samples.no_files Samples.coarse_libm).
  - discriminate.
  - discriminate.
  - reflexivity.
Defined.

(** The TREECOOL file of three rows, and no other file name. *)
Lemma InitCool_follows_file_names_witness :
  exists G : @cooling_globals Samples.treecool_file,
    @InitCool Samples.treecool_file Samples.coarse_libm globals_at_start 1 1
      "TREECOOL" no_file no_file 1 1 1 1 0 = Done G
    /\ CoolingNoPrimordial G = 0%Z
    /\ CoolingNoMetal G = 1%Z
    /\ UVF_disabled (UVF G) = 1%Z
    /\ GlobalUVBG G = @IonizeParamsTable Samples.coarse_libm (ionize G) 1.
Proof.
  destruct (@InitCool_reads_TreeCool Samples.treecool_file Samples.coarse_libm
              globals_at_start 1 1 "TREECOOL" _ 1 1 1 1 0 eq_refl) as [G HG].
  exists G. split; [exact HG|].
  destruct (@InitCool_follows_file_names Samples.treecool_file Samples.coarse_libm
              globals_at_start G 1 1 "TREECOOL" no_file no_file 1 1 1 1 0)
    as (_ & Htree & Hmetal & _ & Huvf & _).
  - discriminate.
  - exact HG.
  - destruct Htree as (Hprim & _ & Huv); [discriminate|].
    destruct (Hmetal eq_refl) as [Hm _].
    split; [exact Hprim|]. split; [exact Hm|]. split; [exact (Huvf eq_refl) | exact Huv].
Defined.

(** Cooling off, with a TREECOOL name that is never opened. *)
Lemma InitCool_off_is_inert_witness :
  exists G : @cooling_globals Samples.no_files,
    @InitCool Samples.no_files Samples.coarse_libm globals_at_start 0 1
      "TREECOOL" no_file no_file 1 1 1 1 0 = Done G
    /\ CoolingNoPrimordial G = 1%Z
    /\ ionize G = ionize (@globals_at_start Samples.no_files)
    /\ @DoCooling Samples.macros Samples.no_files Samples.coarse_libm 10 G
         1.0e12 1.0e-27 1.0e10 Samples.uv_on 1 0 1 = Done (0, 1).
Proof.
  destruct (@InitCool_off_is_inert Samples.macros Samples.no_files Samples.coarse_libm
              globals_at_start 1 "TREECOOL" no_file no_file 1 1 1 1 0)
    as (G & HG & Hprim & _ & _ & _ & _ & Hionize & _ & _ & _ & Hcool).
  exists G. split; [exact HG|]. split; [exact Hprim|]. split; [exact Hionize|].
  exact (proj1 (Hcool 10%nat 1.0e12 1.0e-27 1.0e10 Samples.uv_on 1 0 1)).
Defined.

(** The globals with primordial cooling and without UV fluctuations: the
    background of a particle is the one set at a = 0.5. *)
Lemma IonizeParams_depends_on_last_time_only_witness :
  @GetParticleUVBG Samples.no_files
    (@IonizeParams Samples.no_files Samples.coarse_libm Samples.flat_globals 0.5) [] 1
  = @IonizeParamsTable Samples.coarse_libm (ionize Samples.flat_globals) 0.5.
Proof.
  destruct (@IonizeParams_depends_on_last_time_only Samples.no_files Samples.coarse_libm
              Samples.flat_globals 0.5 1) as (_ & _ & _ & Huv).
  apply Huv; [reflexivity | discriminate].
Defined.

End CoolingSamples.

(** ** The run on sample ranks *)

Section RunSamples.

Import Run.
Local Open Scope Z_scope.

#[local] Existing Instance Samples.timebins29.
#[local] Existing Instance Samples.coarse_log.


Lemma timebins29_30 : 1 <= TIMEBINS <= 30.
Proof. cbn. lia. Qed.

Lemma timebins29_31 : 1 <= TIMEBINS <= 31.
Proof. cbn. lia. Qed.

Lemma timebins29_pow2 : TIMEBASE = 2 ^ TIMEBINS.
Proof. reflexivity. Qed.

Lemma timebins29_int : 0 < TIMEBASE /\ 2 * TIMEBASE <= C.INT_MAX.
Proof. split; [reflexivity | discriminate]. Qed.

Lemma sample_rank_ok (counts active : list Z) :
  Z.of_nat (List.length active) = 29 ->
  forallb (fun x => 0 <=? x) counts = true ->
  (Spec.total (C.rdi counts) (bins_from 0) <=? C.INT_MAX) = true ->
  Spec.rank_ok (mk_rank counts active).
Proof.
  intros Hlen Hpos Hsum. split; [exact Hlen|]. split.
  - intros n _. apply rdi_nonneg. apply Forall_forall. intros x Hx.
    rewrite forallb_forall in Hpos. apply Z.leb_le, Hpos, Hx.
  - apply Z.leb_le. exact Hsum.
Qed.

Lemma sample_ranks_ok : Forall Spec.rank_ok [Samples.rank_a; Samples.rank_b; Samples.rank_c].
Proof. repeat constructor; apply sample_rank_ok; reflexivity. Qed.

(** A check over the bins, run, gives the property for every bin. *)
Lemma bins_check (b : Z -> bool) (P : Z -> Prop) :
  (forall n, b n = true -> P n) ->
  forallb b (bins_from 0) = true ->
  forall n, 0 <= n < TIMEBINS -> P n.
Proof.
  intros Hb Hall n Hn. apply Hb. rewrite forallb_forall in Hall.
  apply Hall. apply in_bins_from. exact Hn.
Qed.

(** A list that [follow_ends] accepts is a chain. *)
Lemma follow_chain (next : list Z) (budget : nat) :
  forall i : Z, Samples.follow_ends budget next i = true ->
                Spec.chain next i (Samples.follow budget next i).
Proof.
  induction budget as [|budget IH]; intros i H; cbn [Samples.follow_ends] in H;
    [discriminate|].
  cbn [Samples.follow]. destruct (Z.ltb_spec i 0) as [Hneg|Hpos].
  - constructor. exact Hneg.
  - cbn [orb] in H. apply andb_prop in H. destruct H as [Hlt Hrest].
    constructor; [apply Z.ltb_lt in Hlt; lia | apply IH; exact Hrest].
Qed.

Lemma lists_c_chains :
  forall n : Z,
  0 <= n < TIMEBINS ->
  Spec.chain (NextInTimeBin Samples.lists_c) (C.rdi (FirstInTimeBin Samples.lists_c) n)
             (Samples.members_c n)
  /\ C.rdi (TimeBinCount Samples.rank_c) n = Z.of_nat (List.length (Samples.members_c n)).
Proof.
  apply (bins_check
           (fun n => Samples.follow_ends 8 (NextInTimeBin Samples.lists_c)
                       (C.rdi (FirstInTimeBin Samples.lists_c) n)
                     && (C.rdi (TimeBinCount Samples.rank_c) n
                         =? Z.of_nat (List.length (Samples.members_c n))))
           (fun n => Spec.chain (NextInTimeBin Samples.lists_c)
                       (C.rdi (FirstInTimeBin Samples.lists_c) n) (Samples.members_c n)
                     /\ C.rdi (TimeBinCount Samples.rank_c) n
                        = Z.of_nat (List.length (Samples.members_c n)))).
  - intros k Hk. apply andb_prop in Hk. destruct Hk as [Hchain Hcount]. split.
    + apply follow_chain. exact Hchain.
    + apply Z.eqb_eq. exact Hcount.
  - vm_compute. reflexivity.
Qed.

Lemma NoDup_2301 : NoDup [2; 3; 0; 1].
Proof.
  repeat (constructor; [intros H; repeat (destruct H as [H|H]; [discriminate H|]); exact H|]).
  constructor.
Qed.

(** Two ranks at [Ti_Current = 8]: the first has particles in bin 0, so
    the kick time is 8. *)
Lemma kick_time_is_earliest_due_time_witness :
  ti_next_kick_global (find_next_sync_point 8 28 Samples.rank_a [Samples.rank_b]) = 8.
Proof.
  destruct (kick_time_is_earliest_due_time
              timebins29_30 timebins29_pow2
              8 28 Samples.rank_a [Samples.rank_b])
    as (_ & _ & _ & Hnow & _).
  - cbn. lia.
  - apply Hnow. exists Samples.rank_a. split; [left; reflexivity|].
    vm_compute. discriminate.
Defined.

(** At the time 8 the bin 3 is active, and so is the bin 2. *)
Lemma active_bins_form_a_prefix_witness :
  C.rdi (Active (mark_active_bins 8 Samples.rank_a)) 3 = 1
  /\ C.rdi (Active (mark_active_bins 8 Samples.rank_a)) 2 = 1.
Proof.
  assert (H3 : C.rdi (Active (mark_active_bins 8 Samples.rank_a)) 3 = 1) by reflexivity.
  split; [exact H3|].
  apply (active_bins_form_a_prefix timebins29_31 8 Samples.rank_a 3 2).
  - apply (Forall_inv sample_ranks_ok).
  - lia.
  - cbn. lia.
  - exact H3.
Defined.

(** Two ranks with 28 particles at [Ti_Current = 8]. *)
Lemma full_step_iff_every_particle_is_kicked_witness :
  let S := find_next_sync_point 8 28 Samples.rank_a [Samples.rank_b] in
  GlobNumForceUpdate S <= 28
  /\ (Flag_FullStep S = 1
      <-> forall r n, In r [Samples.rank_a; Samples.rank_b] -> 1 <= n < TIMEBINS ->
                      Spec.populated r n -> (2 ^ n | ti_next_kick_global S))
  /\ (Flag_FullStep S = 0 <-> GlobNumForceUpdate S < 28).
Proof.
  apply (full_step_iff_every_particle_is_kicked timebins29_31 8 28
           Samples.rank_a [Samples.rank_b]).
  - constructor; [apply (Forall_inv sample_ranks_ok)|].
    constructor; [apply (Forall_inv (Forall_inv_tail sample_ranks_ok)) | constructor].
  - reflexivity.
Defined.

(** Two ranks at [Ti_Current = 8]; the second has particles in bin 1. *)
Lemma sync_point_kicks_a_particle_witness :
  let S := find_next_sync_point 8 28 Samples.rank_a [Samples.rank_b] in
  0 < GlobNumForceUpdate S
  /\ exists r n, In r [Samples.rank_a; Samples.rank_b] /\ 0 <= n < TIMEBINS
                 /\ Spec.populated r n
                 /\ C.rdi (Active (mark_active_bins (ti_next_kick_global S) r)) n = 1.
Proof.
  apply (sync_point_kicks_a_particle
           timebins29_30 timebins29_pow2
           8 28 Samples.rank_a [Samples.rank_b]).
  - constructor; [apply (Forall_inv sample_ranks_ok)|].
    constructor; [apply (Forall_inv (Forall_inv_tail sample_ranks_ok)) | constructor].
  - cbn. lia.
  - exists Samples.rank_b, 1. split; [right; left; reflexivity|].
    split; [cbn; lia | vm_compute; discriminate].
Defined.

(** The output list with entries at the places 2, 2 and 4, asked from 3. *)
Lemma find_next_outputtime_first_listed_witness :
  let next := find_next_outputtime Samples.output_list 3 in
  (next = C.wrap32 (2 * TIMEBASE)
   /\ forall t, In t (OutputListTimes Samples.output_list) ->
                Spec.in_run Samples.output_list t -> output_ti Samples.output_list t < 3)
  \/ (exists before t after,
        OutputListTimes Samples.output_list = (before ++ t :: after)%list
        /\ Spec.in_run Samples.output_list t
        /\ next = output_ti Samples.output_list t /\ 3 <= next
        /\ forall t', In t' before -> Spec.in_run Samples.output_list t' ->
                      output_ti Samples.output_list t' < 3).
Proof.
  apply (find_next_outputtime_first_listed Samples.output_list 3). lia.
Defined.

(** A snapshot pending at 2 and the kick time 8. *)
Lemma pending_snapshots_are_written_witness :
  exists (st' : snapshots) (new : list (Z * Z * Z)),
    write_pending_snapshots Samples.output_list 10 0 8 Samples.pending = Done st'
    /\ saved st' = (new ++ saved Samples.pending)%list
    /\ (8 < Ti_nextoutput st' \/ Ti_nextoutput st' < 0)
    /\ Forall (fun e => Ti_nextoutput Samples.pending <= Spec.saved_at e <= 8
                        /\ 0 <= Spec.saved_at e /\ snd e = 0) new
    /\ StronglySorted (fun a b => Spec.saved_at b < Spec.saved_at a) new
    /\ (0 <= Ti_nextoutput Samples.pending <= 8 ->
        exists later,
          new = (later ++ [(Ti_nextoutput Samples.pending,
                            SnapshotFileCount Samples.pending, 0)])%list).
Proof.
  apply (pending_snapshots_are_written Samples.output_list timebins29_int 0 8 10
           Samples.pending).
  - cbn. lia.
  - cbn. lia.
Defined.


(** The bins 0 and 2 active, with the particles 2, 3 and 0, 1. *)
Lemma active_list_holds_the_active_bins_witness :
  exists L' : bin_lists,
    link_and_drift 10 ([1; 0; 1] ++ repeat 0 26)%list Samples.lists_c
    = Done (L', [1; 0; 3; 2], 4)
    /\ Spec.chain (NextActiveParticle L') (FirstActiveParticle L') [2; 3; 0; 1]
    /\ FirstInTimeBin L' = FirstInTimeBin Samples.lists_c
    /\ NextInTimeBin L' = NextInTimeBin Samples.lists_c.
Proof.
  refine (active_list_holds_the_active_bins 10 ([1; 0; 1] ++ repeat 0 26)%list
            Samples.lists_c Samples.members_c _ _ _ _ _).
  - intros n Hn. apply (lists_c_chains n Hn).
  - reflexivity.
  - exact NoDup_2301.
  - vm_compute. lia.
  - vm_compute. discriminate.
Defined.

(** One rank with two particles in bin 0 and two in bin 2, at the time 8. *)
Lemma recount_agrees_with_marking_witness :
  let S := find_next_sync_point 8 4 Samples.rank_c [] in
  let m := mark_active_bins (ti_next_kick_global S) Samples.rank_c in
  exists L' : bin_lists,
    link_and_drift 10 (Active m) Samples.lists_c = Done (L', [1; 0; 3; 2], NumForceUpdate m)
    /\ Spec.chain (NextActiveParticle L') (FirstActiveParticle L') [2; 3; 0; 1]
    /\ GlobNumForceUpdate S = NumForceUpdate m
    /\ check_numforces (GlobNumForceUpdate S) [NumForceUpdate m] = Done tt.
Proof.
  refine (recount_agrees_with_marking timebins29_31 10 8 4 Samples.rank_c Samples.lists_c
            Samples.members_c _ _ _ _ _).
  - apply (Forall_inv (Forall_inv_tail (Forall_inv_tail sample_ranks_ok))).
  - exact lists_c_chains.
  - reflexivity.
  - exact NoDup_2301.
  - vm_compute. lia.
Defined.

(** Two ranks with 28 particles at [Ti_Current = 8]. *)
Lemma ShouldWeDoDynamicUpdate_guess_is_next_count_witness :
  let guess := ShouldWeDoDynamicUpdate 8 0 28 0.1 Samples.rank_a [Samples.rank_b] in
  let S := find_next_sync_point 8 28 Samples.rank_a [Samples.rank_b] in
  fst guess = GlobNumForceUpdate S
  /\ (snd guess = 0
      <-> (double_of_int64 (wrap64 (0 + GlobNumForceUpdate S))
           >=? 0.1 * double_of_int64 28)%float = true)
  /\ (snd guess = 0 \/ snd guess = 1).
Proof.
  apply (ShouldWeDoDynamicUpdate_guess_is_next_count 8 0 28 0.1 Samples.rank_a
           [Samples.rank_b]).
Defined.

End RunSamples.

(** ** The walk on sample trees *)

Section WalkSamples.

Import GravTree.
Local Open Scope Z_scope.

(** A walk in mode 1 over a tree with a pseudo particle. *)
Lemma walk_exports_in_mode_0_only_witness :
  exists (t' : tree) (out : option TreeWalkResultGravity) (res : Z),
    @force_treeev_shortrange Samples.exporting_tree_module Samples.bh_All
      Samples.no_suppression Samples.no_suppression Samples.listed_query 1 10
      Samples.small_tree []
    = Done (t', [], out, res)
    /\ exists o : TreeWalkResultGravity, out = Some o /\ res = Ninteractions o.
Proof.
  destruct (@force_treeev_shortrange Samples.exporting_tree_module Samples.bh_All
              Samples.no_suppression Samples.no_suppression Samples.listed_query 1 10
              Samples.small_tree []) as [[[[t' lv'] out] res]| |] eqn:E.
  - assert (Hmode : 1 <> 0) by discriminate.
    destruct (@walk_exports_in_mode_0_only Samples.exporting_tree_module Samples.bh_All
                Samples.no_suppression Samples.no_suppression Samples.listed_query 1 10
                Samples.small_tree t' [] lv' out res Hmode E) as [-> Ho].
    exists t', out, res. split; [reflexivity | exact Ho].
  - vm_compute in E. discriminate E.
  - vm_compute in E. discriminate E.
Defined.

(** A walk in mode 0 from the particle 0, with empty export buffers. *)
Lemma walk_counters_stay_in_range_witness :
  exists (finished : bool) (w' : @walk_state Samples.exporting_tree_module),
    @walk Samples.exporting_tree_module Samples.bh_All
      Samples.no_suppression Samples.no_suppression Samples.listed_query 0 10
      (@mk_walk Samples.exporting_tree_module 0 (0, 0, 0)%float 0 0 0 1
         Samples.small_tree [])
    = Done (finished, w')
    /\ 1 <= w_listindex w' <= 8
    /\ w_nnodesinlist w' = w_listindex w' - 1
    /\ 0 <= w_ninteractions w' <= 10.
Proof.
  destruct (@walk Samples.exporting_tree_module Samples.bh_All
              Samples.no_suppression Samples.no_suppression Samples.listed_query 0 10
              (@mk_walk Samples.exporting_tree_module 0 (0, 0, 0)%float 0 0 0 1
         Samples.small_tree []))
    as [[finished w']| |] eqn:E.
  - exists finished, w'. split; [reflexivity|].
    apply (@walk_counters_stay_in_range Samples.exporting_tree_module Samples.bh_All
             Samples.no_suppression Samples.no_suppression Samples.listed_query 0 10
             0 Samples.small_tree [] finished w').
    + vm_compute. split; discriminate.
    + vm_compute. discriminate.
    + exact E.
  - vm_compute in E. discriminate E.
  - vm_compute in E. discriminate E.
Defined.

(** A walk in mode 0 whose export buffers are full: the result is -1. *)
Lemma walk_result_is_unambiguous_witness :
  exists (t' : tree) (lv' : list Z) (out : option TreeWalkResultGravity) (res : Z),
    @force_treeev_shortrange Samples.exporting_tree_module Samples.bh_All
      Samples.no_suppression Samples.no_suppression Samples.listed_query 0 10
      Samples.small_tree [7; 8]
    = Done (t', lv', out, res)
    /\ (out = None <-> res = -1)
    /\ (forall o : TreeWalkResultGravity,
          out = Some o -> res = Ninteractions o /\ 0 <= res <= 10).
Proof.
  destruct (@force_treeev_shortrange Samples.exporting_tree_module Samples.bh_All
              Samples.no_suppression Samples.no_suppression Samples.listed_query 0 10
              Samples.small_tree [7; 8]) as [[[[t' lv'] out] res]| |] eqn:E.
  - exists t', lv', out, res. split; [reflexivity|].
    apply (@walk_result_is_unambiguous Samples.exporting_tree_module Samples.bh_All
             Samples.no_suppression Samples.no_suppression Samples.listed_query 0 10
             Samples.small_tree t' [7; 8] lv' out res).
    + vm_compute. split; discriminate.
    + vm_compute. discriminate.
    + exact E.
  - vm_compute in E. discriminate E.
  - vm_compute in E. discriminate E.
Defined.

(** A target inside the cell whose last acceleration was large: the test
    on the mass fails, and the cell is opened all the same. *)
Lemma relative_criterion_opens_enclosing_cell_witness :
  let nop := Samples.near_cell in
  let r2 := snd (@separation Samples.plain_tree_module Samples.accelerated_query (s nop)) in
  (mass nop * len nop * len nop
   >? r2 * r2 * aold Samples.rel_All Samples.accelerated_query)%float = false
  /\ @opening_criterion Samples.rel_All Samples.accelerated_query nop r2 (mass nop) = true
  /\ @visit_node Samples.plain_tree_module Samples.rel_All Samples.accelerated_query 0
       Samples.near_cell_tree 100
     = (Samples.near_cell_tree, OpenCell (nextnode nop)).
Proof.
  intros nop r2. split; [reflexivity|].
  refine (@relative_criterion_opens_enclosing_cell Samples.plain_tree_module Samples.rel_All
            Samples.accelerated_query 0 Samples.near_cell_tree 100 _ _ _ _ _ _ _);
    reflexivity.
Defined.

End WalkSamples.
